(** * Row and index storage of a table over a key-value transaction

    A shallow embedding of [table/tables/tables.go]: the functions of
    [Table] that add, update, remove and read rows, written as state-passing
    functions over the transaction they are given.

    The Go code is written against interfaces ([kv.Transaction],
    [kv.RetrieverMutator], [table.Index], [autoid.Allocator]) and against
    packages ([tablecodec], [terror], [mysql], [types]) whose sources are not
    part of the files modelled here.  The interfaces are records of
    operations over an abstract environment; general theorems hold for every
    implementation, and a map-backed implementation (module [Mem]) is used
    to run the code on concrete inputs.

    Module [Rewriter] embeds the stack machine of
    [plan/expression_rewriter.go] ([Leave] and the functions it calls) in
    the same way. *)

From Stdlib Require Import ZArith Ascii String DecimalString List.
From stdpp Require Import base decidable option list gmap strings.

Local Open Scope string_scope.
Local Open Scope list_scope.
Local Open Scope Z_scope.

(** ** Errors *)

(** [terror.ErrorEqual] compares the class and code of two errors, not their
    messages; [Gen] keeps the code and replaces the message. *)
Inductive ErrCode :=
  | CodeNotExist
  | CodeKeyExists
  | CodeColumnStateNonPublic
  | CodeOther (n : Z).

#[global] Instance ErrCode_eq_dec : EqDecision ErrCode.
Proof. solve_decision. Defined.

Record Err := mkErr { err_code : ErrCode; err_msg : string }.

#[global] Instance Err_eq_dec : EqDecision Err.
Proof. solve_decision. Defined.

(** A Go [error] value: [None] is [nil]. *)
Abbreviation error := (option Err).

Definition Gen (e : Err) (msg : string) : Err := mkErr (err_code e) msg.

Definition kv_ErrNotExist : Err := mkErr CodeNotExist "Error: key not exist".
Definition kv_ErrKeyExists : Err := mkErr CodeKeyExists "Error: key already exist".
Definition table_ErrColumnStateNonPublic : Err :=
  mkErr CodeColumnStateNonPublic "can not use non-public column".

Definition ErrorEqual (err : error) (target : Err) : bool :=
  match err with
  | None => false
  | Some e => bool_decide (err_code e = err_code target)
  end.

(** [errors.Trace] annotates an error with the call site and maps [nil] to
    [nil]; the annotation is not observable through [ErrorEqual]. *)
Definition Trace (err : error) : error := err.

(** ** Values *)

(** A number as [fmt] and [strconv] print it in decimal, and read back. *)
Definition itoa (z : Z) : string := NilZero.string_of_int (Z.to_int z).
Definition atoi (s : string) : option Z :=
  Z.of_int <$> NilZero.int_of_string s.

Abbreviation Key := string.
Abbreviation Value := string.

Definition int64_wrap (z : Z) : Z := (z + 2 ^ 63) mod 2 ^ 64 - 2 ^ 63.
Definition uint64_wrap (z : Z) : Z := z mod 2 ^ 64.

(** [types.Datum] with the kinds the table code distinguishes; [DInterface]
    stands for a kind the value codec has no encoding for. *)
Inductive Datum :=
  | DNull
  | DInt64 (i : Z)
  | DUint64 (u : Z)
  | DString (s : string)
  | DInterface (tag : Z).

#[global] Instance Datum_eq_dec : EqDecision Datum.
Proof. solve_decision. Defined.

Definition IsNull (d : Datum) : bool :=
  match d with DNull => true | _ => false end.

(** [Datum.GetInt64] returns the integer field, which a uint64 datum holds
    as the same 64 bits. *)
Definition GetInt64 (d : Datum) : Z :=
  match d with
  | DInt64 i => i
  | DUint64 u => int64_wrap u
  | _ => 0
  end.

Definition SetInt64 (h : Z) : Datum := DInt64 h.
Definition SetUint64 (u : Z) : Datum := DUint64 u.

(** ** Schema *)

Inductive SchemaState :=
  | StateNone
  | StateDeleteOnly
  | StateWriteOnly
  | StateWriteReorganization
  | StateDeleteReorganization
  | StatePublic.

#[global] Instance SchemaState_eq_dec : EqDecision SchemaState.
Proof. solve_decision. Defined.

Record FieldType := mkFieldType { Tp : Z; Flen : Z; Decimal : Z }.

(** Column flags of package [mysql] (bit positions of the MySQL protocol). *)
Definition NotNullFlag : Z := 1.
Definition PriKeyFlag : Z := 2.
Definition UnsignedFlag : Z := 32.
Definition OnUpdateNowFlag : Z := 8192.

Definition HasFlag (flag bit : Z) : bool := 0 <? Z.land flag bit.
Definition HasNotNullFlag (flag : Z) : bool := HasFlag flag NotNullFlag.
Definition HasPriKeyFlag (flag : Z) : bool := HasFlag flag PriKeyFlag.
Definition HasUnsignedFlag (flag : Z) : bool := HasFlag flag UnsignedFlag.
Definition HasOnUpdateNowFlag (flag : Z) : bool := HasFlag flag OnUpdateNowFlag.

(** [table.Column]: [DefaultValue] is an [interface{}], [None] is [nil]. *)
Record Column := mkColumn {
  ID : Z;
  ColName : string;
  Offset : Z;
  State : SchemaState;
  Flag : Z;
  DefaultValue : option Datum;
  ColFieldType : FieldType
}.

Record IndexColumn := mkIndexColumn { IcName : string; IcOffset : Z }.

Record IndexInfo := mkIndexInfo {
  IdxID : Z;
  IdxName : string;
  IdxColumns : list IndexColumn;
  Unique : bool;
  Primary : bool;
  IdxState : SchemaState
}.

Record TableInfo := mkTableInfo { PKIsHandle : bool }.

Definition is_state (s1 s2 : SchemaState) : bool := bool_decide (s1 = s2).

(** [Column.IsPKHandleColumn]. *)
Definition IsPKHandleColumn (c : Column) (meta : TableInfo) : bool :=
  HasPriKeyFlag (Flag c) && PKIsHandle meta.

(** ** Outcomes

    A Go function either returns or panics (index out of range, method call
    on a nil interface). *)
Inductive Res (A : Type) :=
  | Done (a : A)
  | Panic.
Arguments Done {A} a.
Arguments Panic {A}.

Definition bindR {A B} (m : Res A) (k : A -> Res B) : Res B :=
  match m with
  | Done a => k a
  | Panic => Panic
  end.

Notation "'let*' p ':=' c1 'in' c2" := (bindR c1 (fun p => c2))
  (at level 10, p pattern, c1 at level 100, c2 at level 200).

(** [s[i]] on a slice: panics out of range. *)
Definition index {A} (s : list A) (i : Z) : Res A :=
  if i <? 0 then Panic
  else match s !! Z.to_nat i with
       | Some a => Done a
       | None => Panic
       end.

(** [touched[off]] on a [map[int]bool]: a missing key reads as [false]. *)
Definition touchedAt (touched : gmap Z bool) (off : Z) : bool :=
  default false (touched !! off).

(** Iterators.  A [kv.Iterator] is either exhausted or stands on an entry;
    a [table.IndexIterator] is represented by what its first [Next]
    returns.  Both are interface values and may be [nil] ([None] in
    [option]). *)
Record Iterator := mkIterator { iter_cur : option (Key * Value) }.
Definition Valid (it : Iterator) : bool := bool_decide (is_Some (iter_cur it)).

Record IndexIterator := mkIndexIterator { iter_Next : list Datum * Z * error }.

Inductive KvOption := PresumeKeyNotExists | PresumeKeyNotExistsError.

(** ** Collaborators

    What the table code calls but does not define, over [Env], the state
    behind the [context.Context] an operation is given: its transaction, its
    allocator and its session variables. *)
Class Collaborators (Env : Type) := {
  (* context.Context and session variables *)
  GetTxn : Env -> error;
  AddAffectedRows : Z -> Env -> Env;
  (* kv.Transaction *)
  txn_Get : Key -> Env -> Value * error;
  txn_Set : Key -> Value -> Env -> error * Env;
  txn_Delete : Key -> Env -> error * Env;
  txn_Seek : Key -> Env -> option Iterator * error;
  txn_LockKeys : Key -> Env -> error * Env;
  txn_SetOption : KvOption -> Err -> Env -> Env;
  txn_DelOption : KvOption -> Env -> Env;
  txn_String : Env -> Value;
  (* autoid.Allocator *)
  Alloc : Z -> Env -> (Z * error) * Env;
  (* tablecodec *)
  GenTableRecordPrefix : Z -> Key;
  GenTableIndexPrefix : Z -> Key;
  EncodeRecordKey : Key -> Z -> Z -> Key;
  EncodeColumnKey : Z -> Z -> Z -> Key;
  DecodeRowKey : Key -> Z * error;
  EncodeValue : Datum -> Value * error;
  DecodeColumnValue : Value -> FieldType -> Datum * error;
  (* table, evaluator, types *)
  GetColDefaultValue : Env -> Column -> Datum * bool * error;
  CastValue : Env -> Datum -> Column -> Datum * error;
  GetTimeValue : Env -> Z -> Z -> Datum * error;
  ToString : Datum -> string * error
}.

Section Tables.
Context {Env : Type} {K : Collaborators Env}.

(** Modelled from the spec: the Buffered Mutation Scope ([kv.BufferStore],
    whose source is not among the files modelled).  It "accumulates key
    writes/deletes for one logical row operation and is merged into the
    transaction atomically at the end of the operation, or discarded on
    error".  Staged mutations are kept newest first; [None] stages a
    delete. *)
Definition MemBuffer := list (Key * option Value).

(** The state an operation runs in: the environment of its context and the
    scope it has open (empty when it has none). *)
Record World := mkWorld { txn : Env; bs : MemBuffer }.

Definition onTxn (f : Env -> Env) (w : World) : World :=
  mkWorld (f (txn w)) (bs w).

Definition onTxnE (f : Env -> error * Env) (w : World) : error * World :=
  let '(err, e) := f (txn w) in (err, mkWorld e (bs w)).

(** [kv.RetrieverMutator]: the methods the table code and the indices call
    on it.  ([Seek] of the interface is called by no function of this
    file.) *)
Record RetrieverMutator := mkRM {
  rm_Get : Key -> World -> Value * error;
  rm_Set : Key -> Value -> World -> error * World;
  rm_Delete : Key -> World -> error * World
}.

(** The transaction as a [RetrieverMutator]. *)
Definition txnRM : RetrieverMutator :=
  {| rm_Get := fun k w => txn_Get k (txn w);
     rm_Set := fun k v w => onTxnE (txn_Set k v) w;
     rm_Delete := fun k w => onTxnE (txn_Delete k) w |}.

Fixpoint bufLookup (k : Key) (b : MemBuffer) : option (option Value) :=
  match b with
  | [] => None
  | (k', v) :: b' => if bool_decide (k = k') then Some v else bufLookup k b'
  end.

(** Modelled from the spec: the scope as a [RetrieverMutator].  Reads see
    the staged mutations first and fall through to the transaction; writes
    and deletes are staged. *)
Definition bsRM : RetrieverMutator :=
  {| rm_Get := fun k w =>
       match bufLookup k (bs w) with
       | Some (Some v) => (v, None)
       | Some None => ("", Some kv_ErrNotExist)
       | None => txn_Get k (txn w)
       end;
     rm_Set := fun k v w => (None, mkWorld (txn w) ((k, Some v) :: bs w));
     rm_Delete := fun k w => (None, mkWorld (txn w) ((k, None) :: bs w)) |}.

(** [kv.NewBufferStore(txn)] and the deferred [bs.Release()]. *)
Definition NewBufferStore (w : World) : World := mkWorld (txn w) [].
Definition Release (w : World) : World := mkWorld (txn w) [].

(** Replaying the staged mutations, oldest first, on the transaction. *)
Fixpoint replay (b : MemBuffer) (e : Env) : error * Env :=
  match b with
  | [] => (None, e)
  | (k, v) :: b' =>
    let '(err, e1) := replay b' e in
    match err with
    | Some _ => (err, e1)
    | None =>
      match v with
      | Some val => txn_Set k val e1
      | None => txn_Delete k e1
      end
    end
  end.

(** Modelled from the spec: [bs.SaveTo(txn)] merges the scope into the
    transaction as a unit; when a mutation is refused the transaction keeps
    none of them. *)
Definition SaveTo (w : World) : error * World :=
  let '(err, e) := replay (bs w) (txn w) in
  match err with
  | Some _ => (err, w)
  | None => (None, mkWorld e (bs w))
  end.

(** A Go slice that may be [nil]. *)
Definition slice := option (list Datum).
Definition elems (s : slice) : list Datum := default [] s.

(** [table.Index]: an interface, so a record of methods. *)
Record Index := mkIndex {
  Meta : IndexInfo;
  FetchValues : list Datum -> slice * error;
  Create : RetrieverMutator -> slice -> Z -> World -> error * World;
  Delete : RetrieverMutator -> slice -> Z -> World -> error * World;
  Seek : RetrieverMutator -> slice -> World -> option IndexIterator * bool * error
}.

(** [Table].  The cached [publicColumns] and [writableColumns] are set by
    [newTable] from [Columns] and never changed, so [Cols] and
    [writableCols] below compute them; [indices] holds the values
    [NewIndex] returned, none of which is [nil]. *)
Record Table := mkTable {
  TableID : Z;
  Columns : list Column;
  indices : list Index;
  recordPrefix : Key;
  indexPrefix : Key;
  meta : TableInfo
}.

(** [newTable], with the indices and the metadata [TableFromMeta] gives the
    table it returns. *)
Definition newTable (tableID : Z) (cols : list Column) (idxs : list Index)
    (m : TableInfo) : Table :=
  {| TableID := tableID;
     Columns := cols;
     indices := idxs;
     recordPrefix := GenTableRecordPrefix tableID;
     indexPrefix := GenTableIndexPrefix tableID;
     meta := m |}.

Definition Cols (t : Table) : list Column :=
  List.filter (fun col => is_state (State col) StatePublic) (Columns t).

Definition writableCols (t : Table) : list Column :=
  List.filter
    (fun col => negb (is_state (State col) StateDeleteOnly
                      || is_state (State col) StateDeleteReorganization))
    (Columns t).

Definition RecordKey (t : Table) (h : Z) (col : option Column) : Key :=
  let colID := match col with Some c => ID c | None => 0 end in
  EncodeRecordKey (recordPrefix t) h colID.

Definition SetColValue (rm : RetrieverMutator) (key : Key) (data : Datum)
    (w : World) : error * World :=
  let '(v, err) := EncodeValue data in
  match err with
  | Some _ => (Trace err, w)
  | None =>
    let '(err, w) := rm_Set rm key v w in
    match err with
    | Some _ => (Trace err, w)
    | None => (None, w)
    end
  end.

Definition LockRow (t : Table) (h : Z) (forRead : bool) (w : World)
    : error * World :=
  match GetTxn (txn w) with
  | Some e => (Trace (Some e), w)
  | None =>
    let lockKey := RecordKey t h None in
    let '(err, w) :=
      if forRead then onTxnE (txn_LockKeys lockKey) w
      else onTxnE (txn_Set lockKey (txn_String (txn w))) w in
    (Trace err, w)
  end.

(** *** UpdateRecord *)

(** [table.FindOnUpdateCols]. *)
Definition FindOnUpdateCols (cols : list Column) : list Column :=
  List.filter (fun col => HasOnUpdateNowFlag (Flag col)) cols.

(** [data[i] = value] on a slice: panics out of range. *)
Definition store (data : list Datum) (i : Z) (value : Datum) : Res (list Datum) :=
  if i <? 0 then Panic
  else if (Z.to_nat i <? length data)%nat then Done (<[Z.to_nat i := value]> data)
  else Panic.

(** The loop of [setOnUpdateData]: [touched] and [data] are a map and a
    slice shared with the caller, so what the loop did to them is returned
    with the error. *)
Fixpoint setOnUpdateCols (e : Env) (ucols : list Column)
    (touched : gmap Z bool) (data : list Datum)
    : Res (error * gmap Z bool * list Datum) :=
  match ucols with
  | [] => Done (None, touched, data)
  | col :: rest =>
    if negb (touchedAt touched (Offset col)) then
      let '(value, err) := GetTimeValue e (Tp (ColFieldType col)) (Decimal (ColFieldType col)) in
      match err with
      | Some _ => Done (Trace err, touched, data)
      | None =>
        let* data := store data (Offset col) value in
        setOnUpdateCols e rest (<[Offset col := true]> touched) data
      end
    else setOnUpdateCols e rest touched data
  end.

Definition setOnUpdateData (t : Table) (e : Env) (touched : gmap Z bool)
    (data : list Datum) : Res (error * gmap Z bool * list Datum) :=
  let ucols := FindOnUpdateCols (writableCols t) in
  setOnUpdateCols e ucols touched data.

Fixpoint setNewCols (t : Table) (rm : RetrieverMutator) (h : Z)
    (touched : gmap Z bool) (data : list Datum) (cols : list Column)
    (w : World) : Res (error * World) :=
  match cols with
  | [] => Done (None, w)
  | col :: rest =>
    if negb (touchedAt touched (Offset col)) then
      setNewCols t rm h touched data rest w
    else
      let k := RecordKey t h (Some col) in
      let* d := index data (Offset col) in
      let '(err, w) := SetColValue rm k d w in
      match err with
      | Some _ => Done (Trace err, w)
      | None => setNewCols t rm h touched data rest w
      end
  end.

Definition setNewData (t : Table) (rm : RetrieverMutator) (h : Z)
    (touched : gmap Z bool) (data : list Datum) (w : World)
    : Res (error * World) :=
  setNewCols t rm h touched data (Cols t) w.

Definition removeRowIndex (rm : RetrieverMutator) (h : Z) (vals : slice)
    (idx : Index) (w : World) : error * World :=
  let '(err, w) := Delete idx rm vals h w in
  match err with
  | Some _ => (Trace err, w)
  | None => (None, w)
  end.

Definition buildIndexForRow (rm : RetrieverMutator) (h : Z) (vals : slice)
    (idx : Index) (w : World) : error * World :=
  if is_state (IdxState (Meta idx)) StateDeleteOnly
     || is_state (IdxState (Meta idx)) StateDeleteReorganization
  then (None, w)
  else
    let '(err, w) := Create idx rm vals h w in
    match err with
    | Some _ => (Trace err, w)
    | None => (None, w)
    end.

(** The inner loop of [rebuildIndices]: is a column of the index touched. *)
Definition idxTouched (touched : gmap Z bool) (idx : Index) : bool :=
  existsb (fun ic => touchedAt touched (IcOffset ic)) (IdxColumns (Meta idx)).

(** The loop of [rebuildIndices].  Line 271 reads
    [if t.removeRowIndex(rm, h, oldVs, idx); err != nil]: the call is the
    init statement of the [if] and its result is dropped; the condition
    tests [err], still the error of [FetchValues] above. *)
Fixpoint rebuildIdxs (rm : RetrieverMutator) (h : Z) (touched : gmap Z bool)
    (oldData newData : list Datum) (idxs : list Index) (w : World)
    : error * World :=
  match idxs with
  | [] => (None, w)
  | idx :: rest =>
    if negb (idxTouched touched idx) then
      rebuildIdxs rm h touched oldData newData rest w
    else
      let '(oldVs, err) := FetchValues idx oldData in
      match err with
      | Some _ => (Trace err, w)
      | None =>
        let '(_, w) := removeRowIndex rm h oldVs idx w in
        match err with
        | Some _ => (Trace err, w)
        | None =>
          let '(newVs, err) := FetchValues idx newData in
          match err with
          | Some _ => (Trace err, w)
          | None =>
            let '(err, w) := buildIndexForRow rm h newVs idx w in
            match err with
            | Some _ => (Trace err, w)
            | None => rebuildIdxs rm h touched oldData newData rest w
            end
          end
        end
      end
  end.

Definition rebuildIndices (t : Table) (rm : RetrieverMutator) (h : Z)
    (touched : gmap Z bool) (oldData newData : list Datum) (w : World)
    : error * World :=
  rebuildIdxs rm h touched oldData newData (indices t) w.

(** [make([]types.Datum, n)] followed by [copy(currentData, newData)]. *)
Definition makeCopy (n : nat) (newData : list Datum) : list Datum :=
  take n newData ++ replicate (n - length newData) DNull.

(** The part of [UpdateRecord] that runs with the scope open. *)
Definition updateStaged (t : Table) (h : Z) (touched : gmap Z bool)
    (oldData currentData : list Datum) (w : World) : Res (error * World) :=
  let* (err, w) := setNewData t bsRM h touched currentData w in
  match err with
  | Some _ => Done (Trace err, w)
  | None =>
    let '(err, w) := rebuildIndices t bsRM h touched oldData currentData w in
    match err with
    | Some _ => Done (Trace err, w)
    | None =>
      let '(err, w) := SaveTo w in
      match err with
      | Some _ => Done (Trace err, w)
      | None => Done (None, w)
      end
    end
  end.

(** [UpdateRecord] returns its error; [touched] is the caller's map, so the
    map as the call leaves it is returned too. *)
Definition UpdateRecord (t : Table) (h : Z) (oldData newData : list Datum)
    (touched : gmap Z bool) (w : World) : Res (error * gmap Z bool * World) :=
  let currentData := makeCopy (length (writableCols t)) newData in
  let* (err, touched, currentData) :=
    setOnUpdateData t (txn w) touched currentData in
  match err with
  | Some _ => Done (Trace err, touched, w)
  | None =>
    match GetTxn (txn w) with
    | Some e => Done (Trace (Some e), touched, w)
    | None =>
      let w := NewBufferStore w in
      let* (err, w) := updateStaged t h touched oldData currentData w in
      Done (err, touched, Release w)
    end
  end.

(** *** AddRecord *)

Definition SetOption (opt : KvOption) (e : Err) : World -> World :=
  onTxn (txn_SetOption opt e).
Definition DelOption (opt : KvOption) : World -> World :=
  onTxn (txn_DelOption opt).

(** The first loop of [AddRecord]: the handle a PK-is-handle column
    supplies, and whether there is one. *)
Fixpoint findRecordID (m : TableInfo) (cols : list Column) (r : list Datum)
    : Res (Z * bool) :=
  match cols with
  | [] => Done (0, false)
  | col :: rest =>
    if IsPKHandleColumn col m then
      let* d := index r (Offset col) in
      Done (GetInt64 d, true)
    else findRecordID m rest r
  end.

Fixpoint genIndexKeyStrs (colVals : list Datum) : list string * error :=
  match colVals with
  | [] => ([], None)
  | cv :: rest =>
    let '(cvs, err) :=
      if negb (IsNull cv) then ToString cv else ("NULL", None) in
    match err with
    | Some _ => ([], Trace err)
    | None =>
      let '(strVals, err) := genIndexKeyStrs rest in
      (cvs :: strVals, err)
    end
  end.

Fixpoint Join (strs : list string) (sep : string) : string :=
  match strs with
  | [] => ""
  | [s] => s
  | s :: rest => s ++ sep ++ Join rest sep
  end.

Definition genIndexKeyStr (colVals : slice) : string * error :=
  let '(strVals, err) := genIndexKeyStrs (elems colVals) in
  match err with
  | Some _ => ("", err)
  | None => (Join strVals "-", None)
  end.

(** The two duplicate-key errors [addIndices] composes:
    [kv.ErrKeyExists.Gen("Duplicate entry '%d' for key 'PRIMARY'", recordID)]
    and
    [kv.ErrKeyExists.Gen("Duplicate entry '%s' for key '%s'", entryKey, v.Meta().Name)]. *)
Definition dupHandle (recordID : Z) : Err :=
  Gen kv_ErrKeyExists
    ("Duplicate entry '" ++ itoa recordID ++ "' for key 'PRIMARY'").

Definition dupEntry (entryKey : string) (info : IndexInfo) : Err :=
  Gen kv_ErrKeyExists
    ("Duplicate entry '" ++ entryKey ++ "' for key '" ++ IdxName info ++ "'").

(** The existence probe of [addIndices] on a PK-is-handle table: [Some] is
    an early return. *)
Definition checkHandle (t : Table) (recordID : Z) (w : World)
    : option (Z * error) * World :=
  if PKIsHandle (meta t) then
    let recordKey := RecordKey t recordID None in
    let e := dupHandle recordID in
    let w := SetOption PresumeKeyNotExistsError e w in
    let '(_, err) := txn_Get recordKey (txn w) in
    match err with
    | None => (Some (recordID, Trace (Some e)), w)
    | Some _ =>
      if negb (ErrorEqual err kv_ErrNotExist) then (Some (0, Trace err), w)
      else (None, DelOption PresumeKeyNotExistsError w)
    end
  else (None, w).

(** The loop of [addIndices] over [t.indices]: [Some] is a [return] inside
    the loop, [None] is the loop running to its end. *)
Fixpoint addIdxs (recordID : Z) (r : list Datum) (idxs : list Index)
    (w : World) : Res (option (Z * error) * World) :=
  match idxs with
  | [] => Done (None, w)
  | v :: rest =>
    if is_state (IdxState (Meta v)) StateDeleteOnly
       || is_state (IdxState (Meta v)) StateDeleteReorganization
    then addIdxs recordID r rest w
    else
      let '(colVals, _) := FetchValues v r in
      let '(err1, dupKeyErr, w) :=
        if Unique (Meta v) || Primary (Meta v) then
          let '(entryKey, err1) := genIndexKeyStr colVals in
          match err1 with
          | Some _ => (err1, None, w)
          | None =>
            let dupKeyErr := dupEntry entryKey (Meta v) in
            (None, Some dupKeyErr,
             SetOption PresumeKeyNotExistsError dupKeyErr w)
          end
        else (None, None, w) in
      match err1 with
      | Some _ => Done (Some (0, Trace err1), w)
      | None =>
        let '(err, w) := Create v bsRM colVals recordID w in
        match err with
        | Some _ =>
          if ErrorEqual err kv_ErrKeyExists then
            let '(iter, _, err1) := Seek v bsRM colVals w in
            match err1 with
            | Some _ => Done (Some (0, Trace err1), w)
            | None =>
              match iter with
              | None => Panic
              | Some it =>
                let '(_, h, err1) := iter_Next it in
                match err1 with
                | Some _ => Done (Some (0, Trace err1), w)
                | None => Done (Some (h, Trace dupKeyErr), w)
                end
              end
            end
          else Done (Some (0, Trace err), w)
        | None =>
          addIdxs recordID r rest (DelOption PresumeKeyNotExistsError w)
        end
      end
  end.

(** [addIndices]: [defer txn.DelOption(kv.PresumeKeyNotExistsError)] runs
    on every return after the transaction was obtained; after the loop the
    function returns [0, nil]. *)
Definition addIndices (t : Table) (recordID : Z) (r : list Datum) (w : World)
    : Res ((Z * error) * World) :=
  match GetTxn (txn w) with
  | Some e => Done ((0, Trace (Some e)), w)
  | None =>
    let* (res, w) :=
      match checkHandle t recordID w with
      | (Some ret, w) => Done (ret, w)
      | (None, w) =>
        let* (ret, w) := addIdxs recordID r (indices t) w in
        Done (default (0, None) ret, w)
      end in
    Done (res, DelOption PresumeKeyNotExistsError w)
  end.

(** The column loop of [AddRecord].  The writes go to [txn], not to the
    scope [bs] (line 343). *)
Fixpoint addRecordCols (t : Table) (recordID : Z) (r : list Datum)
    (cols : list Column) (w : World) : Res (error * World) :=
  match cols with
  | [] => Done (None, w)
  | col :: rest =>
    if IsPKHandleColumn col (meta t) then addRecordCols t recordID r rest w
    else
      let* skip :=
        match DefaultValue col with
        | None => let* d := index r (Offset col) in Done (IsNull d)
        | Some _ => Done false
        end in
      if skip then addRecordCols t recordID r rest w
      else
        let* (value, err) :=
          if is_state (State col) StateWriteOnly
             || is_state (State col) StateWriteReorganization
          then
            let '(value, _, err) := GetColDefaultValue (txn w) col in
            match err with
            | Some _ => Done (value, err)
            | None => Done (CastValue (txn w) value col)
            end
          else
            let* d := index r (Offset col) in Done (d, None) in
        match err with
        | Some _ => Done (Trace err, w)
        | None =>
          let key := RecordKey t recordID (Some col) in
          let '(err, w) := SetColValue txnRM key value w in
          match err with
          | Some _ => Done (Trace err, w)
          | None => addRecordCols t recordID r rest w
          end
        end
  end.

(** The part of [AddRecord] that runs with the scope open. *)
Definition addStaged (t : Table) (recordID : Z) (r : list Datum) (w : World)
    : Res ((Z * error) * World) :=
  let* (res, w) := addIndices t recordID r w in
  let '(h, err) := res in
  match err with
  | Some _ => Done ((h, Trace err), w)
  | None =>
    let '(err, w) := LockRow t recordID false w in
    match err with
    | Some _ => Done ((0, Trace err), w)
    | None =>
      let* (err, w) := addRecordCols t recordID r (writableCols t) w in
      match err with
      | Some _ => Done ((0, Trace err), w)
      | None =>
        let '(err, w) := SaveTo w in
        match err with
        | Some _ => Done ((0, Trace err), w)
        | None => Done ((recordID, None), onTxn (AddAffectedRows 1) w)
        end
      end
    end
  end.

(** Lines 289-302 of [AddRecord]: the handle of the new row. *)
Definition newRecordID (t : Table) (r : list Datum) (w : World)
    : Res ((Z * error) * World) :=
  let* (recordID, hasRecordID) := findRecordID (meta t) (Cols t) r in
  if negb hasRecordID then
    let '(res, e) := Alloc (TableID t) (txn w) in
    Done (res, mkWorld e (bs w))
  else Done ((recordID, None), w).

Definition AddRecord (t : Table) (r : list Datum) (w : World)
    : Res ((Z * error) * World) :=
  let* (res, w) := newRecordID t r w in
  let '(recordID, err) := res in
  match err with
  | Some _ => Done ((0, Trace err), w)
  | None =>
    match GetTxn (txn w) with
    | Some e => Done ((0, Trace (Some e)), w)
    | None =>
      let w := NewBufferStore w in
      let* (res, w) := addStaged t recordID r w in
      Done (res, Release w)
    end
  end.

(** *** RowWithCols, Row *)

(** The loop of [RowWithCols]; [v[i]] of a column the loop skips keeps the
    zero [Datum], which is the null value. *)
Fixpoint rowCols (t : Table) (h : Z) (cols : list (option Column)) (e : Env)
    : list Datum * error :=
  match cols with
  | [] => ([], None)
  | None :: rest =>
    let '(v, err) := rowCols t h rest e in
    match err with Some _ => ([], err) | None => (DNull :: v, None) end
  | Some col :: rest =>
    if negb (is_state (State col) StatePublic) then
      ([], Some (Gen table_ErrColumnStateNonPublic
                   "Cannot use none public column"))
    else
      let '(vi, err) :=
        if IsPKHandleColumn col (meta t) then
          if HasUnsignedFlag (Flag col) then (SetUint64 (uint64_wrap h), None)
          else (SetInt64 h, None)
        else
          let k := RecordKey t h (Some col) in
          let '(data, err) := txn_Get k e in
          if ErrorEqual err kv_ErrNotExist && negb (HasNotNullFlag (Flag col))
          then (DNull, None)
          else
            match err with
            | Some _ => (DNull, Trace err)
            | None =>
              let '(d, err) := DecodeColumnValue data (ColFieldType col) in
              match err with
              | Some _ => (DNull, Trace err)
              | None => (d, None)
              end
            end in
      match err with
      | Some _ => ([], err)
      | None =>
        let '(v, err) := rowCols t h rest e in
        match err with Some _ => ([], err) | None => (vi :: v, None) end
      end
  end.

Definition RowWithCols (t : Table) (h : Z) (cols : list (option Column))
    (w : World) : list Datum * error :=
  match GetTxn (txn w) with
  | Some e => ([], Trace (Some e))
  | None => rowCols t h cols (txn w)
  end.


(** *** RemoveRecord *)

Fixpoint removeCols (t : Table) (h : Z) (cols : list Column) (e : Env)
    : error * Env :=
  match cols with
  | [] => (None, e)
  | col :: rest =>
    let k := RecordKey t h (Some col) in
    let '(err, e) := txn_Delete k e in
    match err with
    | Some _ =>
      if negb (is_state (State col) StatePublic)
         && ErrorEqual err kv_ErrNotExist
      then removeCols t h rest e
      else (Trace err, e)
    | None => removeCols t h rest e
    end
  end.

Definition removeRowData (t : Table) (h : Z) (w : World) : error * World :=
  let '(err, w) := LockRow t h false w in
  match err with
  | Some _ => (Trace err, w)
  | None =>
    match GetTxn (txn w) with
    | Some e => (Trace (Some e), w)
    | None =>
      let '(err, w) := onTxnE (removeCols t h (Columns t)) w in
      match err with
      | Some _ => (err, w)
      | None =>
        let '(err, w) := onTxnE (txn_Delete (RecordKey t h None)) w in
        match err with
        | Some _ => (Trace err, w)
        | None => (None, w)
        end
      end
    end
  end.

Fixpoint removeIdxs (h : Z) (rec : list Datum) (idxs : list Index) (w : World)
    : error * World :=
  match idxs with
  | [] => (None, w)
  | v :: rest =>
    let '(vals, _) := FetchValues v rec in
    match vals with
    | None => removeIdxs h rec rest w
    | Some _ =>
      match GetTxn (txn w) with
      | Some e => (Trace (Some e), w)
      | None =>
        let '(err, w) := Delete v txnRM vals h w in
        match err with
        | Some _ =>
          if negb (is_state (IdxState (Meta v)) StatePublic)
             && ErrorEqual err kv_ErrNotExist
          then removeIdxs h rec rest w
          else (Trace err, w)
        | None => removeIdxs h rec rest w
        end
      end
    end
  end.

Definition removeRowIndices (t : Table) (h : Z) (rec : list Datum) (w : World)
    : error * World :=
  removeIdxs h rec (indices t) w.

Definition RemoveRecord (t : Table) (h : Z) (r : list Datum) (w : World)
    : error * World :=
  let '(err, w) := removeRowData t h w in
  match err with
  | Some _ => (Trace err, w)
  | None =>
    let '(err, w) := removeRowIndices t h r w in
    match err with
    | Some _ => (Trace err, w)
    | None => (None, w)
    end
  end.

(** *** Seek *)

(** [kv.Key.HasPrefix]. *)
Definition HasPrefix (k p : Key) : bool := String.prefix p k.

Definition IterKey (it : Iterator) : Key :=
  match iter_cur it with Some (k, _) => k | None => "" end.

(** [Table.Seek]: the [err] of [txn.Seek] is overwritten by the next
    assignment without having been read; [iter] is used as it came. *)
Definition TableSeek (t : Table) (h : Z) (w : World) : Res (Z * bool * error) :=
  let seekKey := EncodeColumnKey (TableID t) h 0 in
  match GetTxn (txn w) with
  | Some e => Done (0, false, Trace (Some e))
  | None =>
    let '(iter, _) := txn_Seek seekKey (txn w) in
    match iter with
    | None => Panic
    | Some iter =>
      if negb (Valid iter) || negb (HasPrefix (IterKey iter) (recordPrefix t))
      then Done (0, false, None)
      else
        let '(handle, err) := DecodeRowKey (IterKey iter) in
        match err with
        | Some _ => Done (0, false, Trace err)
        | None => Done (handle, true, None)
        end
    end
  end.

(** What [RowWithCols] puts at the position of a PK-is-handle column. *)
Definition handleDatum (col : Column) (h : Z) : Datum :=
  if HasUnsignedFlag (Flag col) then SetUint64 (uint64_wrap h) else SetInt64 h.

(** *** What the theorems assume of an implementation

    A reading [view] of the store behind an environment (the value under
    each key) and the laws of a transaction that behaves as a map. *)
Section Laws.
Variable view : Env -> Key -> option Value.

Definition SetLaw : Prop :=
  forall k v e e', txn_Set k v e = (None, e') ->
  forall k', view e' k' = if bool_decide (k' = k) then Some v else view e k'.

Definition DeleteLaw : Prop :=
  forall k e e', txn_Delete k e = (None, e') ->
  forall k', view e' k' = if bool_decide (k' = k) then None else view e k'.

(** [w'] is [w] with mutations staged in the scope, all on keys in [Q];
    the store behind the transaction reads the same. *)
Definition Staged (Q : Key -> Prop) (w w' : World) : Prop :=
  (forall k, view (txn w') k = view (txn w) k)
  /\ exists staged, bs w' = staged ++ bs w /\ Forall (fun kv => Q (fst kv)) staged.

(** An index that, given the scope, writes through it and only to keys in
    [Q]. *)
Definition IndexStages (Q : Key -> Prop) (idx : Index) : Prop :=
  forall vals h w,
    Staged Q w (snd (Create idx bsRM vals h w))
    /\ Staged Q w (snd (Delete idx bsRM vals h w)).

(** A reading [Hint] of the optimistic-existence hint, and a transaction
    that behaves as a map: writes and deletes that succeed update the store
    and leave the hint, options and counters leave the store, and with no
    hint set a read returns what the store holds, or key-not-found. *)
Variable Hint : Env -> option Err.

Definition GetReads (e : Env) (k : Key) : Prop :=
  match view e k with
  | Some v => txn_Get k e = (v, None)
  | None => ErrorEqual (snd (txn_Get k e)) kv_ErrNotExist = true
  end.

Record MapStore : Prop := {
  ms_Set : SetLaw;
  ms_Delete : DeleteLaw;
  ms_Set_hint : forall k v e e', txn_Set k v e = (None, e') -> Hint e' = Hint e;
  ms_Delete_hint : forall k e e', txn_Delete k e = (None, e') -> Hint e' = Hint e;
  ms_SetOption : forall o x e k, view (txn_SetOption o x e) k = view e k;
  ms_DelOption : forall o e k, view (txn_DelOption o e) k = view e k;
  ms_DelOption_hint :
    forall e, Hint (txn_DelOption PresumeKeyNotExistsError e) = None;
  ms_Alloc : forall id e k, view (snd (Alloc id e)) k = view e k;
  ms_AddAffectedRows_view :
    forall n e k, view (AddAffectedRows n e) k = view e k;
  ms_AddAffectedRows_hint :
    forall n e, Hint (AddAffectedRows n e) = Hint e;
  ms_Get : forall e k, Hint e = None -> GetReads e k
}.

End Laws.

(** The value a row holds for an offset (null outside the row). *)
Definition rowAt (r : list Datum) (off : Z) : Datum :=
  match index r off with
  | Done d => d
  | Panic => DNull
  end.

(** What the column loop of [AddRecord], run from [w] to [w'], leaves of a
    Public column that is not the handle: nothing, for a null value without
    default, or the encoded value. *)
Definition ColumnWritten (view : Env -> Key -> option Value) (t : Table)
    (h : Z) (r : list Datum) (w w' : World) (col : Column) : Prop :=
  let d := rowAt r (Offset col) in
  let k := RecordKey t h (Some col) in
  (DefaultValue col = None /\ IsNull d = true
   /\ view (txn w') k = view (txn w) k)
  \/ (snd (EncodeValue d) = None
      /\ view (txn w') k = Some (fst (EncodeValue d))).




(** The table with another list of indices. *)
Definition setIndices (t : Table) (idxs : list Index) : Table :=
  {| TableID := TableID t;
     Columns := Columns t;
     indices := idxs;
     recordPrefix := recordPrefix t;
     indexPrefix := indexPrefix t;
     meta := meta t |}.

End Tables.

(** ** A map-backed implementation of the collaborators

    Used to run the table code on concrete inputs.  The store is a finite
    map; [Delete] of a key that is not there reports [kv.ErrNotExist], the
    behaviour the comments in [removeRowData] and [removeRowIndices]
    expect.  The map is an association list without repeated keys, which
    computes under every reduction strategy. *)
Module Mem.
Local Open Scope string_scope.
Local Open Scope Z_scope.

Record MemEnv := mkMemEnv {
  kvs : list (Key * Value);
  hint : option Err;
  lastID : Z;
  affected : Z;
  seekFault : error   (* the error [Seek] reports besides its iterator *)
}.

Fixpoint lookupKv (k : Key) (l : list (Key * Value)) : option Value :=
  match l with
  | [] => None
  | (k', v) :: l' => if String.eqb k k' then Some v else lookupKv k l'
  end.

Fixpoint insertKv (k : Key) (v : Value) (l : list (Key * Value))
    : list (Key * Value) :=
  match l with
  | [] => [(k, v)]
  | (k', v') :: l' =>
    if String.eqb k k' then (k, v) :: l' else (k', v') :: insertKv k v l'
  end.

Fixpoint deleteKv (k : Key) (l : list (Key * Value)) : list (Key * Value) :=
  match l with
  | [] => []
  | (k', v') :: l' =>
    if String.eqb k k' then deleteKv k l' else (k', v') :: deleteKv k l'
  end.

Abbreviation MemWorld := (@World MemEnv).
Abbreviation MemRM := (@RetrieverMutator MemEnv).

Definition withKvs (f : list (Key * Value) -> list (Key * Value)) (e : MemEnv) :=
  mkMemEnv (f (kvs e)) (hint e) (lastID e) (affected e) (seekFault e).

Definition get (k : Key) (e : MemEnv) : Value * error :=
  match lookupKv k (kvs e) with
  | Some v => (v, None)
  | None => ("", Some kv_ErrNotExist)
  end.

Definition set (k : Key) (v : Value) (e : MemEnv) : error * MemEnv :=
  (None, withKvs (insertKv k v) e).

Definition del (k : Key) (e : MemEnv) : error * MemEnv :=
  match lookupKv k (kvs e) with
  | Some _ => (None, withKvs (deleteKv k) e)
  | None => (Some kv_ErrNotExist, e)
  end.

(** The least entry at or after [k], in the byte order of the keys. *)
Definition seek (k : Key) (e : MemEnv) : option Iterator * error :=
  let later := List.filter (fun kv => String.leb k (fst kv)) (kvs e) in
  let least :=
    fold_right
      (fun kv acc =>
         match acc with
         | Some (k', _) => if String.leb (fst kv) k' then Some kv else acc
         | None => Some kv
         end) None later in
  (Some (mkIterator least), seekFault e).

Definition setOption (opt : KvOption) (err : Err) (e : MemEnv) : MemEnv :=
  match opt with
  | PresumeKeyNotExistsError =>
    mkMemEnv (kvs e) (Some err) (lastID e) (affected e) (seekFault e)
  | PresumeKeyNotExists => e
  end.

Definition delOption (opt : KvOption) (e : MemEnv) : MemEnv :=
  match opt with
  | PresumeKeyNotExistsError =>
    mkMemEnv (kvs e) None (lastID e) (affected e) (seekFault e)
  | PresumeKeyNotExists => e
  end.

Definition alloc (tableID : Z) (e : MemEnv) : (Z * error) * MemEnv :=
  ((lastID e + 1, None),
   mkMemEnv (kvs e) (hint e) (lastID e + 1) (affected e) (seekFault e)).

Definition addAffected (n : Z) (e : MemEnv) : MemEnv :=
  mkMemEnv (kvs e) (hint e) (lastID e) (affected e + n) (seekFault e).

Definition errCodec : Err := mkErr (CodeOther 1) "unsupport encode type".
Definition errDecode : Err := mkErr (CodeOther 2) "invalid encoded value".
Definition errNoDefault : Err := mkErr (CodeOther 3) "field has no default value".
Definition errOutOfBound : Err := mkErr (CodeOther 4) "index column offset out of bound".

Definition encodeValue (d : Datum) : Value * error :=
  match d with
  | DNull => ("n", None)
  | DInt64 i => ("i" ++ itoa i, None)
  | DUint64 u => ("u" ++ itoa u, None)
  | DString s => ("s" ++ s, None)
  | DInterface _ => ("", Some errCodec)
  end.

Definition decodeColumnValue (v : Value) (ft : FieldType) : Datum * error :=
  match v with
  | String "n"%char EmptyString => (DNull, None)
  | String "i"%char s =>
    match atoi s with Some i => (DInt64 i, None) | None => (DNull, Some errDecode) end
  | String "u"%char s =>
    match atoi s with Some u => (DUint64 u, None) | None => (DNull, Some errDecode) end
  | String "s"%char s => (DString s, None)
  | _ => (DNull, Some errDecode)
  end.

Definition genTableRecordPrefix (tableID : Z) : Key := "t" ++ itoa tableID ++ "_r".
Definition genTableIndexPrefix (tableID : Z) : Key := "t" ++ itoa tableID ++ "_i".

Definition encodeRecordKey (prefix : Key) (h colID : Z) : Key :=
  prefix ++ itoa h ++ "_" ++ itoa colID.

Definition encodeColumnKey (tableID h colID : Z) : Key :=
  encodeRecordKey (genTableRecordPrefix tableID) h colID.

(** The handle is the number between ["_r"] and the next ["_"]. *)
Fixpoint afterR (s : string) : option string :=
  match s with
  | String "_"%char (String "r"%char s') => Some s'
  | String _ s' => afterR s'
  | EmptyString => None
  end.

Fixpoint upTo_ (s : string) : string :=
  match s with
  | String "_"%char _ => EmptyString
  | String a s' => String a (upTo_ s')
  | EmptyString => EmptyString
  end.

Definition decodeRowKey (k : Key) : Z * error :=
  match afterR k with
  | Some s =>
    match atoi (upTo_ s) with
    | Some h => (h, None)
    | None => (0, Some errDecode)
    end
  | None => (0, Some errDecode)
  end.

Definition getColDefaultValue (e : MemEnv) (col : Column) : Datum * bool * error :=
  match DefaultValue col with
  | Some d => (d, true, None)
  | None =>
    if HasNotNullFlag (Flag col) then (DNull, false, Some errNoDefault)
    else (DNull, true, None)
  end.

Definition toString (d : Datum) : string * error :=
  match d with
  | DNull => ("", None)
  | DInt64 i => (itoa i, None)
  | DUint64 u => (itoa u, None)
  | DString s => (s, None)
  | DInterface _ => ("", Some errCodec)
  end.

#[export] Instance collab : Collaborators MemEnv := {|
  GetTxn := fun _ => None;
  AddAffectedRows := addAffected;
  txn_Get := get;
  txn_Set := set;
  txn_Delete := del;
  txn_Seek := seek;
  txn_LockKeys := fun _ e => (None, e);
  txn_SetOption := setOption;
  txn_DelOption := delOption;
  txn_String := fun _ => "txn";
  Alloc := alloc;
  GenTableRecordPrefix := genTableRecordPrefix;
  GenTableIndexPrefix := genTableIndexPrefix;
  EncodeRecordKey := encodeRecordKey;
  EncodeColumnKey := encodeColumnKey;
  DecodeRowKey := decodeRowKey;
  EncodeValue := encodeValue;
  DecodeColumnValue := decodeColumnValue;
  GetColDefaultValue := getColDefaultValue;
  CastValue := fun _ d _ => (d, None);
  GetTimeValue := fun _ _ _ => (DString "now", None);
  ToString := toString
|}.

(** An index over the store: the key of an entry is made of the index
    prefix, the index id and the encoded column values (and the handle,
    when the index is not unique); the value of a unique entry is the
    handle. *)
Section MemIndex.
Variable prefix : Key.
Variable info : IndexInfo.

Fixpoint encodeVals (vals : list Datum) : string * error :=
  match vals with
  | [] => ("", None)
  | d :: rest =>
    let '(s, err) := encodeValue d in
    match err with
    | Some _ => ("", err)
    | None =>
      let '(s', err) := encodeVals rest in
      match err with
      | Some _ => ("", err)
      | None => ("_" ++ s ++ s', None)
      end
    end
  end.

Definition distinct : bool := Unique info || Primary info.

Definition genIndexKey (vals : slice) (h : Z) : Key * error :=
  let '(s, err) := encodeVals (elems vals) in
  match err with
  | Some _ => ("", err)
  | None =>
    let key := prefix ++ itoa (IdxID info) ++ s in
    if distinct then (key, None) else (key ++ "_h" ++ itoa h, None)
  end.

Fixpoint fetch (r : list Datum) (ics : list IndexColumn) : slice * error :=
  match ics with
  | [] => (Some [], None)
  | ic :: rest =>
    match index r (IcOffset ic) with
    | Panic => (None, Some errOutOfBound)
    | Done d =>
      match fetch r rest with
      | (Some vs, None) => (Some (d :: vs), None)
      | other => (None, snd other)
      end
    end
  end.

Definition create (rm : MemRM) (vals : slice) (h : Z) (w : MemWorld)
    : error * MemWorld :=
  let '(key, err) := genIndexKey vals h in
  match err with
  | Some _ => (err, w)
  | None =>
    if negb distinct then rm_Set rm key "0" w
    else
      let '(_, err) := rm_Get rm key w in
      if ErrorEqual err kv_ErrNotExist then rm_Set rm key (itoa h) w
      else (Some kv_ErrKeyExists, w)
  end.

Definition delete (rm : MemRM) (vals : slice) (h : Z) (w : MemWorld)
    : error * MemWorld :=
  let '(key, err) := genIndexKey vals h in
  match err with
  | Some _ => (err, w)
  | None => rm_Delete rm key w
  end.

Definition seekIdx (rm : MemRM) (vals : slice) (w : MemWorld)
    : option IndexIterator * bool * error :=
  let '(key, err) := genIndexKey vals 0 in
  match err with
  | Some _ => (None, false, err)
  | None =>
    let '(v, err) := rm_Get rm key w in
    match err with
    | Some _ => (Some (mkIndexIterator ([], 0, err)), false, None)
    | None =>
      match atoi v with
      | Some h => (Some (mkIndexIterator (elems vals, h, None)), true, None)
      | None => (Some (mkIndexIterator ([], 0, Some errDecode)), false, None)
      end
    end
  end.

Definition memIndex : @Index MemEnv :=
  {| Meta := info;
     FetchValues := fun r => fetch r (IdxColumns info);
     Create := create;
     Delete := delete;
     Seek := seekIdx |}.

End MemIndex.

Definition emptyEnv : MemEnv := mkMemEnv [] None 0 0 None.
Definition emptyWorld : MemWorld := mkWorld emptyEnv [].

(** [TableFromMeta] for this implementation: [NewIndex] is [memIndex]. *)
Definition tableFromMeta (tableID : Z) (cols : list Column)
    (infos : list IndexInfo) (pkIsHandle : bool) : @Table MemEnv :=
  newTable tableID cols
    (List.map (memIndex (genTableIndexPrefix tableID)) infos)
    (mkTableInfo pkIsHandle).

(** *** Inputs of the examples *)

Definition errIO : Err := mkErr (CodeOther 9) "i/o timeout".

Definition column (id off : Z) (st : SchemaState) (flag : Z)
    (def : option Datum) : Column :=
  mkColumn id ("c" ++ itoa id) off st flag def (mkFieldType 0 0 0).

Definition storeOf (l : list (Key * Value)) : MemEnv :=
  mkMemEnv l None 0 0 None.

Definition worldOf (l : list (Key * Value)) : MemWorld :=
  mkWorld (storeOf l) [].

(** The entries of the store of a world. *)
Definition contents (w : MemWorld) : list (Key * Value) := kvs (txn w).

(** A table with a name column and a unique index on it. *)
Definition iName : IndexInfo :=
  mkIndexInfo 1 "idx_name" [mkIndexColumn "c1" 0] true false StatePublic.
Definition tName : @Table MemEnv :=
  tableFromMeta 1 [column 1 0 StatePublic 0 None] [iName] false.

(** The same world with a transaction whose [Seek] reports an error. *)
Definition faultySeek (w : MemWorld) : MemWorld :=
  mkWorld (mkMemEnv (kvs (txn w)) (hint (txn w)) (lastID (txn w))
             (affected (txn w)) (Some errIO)) (bs w).

(** A PK-is-handle table: an unsigned key, an optional and a required
    column, and a column being added. *)
Definition cId : Column := column 1 0 StatePublic 34 None.
Definition cOpt : Column := column 2 1 StatePublic 0 None.
Definition cReq : Column := column 3 2 StatePublic 1 None.
Definition cNew : Column := column 4 3 StateWriteOnly 0 (Some (DInt64 0)).
Definition tRead : @Table MemEnv := tableFromMeta 2 [cId; cOpt; cReq; cNew] [] true.

(** A store with row 5 of [tName], named "a", and its index entry. *)
Definition namedA : MemWorld :=
  worldOf [("t1_r5_0", "txn"); ("t1_r5_1", "sa"); ("t1_i1_sa", "5")].

(** A table in the middle of a schema change: a column and an index are
    being added. *)
Definition cOld : Column := column 1 0 StatePublic 0 None.
Definition cAdded : Column := column 2 1 StateWriteOnly 0 (Some (DInt64 0)).
Definition iAdded : IndexInfo :=
  mkIndexInfo 1 "idx_c1" [mkIndexColumn "c1" 0] false false StateWriteOnly.
Definition tDDL : @Table MemEnv := tableFromMeta 3 [cOld; cAdded] [iAdded] false.

(** Row 9 of [tDDL], written before the schema change began. *)
Definition oldRow : MemWorld := worldOf [("t3_r9_0", "txn"); ("t3_r9_1", "i4")].

(** [namedA] once a handle was allocated for a second row. *)
Definition namedA1 : MemWorld := mkWorld (snd (alloc 1 (txn namedA))) [].

(** A store that holds row 5 of the PK-is-handle table [tRead]. *)
Definition keyed5 : MemWorld :=
  worldOf [("t2_r5_0", "txn"); ("t2_r5_3", "i1")].

(** [tDDL] without its index, the column being added stamped on update. *)
Definition cStamp : Column :=
  column 2 1 StateWriteOnly OnUpdateNowFlag (Some (DString "then")).
Definition tStamp : @Table MemEnv := tableFromMeta 3 [cOld; cStamp] [] false.

(** [tName] with a second column. *)
Definition tTwo : @Table MemEnv :=
  tableFromMeta 1 [column 1 0 StatePublic 0 None; column 2 1 StatePublic 0 None]
    [iName] false.

(** The value under each key of a store. *)
Definition memView (e : MemEnv) (k : Key) : option Value := lookupKv k (kvs e).

(** A table with two columns and an index on each. *)
Definition iFirst : IndexInfo :=
  mkIndexInfo 1 "idx_c1" [mkIndexColumn "c1" 0] true false StatePublic.
Definition iSecond : IndexInfo :=
  mkIndexInfo 2 "idx_c2" [mkIndexColumn "c2" 1] false false StatePublic.
Definition tPair : @Table MemEnv :=
  tableFromMeta 4 [column 1 0 StatePublic 0 None; column 2 1 StatePublic 0 None]
    [iFirst; iSecond] false.

(** Row 5 of [tPair] with its two index entries. *)
Definition pairRow : MemWorld :=
  worldOf [("t4_r5_0", "txn"); ("t4_r5_1", "sa"); ("t4_r5_2", "i7");
           ("t4_i1_sa", "5"); ("t4_i2_i7_h5", "0")].

(** The keys of the entries of the second index of [tPair]. *)
Definition secondKeys (k : Key) : Prop := HasPrefix k "t4_i2" = true.


(** Row 5 of [tName] without its index entry. *)
Definition oneRow : MemWorld := worldOf [("t1_r5_0", "txn"); ("t1_r5_1", "sa")].

End Mem.

(** ** Building a table, finding an index *)

(** [model.TableInfo] as [TableFromMeta] reads it.  ([Table.meta] keeps of
    it what the row operations read, [PKIsHandle]; [TblName] is the name as
    [%s] prints it.) *)
Record ModelTableInfo := mkModelTableInfo {
  TblID : Z;
  TblName : string;
  TblState : SchemaState;
  TblColumns : list Column;
  TblIndices : list IndexInfo;
  TblPKIsHandle : bool
}.

Section Construction.
Context {Env : Type} {K : Collaborators Env}.

(** [NewIndex], and the error terms of package [table]. *)
Variable NewIndex : ModelTableInfo -> IndexInfo -> @Index Env.
Variables ErrTableStateCantNone ErrColumnStateCantNone
          ErrIndexStateCantNone : Err.

(** The column loop of [TableFromMeta]; [columns] is the slice built so
    far. *)
Fixpoint fromMetaCols (infos : list Column) (columns : list Column)
    : list Column * error :=
  match infos with
  | [] => (columns, None)
  | colInfo :: rest =>
    if is_state (State colInfo) StateNone
    then ([], Some (Gen ErrColumnStateCantNone
                      ("column " ++ ColName colInfo
                       ++ " can't be in none state")))
    else fromMetaCols rest (columns ++ [colInfo])
  end.

(** The index loop of [TableFromMeta]. *)
Fixpoint fromMetaIdxs (tblInfo : ModelTableInfo) (infos : list IndexInfo)
    (t : @Table Env) : option (@Table Env) * error :=
  match infos with
  | [] => (Some t, None)
  | idxInfo :: rest =>
    if is_state (IdxState idxInfo) StateNone
    then (None, Some (Gen ErrIndexStateCantNone
                        ("index " ++ IdxName idxInfo
                         ++ " can't be in none state")))
    else
      let idx := NewIndex tblInfo idxInfo in
      fromMetaIdxs tblInfo rest (setIndices t (indices t ++ [idx]))
  end.

(** [TableFromMeta].  The table is built with the [meta] the function sets
    last: nothing reads it in between. *)
Definition TableFromMeta (tblInfo : ModelTableInfo)
    : option (@Table Env) * error :=
  if is_state (TblState tblInfo) StateNone
  then (None, Some (Gen ErrTableStateCantNone
                      ("table " ++ TblName tblInfo
                       ++ " can't be in none state")))
  else
    let '(columns, err) := fromMetaCols (TblColumns tblInfo) [] in
    match err with
    | Some _ => (None, err)
    | None =>
      let t := newTable (TblID tblInfo) columns []
                 (mkTableInfo (TblPKIsHandle tblInfo)) in
      fromMetaIdxs tblInfo (TblIndices tblInfo) t
    end.

(** [strings.EqualFold]. *)
Variable EqualFold : string -> string -> bool.

(** The test of the loop of [FindIndexByColName] on one index; [IcName] is
    the lower-case form of the column name. *)
Definition readableOn (name : string) (info : IndexInfo) : bool :=
  bool_decide (length (IdxColumns info) = 1%nat)
  && match IdxColumns info with
     | c :: _ => EqualFold (IcName c) name
     | [] => false
     end.

Fixpoint findIndex (idxs : list (@Index Env)) (name : string)
    : option (@Index Env) :=
  match idxs with
  | [] => None
  | idx :: rest =>
    if negb (is_state (IdxState (Meta idx)) StatePublic)
    then findIndex rest name
    else if readableOn name (Meta idx) then Some idx
    else findIndex rest name
  end.

(** [FindIndexByColName]; [None] is the [nil] index. *)
Definition FindIndexByColName (t : @Table Env) (name : string)
    : option (@Index Env) :=
  findIndex (indices t) name.

(** *** What the removal of a row assumes of an implementation *)

Variable view : Env -> Key -> option Value.

(** A delete refused with key-not-found: the key was not there, and the
    store is as it was. *)
Definition DeleteMissLaw : Prop :=
  forall k e err e', txn_Delete k e = (Some err, e') ->
  ErrorEqual (Some err) kv_ErrNotExist = true ->
  view e k = None /\ forall k', view e' k' = view e k'.

(** An index whose [Delete], given the transaction, leaves the keys in [Q]
    as they are. *)
Definition IndexDeleteKeeps (Q : Key -> Prop) (idx : @Index Env) : Prop :=
  forall vals h w k, Q k ->
    view (txn (snd (Delete idx txnRM vals h w))) k = view (txn w) k.

End Construction.

(** ** The expression rewriter (package [plan])

    [Leave] and the functions it calls.  The rewriter keeps a stack of
    expressions: leaving a node takes the expressions of its operands from
    the top of the stack and puts the expression of the node there.  The
    syntax tree, its traversal ([Accept]) and the plan builder that [Enter]
    calls are outside the code modelled; what [Leave] calls of other
    packages is taken to return. *)
Module Rewriter.

(** [model.CIStr]. *)
Record CIStr := mkCIStr { O : string; L : string }.

(** [opcode.Op]: the operators the rewriter names, and any other. *)
Inductive Op :=
  | opcode_In | opcode_NotIn
  | opcode_Like | opcode_NotLike
  | opcode_Between | opcode_NotBetween
  | opcode_Null | opcode_NotNull
  | opcode_True | opcode_NotTrue
  | opcode_False | opcode_NotFalse
  | opcode_Other (code : Z).

(** A Go [error] of the rewriter: one made by [errors.New] or
    [errors.Errorf], or a coded one. *)
Inductive GoError :=
  | errors_New (msg : string)
  | terror (e : Err).

(** The nodes of package [ast] with the fields [Leave] reads: the type of
    the node, its [Not], [True], [Op], [Escape], [N], [Type], and the
    argument lists whose length is taken.  [OtherNode] is a node of any
    other type, with the name [%T] prints. *)
#[warnings="-register-all"]
Inductive Node :=
  | AggregateFuncExpr
  | FuncCallExpr (FnName : CIStr) (Args : list Node) (type : option FieldType)
  | ColumnName (Schema Table Name : CIStr)
  | ColumnNameExpr
  | ParenthesesExpr
  | WhenClause
  | SubqueryExpr
  | ExistsSubqueryExpr
  | ValueExpr (datum : Datum) (type : option FieldType)
  | IsNullExpr (not : bool) (type : option FieldType)
  | IsTruthExpr (true_ : Z) (not : bool) (type : option FieldType)
  | UnaryOperationExpr (op : Op) (type : option FieldType)
  | BetweenExpr (not : bool) (type : option FieldType)
  | PatternLikeExpr (not : bool) (escape : Z) (type : option FieldType)
  | PatternInExpr (not : bool) (list_ : list Node) (type : option FieldType)
  | PositionExpr (N : Z)
  | BinaryOperationExpr (op : Op) (type : option FieldType)
  | OtherNode (typeName : string).

(** [s[:n]] and [s[lo:hi]] on a slice; they panic out of range.  (The
    bound of Go is the capacity; the rewriter slices its stack at or below
    its length only.) *)
Definition sliceTo {A} (s : list A) (n : Z) : Res (list A) :=
  if (n <? 0) || (Z.of_nat (length s) <? n) then Panic
  else Done (take (Z.to_nat n) s).

Definition sliceFromTo {A} (s : list A) (lo hi : Z) : Res (list A) :=
  if (lo <? 0) || (hi <? lo) || (Z.of_nat (length s) <? hi) then Panic
  else Done (take (Z.to_nat (hi - lo)) (drop (Z.to_nat lo) s)).

(** [s[i], s[i+1], ...], [n] of them, read one by one. *)
Fixpoint readFrom {A} (s : list A) (i : Z) (n : nat) : Res (list A) :=
  match n with
  | 0%nat => Done []
  | S n' =>
    let* x := index s i in
    let* xs := readFrom s (i + 1) n' in
    Done (x :: xs)
  end.

Section Rewrite.
(** [*expression.Column] and [evaluator.BuiltinFunc]. *)
Variables SchemaColumn BuiltinFunc : Type.

(** [expression.Expression]: a constant, a scalar function or a column. *)
#[warnings="-register-all"]
Inductive Expression :=
  | Constant (Value : Datum) (RetType : option FieldType)
  | ScalarFunction (FuncName : CIStr) (Args : list Expression)
      (Function : option BuiltinFunc) (RetType : option FieldType)
  | ColumnExpr (col : SchemaColumn).

(** [evaluator.Func], an entry of [evaluator.Funcs]. *)
Record Func := mkFunc { F : BuiltinFunc; MinArgs : Z; MaxArgs : Z }.

(** [expression.NewFunction], [evaluator.Funcs], [Schema.FindColumn] (a
    [nil] column is [None]) and [evaluator.ErrInvalidOperation]. *)
Variable NewFunction :
  Op -> list Expression -> option FieldType -> Expression * option GoError.
Variable Funcs : string -> option Func.
Variable FindColumn :
  list SchemaColumn -> Node -> option SchemaColumn * option GoError.
Variable ErrInvalidOperation : Err.

(** [expressionRewriter], with the fields [Leave] reads or writes;
    [outerSchemas] is the one of the plan builder [b]. *)
Record expressionRewriter := mkRewriter {
  ctxStack : list Expression;
  schema : list SchemaColumn;
  err : option GoError;
  correlated : bool;
  outerSchemas : list (list SchemaColumn)
}.

Definition withStack (s : list Expression) (er : expressionRewriter) :=
  mkRewriter s (schema er) (err er) (correlated er) (outerSchemas er).

Definition withErr (e : option GoError) (er : expressionRewriter) :=
  mkRewriter (ctxStack er) (schema er) e (correlated er) (outerSchemas er).

Definition withCorrelated (c : bool) (er : expressionRewriter) :=
  mkRewriter (ctxStack er) (schema er) (err er) c (outerSchemas er).

Definition len {A} (s : list A) : Z := Z.of_nat (length s).

Definition intToExprConstant (v : Z) : Expression :=
  Constant (DInt64 v) None.

(** [inToScalarFunc].  (The arguments handed to [NewFunction] are a part of
    the stack itself, [ctxStack[sLen-lLen-1:sLen]], not a copy.) *)
Definition inToScalarFunc (not : bool) (list_ : list Node)
    (type : option FieldType) (er : expressionRewriter)
    : Res expressionRewriter :=
  let sLen := len (ctxStack er) in
  let lLen := len list_ in
  let op := if not then opcode_NotIn else opcode_In in
  let* args := sliceFromTo (ctxStack er) (sLen - lLen - 1) sLen in
  let '(function, e) := NewFunction op args type in
  match e with
  | Some _ => Done (withErr e er)
  | None =>
    let* stack := sliceTo (ctxStack er) (sLen - lLen - 1) in
    Done (withStack (stack ++ [function]) er)
  end.

Definition likeToScalarFunc (not : bool) (escape : Z)
    (type : option FieldType) (er : expressionRewriter)
    : Res expressionRewriter :=
  let l := len (ctxStack er) in
  let op := if not then opcode_NotLike else opcode_Like in
  let* a := index (ctxStack er) (l - 2) in
  let* b := index (ctxStack er) (l - 1) in
  let '(function, e) := NewFunction op [a; b; intToExprConstant escape] type in
  match e with
  | Some _ => Done (withErr e er)
  | None =>
    let* stack := sliceTo (ctxStack er) (l - 2) in
    Done (withStack (stack ++ [function]) er)
  end.

Definition betweenToScalarFunc (not : bool) (type : option FieldType)
    (er : expressionRewriter) : Res expressionRewriter :=
  let l := len (ctxStack er) in
  let retOp := if not then opcode_NotBetween else opcode_Between in
  let* a := index (ctxStack er) (l - 3) in
  let* b := index (ctxStack er) (l - 2) in
  let* c := index (ctxStack er) (l - 1) in
  let '(function, e) := NewFunction retOp [a; b; c] type in
  match e with
  | Some _ => Done (withErr e er)
  | None =>
    let* stack := sliceTo (ctxStack er) (l - 3) in
    Done (withStack (stack ++ [function]) er)
  end.

Definition funcCallToScalarFunc (FnName : CIStr) (Args : list Node)
    (type : option FieldType) (er : expressionRewriter)
    : Res expressionRewriter :=
  let l := len (ctxStack er) in
  let* args := readFrom (ctxStack er) (l - len Args) (length Args) in
  match Funcs (L FnName) with
  | None => Done (withErr (Some (errors_New "Can't find function!")) er)
  | Some f =>
    if (len args <? MinArgs f)
       || (negb (MaxArgs f =? -1) && (MaxArgs f <? len args))
    then
      Done (withErr
              (Some (terror
                 (Gen ErrInvalidOperation
                    ("number of function arguments must in ["
                     ++ itoa (MinArgs f) ++ ", " ++ itoa (MaxArgs f)
                     ++ "].")%string)))
              er)
    else
      let function := ScalarFunction FnName args (Some (F f)) type in
      let* stack := sliceTo (ctxStack er) (l - len Args) in
      Done (withStack (stack ++ [function]) er)
  end.

(** The loop of [toColumn] over the outer schemas, the last one first;
    [outers] is what is left of them, in the order of the loop. *)
Fixpoint findOuter (outers : list (list SchemaColumn)) (v : Node)
    : option SchemaColumn * option GoError :=
  match outers with
  | [] => (None, None)
  | outer :: rest =>
    let '(column, e) := FindColumn outer v in
    match e with
    | Some _ => (None, e)
    | None =>
      match column with
      | Some _ => (column, None)
      | None => findOuter rest v
      end
    end
  end.

(** [toColumn]; [v] is a [ColumnName] node. *)
Definition toColumn (v : Node) (er : expressionRewriter) : expressionRewriter :=
  let '(column, e) := FindColumn (schema er) v in
  match e with
  | Some _ => withErr e er
  | None =>
    match column with
    | Some c => withStack (ctxStack er ++ [ColumnExpr c]) er
    | None =>
      let '(column, e) := findOuter (rev (outerSchemas er)) v in
      match e with
      | Some _ => withErr e er
      | None =>
        match column with
        | Some c =>
          let er := withCorrelated true er in
          withStack (ctxStack er ++ [ColumnExpr c]) er
        | None =>
          let name :=
            match v with
            | ColumnName Schema Table Name =>
              (L Schema ++ " " ++ L Table ++ " " ++ L Name)%string
            | _ => ""
            end in
          withErr (Some (errors_New ("Unknown column " ++ name ++ ".")%string)) er
        end
      end
    end
  end.

(** The operator and type [toOneArgScalarFunc] picks for a node; for a node
    of another type they keep their zero values. *)
Definition oneArgOp (n : Node) : Op * option FieldType :=
  match n with
  | IsNullExpr not type =>
    (if not then opcode_NotNull else opcode_Null, type)
  | IsTruthExpr true_ not type =>
    (if (true_ =? 1) && not then opcode_NotTrue
     else if (true_ =? 0) && negb not then opcode_False
     else if (true_ =? 0) && not then opcode_NotFalse
     else opcode_True, type)
  | UnaryOperationExpr op type => (op, type)
  | _ => (opcode_Other 0, None)
  end.

Definition toOneArgScalarFunc (n : Node) (er : expressionRewriter)
    : Res expressionRewriter :=
  let l := len (ctxStack er) in
  let '(retOp, retType) := oneArgOp n in
  let* a := index (ctxStack er) (l - 1) in
  let '(function, e) := NewFunction retOp [a] retType in
  match e with
  | Some _ => Done (withErr e er)
  | None =>
    let* stack := sliceTo (ctxStack er) (l - 1) in
    Done (withStack (stack ++ [function]) er)
  end.

(** [Leave]: the rewriter it leaves, the node it returns ([None] is [nil])
    and its [ok]. *)
Definition Leave (inNode : Node) (er : expressionRewriter)
    : Res (expressionRewriter * (option Node * bool)) :=
  match err er with
  | Some _ => Done (er, (None, false))
  | None =>
    let* er :=
      match inNode with
      | AggregateFuncExpr => Done er
      | FuncCallExpr FnName Args type =>
        funcCallToScalarFunc FnName Args type er
      | ColumnName _ _ _ => Done (toColumn inNode er)
      | ColumnNameExpr | ParenthesesExpr | WhenClause | SubqueryExpr
      | ExistsSubqueryExpr => Done er
      | ValueExpr datum type =>
        Done (withStack (ctxStack er ++ [Constant datum type]) er)
      | IsNullExpr _ _ | IsTruthExpr _ _ _ | UnaryOperationExpr _ _ =>
        toOneArgScalarFunc inNode er
      | BetweenExpr not type => betweenToScalarFunc not type er
      | PatternLikeExpr not escape type => likeToScalarFunc not escape type er
      | PatternInExpr not list_ type => inToScalarFunc not list_ type er
      | PositionExpr N =>
        if (0 <? N) && (N <=? len (schema er)) then
          let* col := index (schema er) (N - 1) in
          Done (withStack (ctxStack er ++ [ColumnExpr col]) er)
        else
          Done (withErr
                  (Some (errors_New
                           ("Position " ++ itoa N
                            ++ " is out of range")%string)) er)
      | BinaryOperationExpr op type =>
        let l := len (ctxStack er) in
        let* a := index (ctxStack er) (l - 2) in
        let* b := index (ctxStack er) (l - 1) in
        let '(function, e) := NewFunction op [a; b] type in
        match e with
        | Some _ => Done (withErr e er)
        | None =>
          let* stack := sliceTo (ctxStack er) (l - 2) in
          Done (withStack (stack ++ [function]) er)
        end
      | OtherNode typeName =>
        Done (withErr (Some (errors_New ("UnknownType: " ++ typeName)%string))
                er)
      end in
    match err er with
    | Some _ => Done (er, (None, false))
    | None => Done (er, (Some inNode, true))
    end
  end.

End Rewrite.

(** The number of expressions a node takes from the stack when it is left,
    and the number it puts there. *)
Definition operands (n : Node) : nat :=
  match n with
  | FuncCallExpr _ Args _ => length Args
  | IsNullExpr _ _ | IsTruthExpr _ _ _ | UnaryOperationExpr _ _ => 1
  | BetweenExpr _ _ => 3
  | PatternLikeExpr _ _ _ => 2
  | PatternInExpr _ list_ _ => S (length list_)
  | BinaryOperationExpr _ _ => 2
  | _ => 0
  end.

Definition results (n : Node) : nat :=
  match n with
  | AggregateFuncExpr | ColumnNameExpr | ParenthesesExpr | WhenClause
  | SubqueryExpr | ExistsSubqueryExpr => 0
  | _ => 1
  end.

(** What a step of the rewriter that takes [k] expressions leaves: the
    schemas, and either an error with the stack as it was, or the stack
    with [k] expressions taken from its top and one put there. *)
Definition Stepped {SchemaColumn BuiltinFunc : Type} (k : nat)
    (er er' : expressionRewriter SchemaColumn BuiltinFunc) : Prop :=
  schema _ _ er' = schema _ _ er
  /\ outerSchemas _ _ er' = outerSchemas _ _ er
  /\ match err _ _ er' with
     | Some _ => ctxStack _ _ er' = ctxStack _ _ er
     | None =>
       exists rest args top,
         ctxStack _ _ er = rest ++ args /\ length args = k
         /\ ctxStack _ _ er' = rest ++ [top]
     end.

End Rewriter.

(** ** More inputs over the store of [Mem] *)
Module Inputs.
Import Mem.
Local Open Scope string_scope.
Local Open Scope Z_scope.

(** Rows 5 and 6 of [tName], named "a" and "b", with their index entries. *)
Definition namedAB : MemWorld :=
  worldOf [("t1_r5_0", "txn"); ("t1_r5_1", "sa"); ("t1_i1_sa", "5");
           ("t1_r6_0", "txn"); ("t1_r6_1", "sb"); ("t1_i1_sb", "6")].

(** [tName] while its index is being dropped. *)
Definition iGone : IndexInfo :=
  mkIndexInfo 1 "idx_name" [mkIndexColumn "c1" 0] true false StateDeleteOnly.
Definition tGone : @Table MemEnv :=
  tableFromMeta 1 [column 1 0 StatePublic 0 None] [iGone] false.

(** The index of [tGone] with a [Create] that always fails. *)
Definition idxGoneFailing : @Index MemEnv :=
  {| Meta := iGone;
     FetchValues := fun r => fetch r (IdxColumns iGone);
     Create := fun _ _ _ w => (Some errIO, w);
     Delete := delete (genTableIndexPrefix 1) iGone;
     Seek := seekIdx (genTableIndexPrefix 1) iGone |}.

(** A catalog entry for [tPair], with [NewIndex] the index of [Mem], and
    the error terms of package [table]. *)
Definition newMemIndex (tblInfo : ModelTableInfo) (info : IndexInfo)
    : @Index MemEnv :=
  memIndex (genTableIndexPrefix (TblID tblInfo)) info.

Definition errTableNone : Err := mkErr (CodeOther 11) "table state can't be none".
Definition errColumnNone : Err := mkErr (CodeOther 12) "column state can't be none".
Definition errIndexNone : Err := mkErr (CodeOther 13) "index state can't be none".

Definition pairInfo : ModelTableInfo :=
  mkModelTableInfo 4 "pair" StatePublic
    [column 1 0 StatePublic 0 None; column 2 1 StatePublic 0 None]
    [iFirst; iSecond] false.

(** [strings.EqualFold] on names in ASCII. *)
Definition lowerAscii (a : ascii) : ascii :=
  let n := nat_of_ascii a in
  if ((65 <=? n) && (n <=? 90))%nat then ascii_of_nat (n + 32) else a.

Fixpoint lower (s : string) : string :=
  match s with
  | EmptyString => EmptyString
  | String a s' => String (lowerAscii a) (lower s')
  end.

Definition eqFold (a b : string) : bool := String.eqb (lower a) (lower b).

(** What the rewriter calls, for expressions over columns that are names
    and built-in functions that are numbers: [NewFunction] refuses the
    operator 0, two functions are registered, and a column is found by its
    lower-case name. *)
Definition rwNewFunction (op : Rewriter.Op)
    (args : list (Rewriter.Expression string Z)) (tp : option FieldType)
    : Rewriter.Expression string Z * option Rewriter.GoError :=
  match op with
  | Rewriter.opcode_Other 0 =>
    (Rewriter.Constant _ _ DNull None,
     Some (Rewriter.errors_New "unknown operator"))
  | _ =>
    (Rewriter.ScalarFunction _ _ (Rewriter.mkCIStr "" "") args None tp, None)
  end.

Definition rwFuncs (name : string) : option (Rewriter.Func Z) :=
  if String.eqb name "length" then Some (Rewriter.mkFunc _ 1 1 1)
  else if String.eqb name "concat" then Some (Rewriter.mkFunc _ 2 1 (-1))
  else None.

Definition rwFindColumn (schema : list string) (v : Rewriter.Node)
    : option string * option Rewriter.GoError :=
  match v with
  | Rewriter.ColumnName _ _ Name =>
    (List.find (String.eqb (Rewriter.L Name)) schema, None)
  | _ => (None, None)
  end.

Definition rwErrInvalidOperation : Err :=
  mkErr (CodeOther 20) "invalid operation".

(** A rewriter with three constants on its stack, and one inside two
    subqueries. *)
Definition threeConstants : Rewriter.expressionRewriter string Z :=
  Rewriter.mkRewriter _ _
    [Rewriter.Constant _ _ (DInt64 1) None;
     Rewriter.Constant _ _ (DInt64 2) None;
     Rewriter.Constant _ _ (DInt64 3) None]
    ["a"] None false [].

Definition nested : Rewriter.expressionRewriter string Z :=
  Rewriter.mkRewriter _ _ [] ["a"] None false [["b"; "c"]; ["b"]].

End Inputs.

(** ** Properties of the table code, for every implementation of the
    collaborators *)
Section Properties.
Context {Env : Type} {K : Collaborators Env}.

(** C10.  [Table.Seek] never reads the error of the transaction's [Seek]:
    in two states in which [txn.Seek] hands back the same iterator, whatever
    errors it reports with it, [Table.Seek] returns the same result (and
    with a [nil] iterator it panics, as the iterator is used unchecked). *)
Theorem Seek_drops_seek_error (t : Table) (h : Z) (w1 w2 : World) :
  GetTxn (txn w1) = None ->
  GetTxn (txn w2) = None ->
  fst (txn_Seek (EncodeColumnKey (TableID t) h 0) (txn w1))
  = fst (txn_Seek (EncodeColumnKey (TableID t) h 0) (txn w2)) ->
  TableSeek t h w1 = TableSeek t h w2.
Proof.
  intros H1 H2 Hit. unfold TableSeek. rewrite H1, H2.
  destruct (txn_Seek _ (txn w1)) as [it1 e1].
  destruct (txn_Seek _ (txn w2)) as [it2 e2].
  simpl in Hit. subst it2. reflexivity.
Qed.

(** C9.  [addIndices] defers [txn.DelOption(kv.PresumeKeyNotExistsError)]
    as soon as it holds the transaction, so whatever it returns (no error, a
    duplicate-key error or any other error) the hint is cleared in the state
    it leaves.  [Hint] is any reading of the transaction's hint that
    [DelOption] clears. *)
Theorem addIndices_clears_hint (Hint : Env -> option Err)
    (t : Table) (recordID : Z) (r : list Datum) (w w' : World)
    (res : Z * error) :
  (forall e, Hint (txn_DelOption PresumeKeyNotExistsError e) = None) ->
  GetTxn (txn w) = None ->
  addIndices t recordID r w = Done (res, w') ->
  Hint (txn w') = None.
Proof.
  intros Hclear Htxn Hrun. unfold addIndices in Hrun. rewrite Htxn in Hrun.
  destruct (checkHandle t recordID w) as [[ret|] w1].
  - simpl in Hrun. inversion Hrun; subst. apply Hclear.
  - destruct (addIdxs recordID r (indices t) w1) as [[ret w2]|];
      simpl in Hrun; [|discriminate].
    inversion Hrun; subst. apply Hclear.
Qed.

Lemma is_state_eq s1 s2 : s1 = s2 -> is_state s1 s2 = true.
Proof. intros. apply bool_decide_eq_true_2. assumption. Qed.

Lemma is_state_ne s1 s2 : s1 <> s2 -> is_state s1 s2 = false.
Proof. intros. apply bool_decide_eq_false_2. assumption. Qed.

(** *** RowWithCols *)

Lemma rowCols_err_nil t h cols e v err :
  rowCols t h cols e = (v, Some err) -> v = [].
Proof.
  destruct cols as [|[col|] rest]; simpl; [discriminate| |].
  - destruct (negb _); [intros [= <- _]; reflexivity|].
    destruct (if IsPKHandleColumn col (meta t) then _ else _) as [vi [e1|]];
      [intros [= <- _]; reflexivity|].
    destruct (rowCols t h rest e) as [v' [e2|]]; intros [= <- _]; reflexivity.
  - destruct (rowCols t h rest e) as [v' [e2|]]; intros [= <- _]; reflexivity.
Qed.

Lemma rowCols_app t h pre post e :
  rowCols t h (pre ++ post) e =
  match rowCols t h pre e with
  | (v1, None) =>
    match rowCols t h post e with
    | (v2, None) => (v1 ++ v2, None)
    | (_, Some err) => ([], Some err)
    end
  | (_, Some err) => ([], Some err)
  end.
Proof.
  induction pre as [|[col|] pre IH]; simpl.
  - destruct (rowCols t h post e) as [v2 [err|]] eqn:E; [|reflexivity].
    apply rowCols_err_nil in E. subst. reflexivity.
  - destruct (negb _); [reflexivity|].
    destruct (if IsPKHandleColumn col (meta t) then _ else _) as [vi [e1|]];
      [reflexivity|].
    rewrite IH. destruct (rowCols t h pre e) as [v1 [e2|]]; [reflexivity|].
    destruct (rowCols t h post e) as [v2 [e3|]]; reflexivity.
  - rewrite IH. destruct (rowCols t h pre e) as [v1 [e2|]]; [reflexivity|].
    destruct (rowCols t h post e) as [v2 [e3|]]; reflexivity.
Qed.

Lemma rowCols_length t h cols e v :
  rowCols t h cols e = (v, None) -> length v = length cols.
Proof.
  revert v. induction cols as [|[col|] rest IH]; simpl; intros v.
  - intros [= <-]. reflexivity.
  - destruct (negb _); [discriminate|].
    destruct (if IsPKHandleColumn col (meta t) then _ else _) as [vi [e1|]];
      [discriminate|].
    destruct (rowCols t h rest e) as [v' [e2|]]; [discriminate|].
    intros [= <-]. simpl. f_equal. apply IH. reflexivity.
  - destruct (rowCols t h rest e) as [v' [e2|]]; [discriminate|].
    intros [= <-]. simpl. f_equal. apply IH. reflexivity.
Qed.

(** The row read when the columns before position [i] were read into [v1]:
    the outcome is that of the column at [i] followed by the rest. *)
Lemma rowCols_at t h cols i col e :
  cols !! i = Some col ->
  rowCols t h cols e =
  match rowCols t h (take i cols) e with
  | (v1, None) =>
    match rowCols t h (col :: drop (S i) cols) e with
    | (v2, None) => (v1 ++ v2, None)
    | (_, Some err) => ([], Some err)
    end
  | (_, Some err) => ([], Some err)
  end.
Proof.
  intros Hi. rewrite <- rowCols_app.
  rewrite <- (take_drop_middle cols i col Hi) at 1. reflexivity.
Qed.

(** C6.  For the column at position [i] of the request, once the columns
    before it were read without error: a column that is not Public stops the
    read with [ErrColumnStateNonPublic]; a PK-is-handle column yields the
    handle, as an unsigned datum when the column is unsigned and as a signed
    one otherwise, whatever the store holds (asked for alone it is read
    from any store); a record key the store reports missing is the error of
    the read when the column is not-null, and the null value otherwise. *)
Theorem RowWithCols_column (t : Table) (h : Z) (cols : list (option Column))
    (i : nat) (col : Column) (w : World) :
  cols !! i = Some (Some col) ->
  GetTxn (txn w) = None ->
  snd (rowCols t h (take i cols) (txn w)) = None ->
  let missing :=
    ErrorEqual (snd (txn_Get (RecordKey t h (Some col)) (txn w))) kv_ErrNotExist in
  (State col <> StatePublic ->
     ErrorEqual (snd (RowWithCols t h cols w)) table_ErrColumnStateNonPublic = true)
  /\ (State col = StatePublic -> IsPKHandleColumn col (meta t) = true ->
      RowWithCols t h [Some col] w = ([handleDatum col h], None)
      /\ forall v, RowWithCols t h cols w = (v, None) ->
                   v !! i = Some (handleDatum col h))
  /\ (State col = StatePublic -> IsPKHandleColumn col (meta t) = false ->
      missing = true -> HasNotNullFlag (Flag col) = true ->
      RowWithCols t h cols w
      = ([], snd (txn_Get (RecordKey t h (Some col)) (txn w))))
  /\ (State col = StatePublic -> IsPKHandleColumn col (meta t) = false ->
      missing = true -> HasNotNullFlag (Flag col) = false ->
      RowWithCols t h [Some col] w = ([DNull], None)
      /\ forall v, RowWithCols t h cols w = (v, None) -> v !! i = Some DNull).
Proof.
  intros Hi Htxn Hpre missing. unfold RowWithCols. rewrite Htxn.
  rewrite (rowCols_at t h cols i (Some col) (txn w) Hi).
  destruct (rowCols t h (take i cols) (txn w)) as [v1 e1] eqn:E1.
  simpl in Hpre. subst e1.
  assert (Hlen : length v1 = i).
  { apply rowCols_length in E1. rewrite E1, length_take.
    apply lookup_lt_Some in Hi. lia. }
  assert (Hat : forall x v2, (v1 ++ x :: v2) !! i = Some x).
  { intros x v2. rewrite lookup_app_r by lia.
    replace (i - length v1)%nat with 0%nat by lia. reflexivity. }
  simpl rowCols.
  split; [|split; [|split]].
  - (* not Public *)
    intros Hst. rewrite (is_state_ne _ _ Hst). reflexivity.
  - (* the handle column *)
    intros Hst Hpk. rewrite (is_state_eq _ _ Hst). simpl negb. cbv iota.
    rewrite Hpk. unfold handleDatum. split.
    + destruct (HasUnsignedFlag (Flag col)); reflexivity.
    + intros v.
      destruct (HasUnsignedFlag (Flag col));
        destruct (rowCols t h (drop (S i) cols) (txn w)) as [v2 [e2|]];
        intros [= <-]; apply Hat.
  - (* a missing key, not-null column *)
    intros Hst Hpk Hmiss Hnn. rewrite (is_state_eq _ _ Hst).
    simpl negb. cbv iota. rewrite Hpk. unfold missing in Hmiss.
    destruct (txn_Get (RecordKey t h (Some col)) (txn w)) as [data err].
    simpl in Hmiss |- *. rewrite Hmiss, Hnn. simpl.
    destruct err as [err|]; [reflexivity|discriminate].
  - (* a missing key, nullable column *)
    intros Hst Hpk Hmiss Hnn. rewrite (is_state_eq _ _ Hst).
    simpl negb. cbv iota. rewrite Hpk. unfold missing in Hmiss.
    destruct (txn_Get (RecordKey t h (Some col)) (txn w)) as [data err].
    simpl in Hmiss. rewrite Hmiss, Hnn. simpl. split; [reflexivity|].
    intros v.
    destruct (rowCols t h (drop (S i) cols) (txn w)) as [v2 [e2|]];
      intros [= <-]; apply Hat.
Qed.

(** *** RemoveRecord *)

Lemma removeCols_app t h pre post e :
  removeCols t h (pre ++ post) e =
  match removeCols t h pre e with
  | (None, e1) => removeCols t h post e1
  | (Some err, e1) => (Some err, e1)
  end.
Proof.
  revert e. induction pre as [|col pre IH]; intros e; simpl; [reflexivity|].
  destruct (txn_Delete (RecordKey t h (Some col)) e) as [[err|] e1];
    [|apply IH].
  destruct (negb _ && _); [apply IH|reflexivity].
Qed.

Lemma removeIdxs_app h rec pre post w :
  removeIdxs h rec (pre ++ post) w =
  match removeIdxs h rec pre w with
  | (None, w1) => removeIdxs h rec post w1
  | (Some err, w1) => (Some err, w1)
  end.
Proof.
  revert w. induction pre as [|v pre IH]; intros w; simpl; [reflexivity|].
  destruct (FetchValues v rec) as [[vals|] ferr]; [|apply IH].
  destruct (GetTxn (txn w)); [reflexivity|].
  destruct (Delete v txnRM (Some vals) h w) as [[err|] w1]; [|apply IH].
  destruct (negb _ && _); [apply IH|reflexivity].
Qed.

(** The column loop of [removeRowData] at a column whose record key the
    transaction reports missing, the columns before it having been
    deleted. *)
Lemma removeCols_not_found t h pre col post e e1 e2 err :
  removeCols t h pre e = (None, e1) ->
  txn_Delete (RecordKey t h (Some col)) e1 = (Some err, e2) ->
  ErrorEqual (Some err) kv_ErrNotExist = true ->
  removeCols t h (pre ++ col :: post) e =
  if is_state (State col) StatePublic then (Some err, e2)
  else removeCols t h post e2.
Proof.
  intros Hpre Hdel Hne. rewrite removeCols_app, Hpre. simpl.
  rewrite Hdel, Hne. destruct (is_state (State col) StatePublic); reflexivity.
Qed.

Lemma removeIdxs_not_found h rec pre v post w w2 w3 vals err :
  removeIdxs h rec pre w = (None, w2) ->
  fst (FetchValues v rec) = Some vals ->
  GetTxn (txn w2) = None ->
  Delete v txnRM (Some vals) h w2 = (Some err, w3) ->
  ErrorEqual (Some err) kv_ErrNotExist = true ->
  removeIdxs h rec (pre ++ v :: post) w =
  if is_state (IdxState (Meta v)) StatePublic then (Some err, w3)
  else removeIdxs h rec post w3.
Proof.
  intros Hpre Hvals Htxn Hdel Hne. rewrite removeIdxs_app, Hpre. simpl.
  destruct (FetchValues v rec) as [vs ferr]. simpl in Hvals. subst vs.
  rewrite Htxn, Hdel, Hne.
  destruct (is_state (IdxState (Meta v)) StatePublic); reflexivity.
Qed.

Lemma RemoveRecord_indices t h r w w1 :
  removeRowData t h w = (None, w1) ->
  RemoveRecord t h r w = removeIdxs h r (indices t) w1.
Proof.
  intros Hdata. unfold RemoveRecord, removeRowIndices. rewrite Hdata.
  destruct (removeIdxs h r (indices t) w1) as [[err|] w2]; reflexivity.
Qed.

(** C5.  [RemoveRecord] at a key the transaction reports missing.
    Columns: when the delete of the record key of [col] answers key-not-found
    (the columns before it deleted), a column that is not Public is skipped
    (the loop goes on with the columns after it, and [RemoveRecord] succeeds
    when the rest of it does), and a Public column makes [RemoveRecord]
    return that error.  Indices: the same for the delete of the entry of an
    index [v], by the state of the index. *)
Theorem RemoveRecord_key_not_found :
  (forall (t : Table) (h : Z) (r : list Datum) (w w0 : World)
          (pre post : list Column) (col : Column) (e1 e2 : Env) (err : Err),
     LockRow t h false w = (None, w0) ->
     GetTxn (txn w0) = None ->
     Columns t = pre ++ col :: post ->
     removeCols t h pre (txn w0) = (None, e1) ->
     txn_Delete (RecordKey t h (Some col)) e1 = (Some err, e2) ->
     ErrorEqual (Some err) kv_ErrNotExist = true ->
     (State col <> StatePublic ->
        removeCols t h (Columns t) (txn w0) = removeCols t h post e2
        /\ forall e3 e4 w5,
             removeCols t h post e2 = (None, e3) ->
             txn_Delete (RecordKey t h None) e3 = (None, e4) ->
             removeRowIndices t h r (mkWorld e4 (bs w0)) = (None, w5) ->
             RemoveRecord t h r w = (None, w5))
     /\ (State col = StatePublic ->
         RemoveRecord t h r w = (Some err, mkWorld e2 (bs w0))))
  /\
  (forall (t : Table) (h : Z) (r : list Datum) (w w1 w2 w3 : World)
          (pre post : list Index) (v : Index) (vals : list Datum) (err : Err),
     removeRowData t h w = (None, w1) ->
     indices t = pre ++ v :: post ->
     removeIdxs h r pre w1 = (None, w2) ->
     fst (FetchValues v r) = Some vals ->
     GetTxn (txn w2) = None ->
     Delete v txnRM (Some vals) h w2 = (Some err, w3) ->
     ErrorEqual (Some err) kv_ErrNotExist = true ->
     (IdxState (Meta v) <> StatePublic ->
        RemoveRecord t h r w = removeIdxs h r post w3)
     /\ (IdxState (Meta v) = StatePublic ->
         RemoveRecord t h r w = (Some err, w3))).
Proof.
  split.
  - intros t h r w w0 pre post col e1 e2 err Hlock Htxn Hcols Hpre Hdel Hne.
    pose proof (removeCols_not_found t h pre col post _ _ _ _ Hpre Hdel Hne)
      as Hloop.
    rewrite <- Hcols in Hloop.
    split; intros Hst.
    + rewrite (is_state_ne _ _ Hst) in Hloop. split; [exact Hloop|].
      intros e3 e4 w5 Hpost Hunlock Hidx.
      unfold RemoveRecord, removeRowData. rewrite Hlock, Htxn.
      unfold onTxnE. rewrite Hloop, Hpost. simpl. rewrite Hunlock.
      rewrite Hidx. reflexivity.
    + rewrite (is_state_eq _ _ Hst) in Hloop.
      unfold RemoveRecord, removeRowData. rewrite Hlock, Htxn.
      unfold onTxnE. rewrite Hloop. reflexivity.
  - intros t h r w w1 w2 w3 pre post v vals err
           Hdata Hidx Hpre Hvals Htxn Hdel Hne.
    rewrite (RemoveRecord_indices t h r w w1 Hdata), Hidx.
    rewrite (removeIdxs_not_found h r pre v post _ _ _ _ _
               Hpre Hvals Htxn Hdel Hne).
    split; intros Hst.
    + rewrite (is_state_ne _ _ Hst). reflexivity.
    + rewrite (is_state_eq _ _ Hst). reflexivity.
Qed.

(** *** AddRecord: duplicate keys *)

Lemma addIdxs_app recordID r pre post (w : World) :
  addIdxs recordID r (pre ++ post) w =
  match addIdxs recordID r pre w with
  | Done (None, w1) => addIdxs recordID r post w1
  | other => other
  end.
Proof.
  revert w. induction pre as [|v pre IH]; intros w; simpl; [reflexivity|].
  destruct (_ || _); [apply IH|].
  destruct (FetchValues v r) as [colVals ferr].
  destruct (if Unique (Meta v) || Primary (Meta v) then _ else _)
    as [[[e1|] dup] w1]; [reflexivity|].
  destruct (Create v bsRM colVals recordID w1) as [[err|] w2]; [|apply IH].
  destruct (ErrorEqual (Some err) kv_ErrKeyExists); [|reflexivity].
  destruct (Seek v bsRM colVals w2) as [[[it|] hit] [e2|]]; try reflexivity.
  destruct (iter_Next it) as [[vals h] [e3|]]; reflexivity.
Qed.

(** C3.  [AddRecord] on a duplicate key returns a duplicate-key error with
    the handle of the row already there.  On a PK-is-handle table whose
    record key for the new handle is found, the handle is the new row's own
    (the colliding one).  When [Create] of a unique or primary index [v]
    answers key-exists (the indices before it having been written), the
    handle is the one [Seek] on [v] at the same column values yields. *)
Theorem AddRecord_duplicate :
  (forall (t : Table) (r : list Datum) (w w0 : World) (recordID : Z),
     newRecordID t r w = Done ((recordID, None), w0) ->
     GetTxn (txn w0) = None ->
     PKIsHandle (meta t) = true ->
     snd (txn_Get (RecordKey t recordID None)
            (txn_SetOption PresumeKeyNotExistsError (dupHandle recordID) (txn w0)))
     = None ->
     ErrorEqual (Some (dupHandle recordID)) kv_ErrKeyExists = true
     /\ exists w', AddRecord t r w
                   = Done ((recordID, Some (dupHandle recordID)), w'))
  /\
  (forall (t : Table) (r : list Datum) (w w0 w1 w2 w4 : World) (recordID : Z)
          (pre post : list Index) (v : Index) (colVals : slice)
          (ferr : error) (entryKey : string) (err : Err)
          (it : IndexIterator) (hit : bool) (vals : list Datum) (h : Z),
     newRecordID t r w = Done ((recordID, None), w0) ->
     GetTxn (txn w0) = None ->
     checkHandle t recordID (NewBufferStore w0) = (None, w1) ->
     indices t = pre ++ v :: post ->
     addIdxs recordID r pre w1 = Done (None, w2) ->
     is_state (IdxState (Meta v)) StateDeleteOnly
     || is_state (IdxState (Meta v)) StateDeleteReorganization = false ->
     Unique (Meta v) || Primary (Meta v) = true ->
     FetchValues v r = (colVals, ferr) ->
     genIndexKeyStr colVals = (entryKey, None) ->
     Create v bsRM colVals recordID
       (SetOption PresumeKeyNotExistsError (dupEntry entryKey (Meta v)) w2)
     = (Some err, w4) ->
     ErrorEqual (Some err) kv_ErrKeyExists = true ->
     Seek v bsRM colVals w4 = (Some it, hit, None) ->
     iter_Next it = (vals, h, None) ->
     ErrorEqual (Some (dupEntry entryKey (Meta v))) kv_ErrKeyExists = true
     /\ AddRecord t r w
        = Done ((h, Some (dupEntry entryKey (Meta v))),
                Release (DelOption PresumeKeyNotExistsError w4))).
Proof.
  split.
  - intros t r w w0 recordID Hnew Htxn Hpk Hget.
    split; [reflexivity|].
    unfold AddRecord. rewrite Hnew. simpl. rewrite Htxn.
    unfold addStaged, addIndices. simpl. rewrite Htxn.
    unfold checkHandle. rewrite Hpk.
    unfold SetOption, onTxn. simpl.
    destruct (txn_Get _ _) as [val gerr]. simpl in Hget. subst gerr.
    simpl. eexists. reflexivity.
  - intros t r w w0 w1 w2 w4 recordID pre post v colVals ferr entryKey err
           it hit vals h
           Hnew Htxn Hchk Hidx Hpre Hst Huniq Hfetch Hkey Hcreate Hexists
           Hseek Hnext.
    split; [reflexivity|].
    unfold AddRecord. rewrite Hnew. simpl. rewrite Htxn.
    unfold addStaged, addIndices.
    replace (GetTxn (txn (NewBufferStore w0))) with (@None Err)
      by (symmetry; exact Htxn).
    rewrite Hchk, Hidx, addIdxs_app, Hpre. simpl addIdxs.
    rewrite Hst, Hfetch, Huniq, Hkey.
    rewrite Hcreate, Hexists, Hseek, Hnext. reflexivity.
Qed.

(** *** Staging *)

Section Staging.
Variable view : Env -> Key -> option Value.
Variable Q : Key -> Prop.

Lemma Staged_refl w : Staged view Q w w.
Proof. split; [reflexivity|]. exists []. split; [reflexivity|constructor]. Qed.

Lemma Staged_trans w1 w2 w3 :
  Staged view Q w1 w2 -> Staged view Q w2 w3 -> Staged view Q w1 w3.
Proof.
  intros [Hv1 (s1 & Hb1 & Hq1)] [Hv2 (s2 & Hb2 & Hq2)]. split.
  - intros k. rewrite Hv2. apply Hv1.
  - exists (s2 ++ s1). split.
    + rewrite Hb2, Hb1. apply app_assoc.
    + apply Forall_app. split; assumption.
Qed.

Lemma Staged_bsSet k v w : Q k -> Staged view Q w (snd (rm_Set bsRM k v w)).
Proof.
  intros Hk. split; [reflexivity|]. exists [(k, Some v)].
  split; [reflexivity|]. constructor; [exact Hk|constructor].
Qed.

Lemma Staged_SetColValue k d w :
  Q k -> Staged view Q w (snd (SetColValue bsRM k d w)).
Proof.
  intros Hk. unfold SetColValue.
  destruct (EncodeValue d) as [v [e|]]; [apply Staged_refl|].
  pose proof (Staged_bsSet k v w Hk) as H.
  destruct (rm_Set bsRM k v w) as [[e|] w1]; exact H.
Qed.

Lemma Staged_setNewCols t h touched data cols w err w' :
  (forall col, Q (RecordKey t h (Some col))) ->
  setNewCols t bsRM h touched data cols w = Done (err, w') ->
  Staged view Q w w'.
Proof.
  intros Hkeys. revert w. induction cols as [|col cols IH]; intros w; simpl.
  - intros [= _ <-]. apply Staged_refl.
  - destruct (negb _); [apply IH|].
    destruct (index data (Offset col)) as [d|]; [|discriminate]. simpl.
    pose proof (Staged_SetColValue (RecordKey t h (Some col)) d w (Hkeys col))
      as Hset.
    destruct (SetColValue bsRM _ d w) as [[e|] w1]; simpl in Hset.
    + intros [= _ <-]. exact Hset.
    + intros Hrest. eapply Staged_trans; [exact Hset|]. eapply IH, Hrest.
Qed.

Lemma Staged_rebuildIdxs h touched oldData newData idxs w :
  Forall (IndexStages view Q) idxs ->
  Staged view Q w (snd (rebuildIdxs bsRM h touched oldData newData idxs w)).
Proof.
  intros Hall. revert w. induction Hall as [|idx idxs Hidx Hall IH]; intros w.
  - apply Staged_refl.
  - simpl. destruct (negb _); [apply IH|].
    destruct (FetchValues idx oldData) as [oldVs [e|]]; [apply Staged_refl|].
    assert (Hdel : Staged view Q w (snd (removeRowIndex bsRM h oldVs idx w))).
    { unfold removeRowIndex. pose proof (proj2 (Hidx oldVs h w)) as H.
      destruct (Delete idx bsRM oldVs h w) as [[e|] w1]; exact H. }
    destruct (removeRowIndex bsRM h oldVs idx w) as [derr w1]. simpl in Hdel.
    destruct (FetchValues idx newData) as [newVs [e|]]; [exact Hdel|].
    assert (Hbuild : Staged view Q w1 (snd (buildIndexForRow bsRM h newVs idx w1))).
    { unfold buildIndexForRow. destruct (_ || _); [apply Staged_refl|].
      pose proof (proj1 (Hidx newVs h w1)) as H.
      destruct (Create idx bsRM newVs h w1) as [[e|] w2]; exact H. }
    destruct (buildIndexForRow bsRM h newVs idx w1) as [[e|] w2];
      simpl in Hbuild.
    + eapply Staged_trans; eassumption.
    + eapply Staged_trans; [eapply Staged_trans; eassumption|apply IH].
Qed.

(** Replaying mutations on keys in [Q] leaves the keys outside [Q] as they
    were. *)
Lemma replay_frame (b : MemBuffer) e e' :
  SetLaw view -> DeleteLaw view ->
  Forall (fun kv => Q (fst kv)) b ->
  replay b e = (None, e') ->
  forall k, ~ Q k -> view e' k = view e k.
Proof.
  intros Hset Hdel Hb. revert e'.
  induction Hb as [|[k0 v0] b Hk0 Hb IH]; intros e'; simpl.
  - intros [= <-] k _. reflexivity.
  - destruct (replay b e) as [[err|] e1]; [discriminate|].
    intros Hlast k Hk. rewrite <- (IH e1 eq_refl k Hk).
    assert (Hne : k <> k0) by (intros ->; apply Hk, Hk0).
    destruct v0 as [val|].
    + rewrite (Hset _ _ _ _ Hlast k), bool_decide_eq_false_2 by exact Hne.
      reflexivity.
    + rewrite (Hdel _ _ _ Hlast k), bool_decide_eq_false_2 by exact Hne.
      reflexivity.
Qed.

Lemma SaveTo_frame w err w' :
  SetLaw view -> DeleteLaw view ->
  Forall (fun kv => Q (fst kv)) (bs w) ->
  SaveTo w = (err, w') ->
  forall k, ~ Q k -> view (txn w') k = view (txn w) k.
Proof.
  intros Hset Hdel Hb. unfold SaveTo.
  destruct (replay (bs w) (txn w)) as [[e|] e1] eqn:Hrep.
  - intros [= _ <-] k _. reflexivity.
  - intros [= _ <-]. simpl. eapply replay_frame; eassumption.
Qed.

End Staging.

(** *** UpdateRecord: the indices it leaves alone *)

Lemma rebuildIdxs_app rm h touched oldData newData pre post (w : @World Env) :
  rebuildIdxs rm h touched oldData newData (pre ++ post) w =
  match rebuildIdxs rm h touched oldData newData pre w with
  | (None, w1) => rebuildIdxs rm h touched oldData newData post w1
  | (Some err, w1) => (Some err, w1)
  end.
Proof.
  revert w. induction pre as [|idx pre IH]; intros w; simpl; [reflexivity|].
  destruct (negb _); [apply IH|].
  destruct (FetchValues idx oldData) as [oldVs [e|]]; [reflexivity|].
  destruct (removeRowIndex rm h oldVs idx w) as [derr w1].
  destruct (FetchValues idx newData) as [newVs [e|]]; [reflexivity|].
  destruct (buildIndexForRow rm h newVs idx w1) as [[e|] w2];
    [reflexivity|apply IH].
Qed.

Lemma rebuildIdxs_skip rm h touched oldData newData pre idx post
    (w : @World Env) :
  idxTouched touched idx = false ->
  rebuildIdxs rm h touched oldData newData (pre ++ idx :: post) w
  = rebuildIdxs rm h touched oldData newData (pre ++ post) w.
Proof.
  intros Hidx. rewrite !rebuildIdxs_app. simpl. rewrite Hidx. reflexivity.
Qed.

Lemma setNewData_setIndices t idxs rm h touched data (w : World) :
  setNewData (setIndices t idxs) rm h touched data w
  = setNewData t rm h touched data w.
Proof.
  unfold setNewData. change (Cols (setIndices t idxs)) with (Cols t).
  revert w. induction (Cols t) as [|col cols IH]; intros w; simpl;
    [reflexivity|].
  destruct (negb _); [apply IH|].
  destruct (index data (Offset col)) as [d|]; [|reflexivity]. simpl.
  change (RecordKey (setIndices t idxs) h (Some col))
    with (RecordKey t h (Some col)).
  destruct (SetColValue rm _ d w) as [[e|] w1]; [reflexivity|apply IH].
Qed.

Lemma updateStaged_skip t h touched oldData data pre idx post (w : World) :
  indices t = pre ++ idx :: post ->
  idxTouched touched idx = false ->
  updateStaged t h touched oldData data w
  = updateStaged (setIndices t (pre ++ post)) h touched oldData data w.
Proof.
  intros Hidxs Hidx. unfold updateStaged, rebuildIndices.
  rewrite setNewData_setIndices.
  destruct (setNewData t bsRM h touched data w) as [[e1 wa]|];
    [|reflexivity].
  simpl. destruct e1 as [e1|]; [reflexivity|].
  rewrite Hidxs, (rebuildIdxs_skip _ _ _ _ _ _ _ _ _ Hidx). reflexivity.
Qed.

Lemma updateStaged_frame view (P : Key -> Prop) t h touched oldData data
    (w : World) err w' :
  SetLaw view -> DeleteLaw view ->
  (forall col, ~ P (RecordKey t h (Some col))) ->
  Forall (IndexStages view (fun k => ~ P k)) (indices t) ->
  bs w = [] ->
  updateStaged t h touched oldData data w = Done (err, w') ->
  forall k, P k -> view (txn w') k = view (txn w) k.
Proof.
  intros Hset Hdel Hkeys Hidxs Hempty. unfold updateStaged, setNewData.
  destruct (setNewCols t bsRM h touched data (Cols t) w) as [[e1 wa]|] eqn:Hnew;
    [|discriminate].
  apply (Staged_setNewCols view (fun k => ~ P k)) in Hnew; [|exact Hkeys].
  simpl. destruct e1 as [e1|].
  { intros [= _ <-] k _. apply Hnew. }
  unfold rebuildIndices.
  pose proof (Staged_rebuildIdxs view (fun k => ~ P k) h touched oldData data
                (indices t) wa Hidxs) as Hre.
  destruct (rebuildIdxs bsRM h touched oldData data (indices t) wa)
    as [e2 wb]. simpl in Hre.
  pose proof (Staged_trans _ _ _ _ _ Hnew Hre) as [Hview (staged & Hbs & Hq)].
  destruct e2 as [e2|].
  { intros [= _ <-] k _. apply Hview. }
  rewrite Hempty, app_nil_r in Hbs.
  destruct (SaveTo wb) as [e3 wc] eqn:Hsave.
  assert (Hsaved : forall k, P k -> view (txn wc) k = view (txn w) k).
  { intros k Hk. rewrite <- Hview.
    eapply (SaveTo_frame view (fun k => ~ P k)); try eassumption.
    - rewrite Hbs. exact Hq.
    - intros Hn. apply Hn, Hk. }
  destruct e3 as [e3|]; intros [= _ <-]; exact Hsaved.
Qed.

(** C8.  An index none of whose columns is marked in the touched set, as
    [UpdateRecord] leaves it (the caller's map, in which step 1 also marks
    the on-update columns), is left alone: the call does what it does on
    the table without that index, so none of the index's methods is called;
    and the entries of the store under the keys [P] of that index read the
    same before and after, in a store that behaves as a map, when the
    record keys and the keys the other indices write are outside [P]. *)
Theorem UpdateRecord_untouched_index (view : Env -> Key -> option Value)
    (P : Key -> Prop) (t : Table) (h : Z) (oldData newData : list Datum)
    (touched touched' : gmap Z bool) (w w' : World) (err : error)
    (pre post : list Index) (idx : Index) :
  SetLaw view -> DeleteLaw view ->
  indices t = pre ++ idx :: post ->
  (forall col, ~ P (RecordKey t h (Some col))) ->
  Forall (IndexStages view (fun k => ~ P k)) (pre ++ post) ->
  UpdateRecord t h oldData newData touched w = Done (err, touched', w') ->
  idxTouched touched' idx = false ->
  UpdateRecord (setIndices t (pre ++ post)) h oldData newData touched w
  = Done (err, touched', w')
  /\ forall k, P k -> view (txn w') k = view (txn w) k.
Proof.
  intros Hset Hdel Hidxs Hkeys Hothers Hrun Hidx.
  unfold UpdateRecord in *.
  change (writableCols (setIndices t (pre ++ post))) with (writableCols t).
  change (setOnUpdateData (setIndices t (pre ++ post)))
    with (setOnUpdateData t).
  destruct (setOnUpdateData t (txn w) touched _) as [[[e1 touched1] data]|];
    [|discriminate].
  simpl in Hrun |- *. destruct e1 as [e1|].
  { injection Hrun as <- <- <-. split; reflexivity. }
  destruct (GetTxn (txn w)) as [e2|].
  { injection Hrun as <- <- <-. split; reflexivity. }
  destruct (updateStaged t h touched1 oldData data (NewBufferStore w))
    as [[e3 w3]|] eqn:Hstaged; [|discriminate].
  simpl in Hrun. injection Hrun as <- <- <-.
  rewrite <- (updateStaged_skip t h touched1 oldData data pre idx post _
                Hidxs Hidx), Hstaged.
  split; [reflexivity|].
  rewrite (updateStaged_skip t h touched1 oldData data pre idx post _
             Hidxs Hidx) in Hstaged.
  intros k Hk. simpl.
  exact (updateStaged_frame view P (setIndices t (pre ++ post)) h touched1
           oldData data (NewBufferStore w) e3 w3 Hset Hdel Hkeys Hothers
           eq_refl Hstaged k Hk).
Qed.

(** *** AddRecord then Row *)

Section RoundTrip.
Variable view : Env -> Key -> option Value.
Variable Hint : Env -> option Err.
Hypothesis Hms : MapStore view Hint.
Variable Q : Key -> Prop.

Lemma Staged_SetOption o x w : Staged view Q w (SetOption o x w).
Proof.
  split; [intros k; apply (ms_SetOption _ _ Hms)|].
  exists []. split; [reflexivity|constructor].
Qed.

Lemma Staged_DelOption o w : Staged view Q w (DelOption o w).
Proof.
  split; [intros k; apply (ms_DelOption _ _ Hms)|].
  exists []. split; [reflexivity|constructor].
Qed.

Lemma Staged_checkHandle t recordID w :
  Staged view Q w (snd (checkHandle t recordID w)).
Proof.
  unfold checkHandle. destruct (PKIsHandle (meta t)); [|apply Staged_refl].
  destruct (txn_Get _ _) as [val [e|]]; simpl.
  - destruct (negb _); simpl; [apply Staged_SetOption|].
    eapply Staged_trans; [apply Staged_SetOption|apply Staged_DelOption].
  - apply Staged_SetOption.
Qed.

Lemma Staged_addIdxs recordID r idxs w ret w' :
  Forall (IndexStages view Q) idxs ->
  addIdxs recordID r idxs w = Done (ret, w') ->
  Staged view Q w w'.
Proof.
  intros Hall. revert w. induction Hall as [|v idxs Hv Hall IH]; intros w;
    simpl.
  - intros [= _ <-]. apply Staged_refl.
  - destruct (_ || _); [apply IH|].
    destruct (FetchValues v r) as [colVals ferr].
    assert (Hopt : Staged view Q w
              (snd (if Unique (Meta v) || Primary (Meta v)
                    then
                      let '(entryKey, err1) := genIndexKeyStr colVals in
                      match err1 with
                      | Some _ => (err1, @None Err, w)
                      | None =>
                        (None, Some (dupEntry entryKey (Meta v)),
                         SetOption PresumeKeyNotExistsError
                           (dupEntry entryKey (Meta v)) w)
                      end
                    else (None, None, w)))).
    { destruct (_ || _); [|apply Staged_refl].
      destruct (genIndexKeyStr colVals) as [entryKey [e|]];
        [apply Staged_refl|apply Staged_SetOption]. }
    destruct (if Unique (Meta v) || Primary (Meta v) then _ else _)
      as [[err1 dup] w1]. simpl in Hopt.
    destruct err1 as [e1|]; [intros [= _ <-]; exact Hopt|].
    pose proof (proj1 (Hv colVals recordID w1)) as Hcreate.
    destruct (Create v bsRM colVals recordID w1) as [[err|] w2];
      simpl in Hcreate.
    + assert (Hw2 : Staged view Q w w2) by (eapply Staged_trans; eassumption).
      destruct (ErrorEqual (Some err) kv_ErrKeyExists);
        [|intros [= _ <-]; exact Hw2].
      destruct (Seek v bsRM colVals w2) as [[[it|] hit] [e2|]];
        try (intros [= _ <-]; exact Hw2); try discriminate.
      destruct (iter_Next it) as [[vals h] [e3|]];
        intros [= _ <-]; exact Hw2.
    + intros Hrest.
      eapply Staged_trans; [exact Hopt|].
      eapply Staged_trans; [exact Hcreate|].
      eapply Staged_trans; [apply Staged_DelOption|].
      eapply IH, Hrest.
Qed.

Lemma addIndices_staged t recordID r w res w' :
  Forall (IndexStages view Q) (indices t) ->
  GetTxn (txn w) = None ->
  addIndices t recordID r w = Done (res, w') ->
  Staged view Q w w' /\ Hint (txn w') = None.
Proof.
  intros Hall Htxn. unfold addIndices. rewrite Htxn.
  pose proof (Staged_checkHandle t recordID w) as Hchk.
  destruct (checkHandle t recordID w) as [[ret|] w1]; simpl in Hchk |- *.
  - intros [= _ <-]. split; [|apply (ms_DelOption_hint _ _ Hms)].
    eapply Staged_trans; [exact Hchk|apply Staged_DelOption].
  - destruct (addIdxs recordID r (indices t) w1) as [[ret w2]|] eqn:Hloop;
      [|discriminate].
    simpl. intros [= _ <-]. split; [|apply (ms_DelOption_hint _ _ Hms)].
    eapply Staged_trans; [exact Hchk|].
    eapply Staged_trans; [eapply Staged_addIdxs; eassumption|].
    apply Staged_DelOption.
Qed.

Lemma LockRow_write t h w w' :
  LockRow t h false w = (None, w') ->
  bs w' = bs w /\ Hint (txn w') = Hint (txn w)
  /\ forall k, view (txn w') k
              = if bool_decide (k = RecordKey t h None)
                then Some (txn_String (txn w)) else view (txn w) k.
Proof.
  unfold LockRow. destruct (GetTxn (txn w)); [discriminate|].
  unfold onTxnE.
  destruct (txn_Set (RecordKey t h None) (txn_String (txn w)) (txn w))
    as [[e|] e1] eqn:Hset; [discriminate|].
  intros [= <-]. simpl. split; [reflexivity|]. split.
  - apply (ms_Set_hint _ _ Hms _ _ _ _ Hset).
  - apply (ms_Set _ _ Hms _ _ _ _ Hset).
Qed.


Lemma SetColValue_txn key d w w' :
  SetColValue txnRM key d w = (None, w') ->
  snd (EncodeValue d) = None /\ bs w' = bs w
  /\ Hint (txn w') = Hint (txn w)
  /\ forall k, view (txn w') k
              = if bool_decide (k = key) then Some (fst (EncodeValue d))
                else view (txn w) k.
Proof.
  unfold SetColValue. destruct (EncodeValue d) as [v [e|]]; [discriminate|].
  simpl. unfold onTxnE.
  destruct (txn_Set key v (txn w)) as [[e|] e1] eqn:Hset; [discriminate|].
  intros [= <-]. simpl. repeat split.
  - apply (ms_Set_hint _ _ Hms _ _ _ _ Hset).
  - apply (ms_Set _ _ Hms _ _ _ _ Hset).
Qed.

Lemma addRecordCols_spec t h r cols w w' :
  addRecordCols t h r cols w = Done (None, w') ->
  bs w' = bs w /\ Hint (txn w') = Hint (txn w)
  /\ (forall k, k ∉ (fun c => RecordKey t h (Some c)) <$> cols ->
       view (txn w') k = view (txn w) k)
  /\ (NoDup ((fun c => RecordKey t h (Some c)) <$> cols) ->
      forall col, col ∈ cols -> State col = StatePublic ->
      IsPKHandleColumn col (meta t) = false ->
      ColumnWritten view t h r w w' col).
Proof.
  revert w. induction cols as [|c cols IH]; intros w.
  - simpl. intros [= <-]. repeat split; try reflexivity.
    intros _ col Hin. inversion Hin.
  - rewrite fmap_cons. simpl addRecordCols.
    destruct (IsPKHandleColumn c (meta t)) eqn:Hpk.
    { (* the handle column is not written *)
      intros Hrest. destruct (IH w Hrest) as (Hbs & Hhint & Hframe & Hcols).
      repeat split; try assumption.
      - intros k Hk. apply Hframe. intros Hin. apply Hk. right. exact Hin.
      - intros Hnd col Hin Hst Hnpk. apply NoDup_cons in Hnd as [_ Hnd].
        apply elem_of_cons in Hin as [->|Hin]; [congruence|].
        apply Hcols; assumption. }
    assert (Hskip : forall d, index r (Offset c) = Done d ->
              DefaultValue c = None -> IsNull d = true ->
              addRecordCols t h r cols w = Done (None, w') ->
              bs w' = bs w /\ Hint (txn w') = Hint (txn w)
              /\ (forall k, k ∉ RecordKey t h (Some c)
                                :: ((fun c => RecordKey t h (Some c)) <$> cols) ->
                   view (txn w') k = view (txn w) k)
              /\ (NoDup (RecordKey t h (Some c)
                         :: ((fun c => RecordKey t h (Some c)) <$> cols)) ->
                  forall col, col ∈ c :: cols -> State col = StatePublic ->
                  IsPKHandleColumn col (meta t) = false ->
                  ColumnWritten view t h r w w' col)).
    { intros d Hd Hdef Hnull Hrest.
      destruct (IH w Hrest) as (Hbs & Hhint & Hframe & Hcols).
      repeat split; try assumption.
      - intros k Hk. apply Hframe. intros Hin. apply Hk. right. exact Hin.
      - intros Hnd col Hin Hst Hnpk. apply NoDup_cons in Hnd as [Hfresh Hnd].
        apply elem_of_cons in Hin as [->|Hin]; [|apply Hcols; assumption].
        left. unfold rowAt. rewrite Hd. repeat split; try assumption.
        apply Hframe, Hfresh. }
    assert (Hwrite : forall value w1,
              (State c = StatePublic -> value = rowAt r (Offset c)) ->
              SetColValue txnRM (RecordKey t h (Some c)) value w = (None, w1) ->
              addRecordCols t h r cols w1 = Done (None, w') ->
              bs w' = bs w /\ Hint (txn w') = Hint (txn w)
              /\ (forall k, k ∉ RecordKey t h (Some c)
                                :: ((fun c => RecordKey t h (Some c)) <$> cols) ->
                   view (txn w') k = view (txn w) k)
              /\ (NoDup (RecordKey t h (Some c)
                         :: ((fun c => RecordKey t h (Some c)) <$> cols)) ->
                  forall col, col ∈ c :: cols -> State col = StatePublic ->
                  IsPKHandleColumn col (meta t) = false ->
                  ColumnWritten view t h r w w' col)).
    { intros value w1 Hval Hset Hrest.
      destruct (SetColValue_txn _ _ _ _ Hset) as (Henc & Hbs1 & Hh1 & Hv1).
      destruct (IH w1 Hrest) as (Hbs & Hhint & Hframe & Hcols).
      split; [congruence|]. split; [congruence|]. split.
      - intros k Hk. rewrite Hframe, Hv1.
        + rewrite bool_decide_eq_false_2; [reflexivity|].
          intros ->. apply Hk. left.
        + intros Hin. apply Hk. right. exact Hin.
      - intros Hnd col Hin Hst Hnpk. apply NoDup_cons in Hnd as [Hfresh Hnd].
        apply elem_of_cons in Hin as [->|Hin].
        + right. rewrite <- (Hval Hst). split; [exact Henc|].
          rewrite (Hframe _ Hfresh), Hv1, bool_decide_eq_true_2 by reflexivity.
          reflexivity.
        + destruct (Hcols Hnd col Hin Hst Hnpk) as [(Hd & Hn & Hv)|(He & Hv)].
          * left. repeat split; try assumption. rewrite Hv, Hv1.
            rewrite bool_decide_eq_false_2; [reflexivity|].
            intros Heq. apply Hfresh. rewrite <- Heq.
            apply (list_elem_of_fmap_2 (fun c => RecordKey t h (Some c))).
            exact Hin.
          * right. split; assumption. }
    assert (Hvalue : Done (None, w') =
              (let* (value, err) :=
                 if is_state (State c) StateWriteOnly
                    || is_state (State c) StateWriteReorganization
                 then
                   let '(value, _, err) := GetColDefaultValue (txn w) c in
                   match err with
                   | Some _ => Done (value, err)
                   | None => Done (CastValue (txn w) value c)
                   end
                 else let* d := index r (Offset c) in Done (d, None) in
               match err with
               | Some _ => Done (Trace err, w)
               | None =>
                 let '(err, w0) :=
                   SetColValue txnRM (RecordKey t h (Some c)) value w in
                 match err with
                 | Some _ => Done (Trace err, w0)
                 | None => addRecordCols t h r cols w0
                 end
               end) ->
              bs w' = bs w /\ Hint (txn w') = Hint (txn w)
              /\ (forall k, k ∉ RecordKey t h (Some c)
                                :: ((fun c => RecordKey t h (Some c)) <$> cols) ->
                   view (txn w') k = view (txn w) k)
              /\ (NoDup (RecordKey t h (Some c)
                         :: ((fun c => RecordKey t h (Some c)) <$> cols)) ->
                  forall col, col ∈ c :: cols -> State col = StatePublic ->
                  IsPKHandleColumn col (meta t) = false ->
                  ColumnWritten view t h r w w' col)).
    { destruct (is_state (State c) StateWriteOnly
                || is_state (State c) StateWriteReorganization) eqn:Hwo.
      - destruct (GetColDefaultValue (txn w) c) as [[value ok] [e|]];
          [discriminate|].
        destruct (CastValue (txn w) value c) as [value' [e|]];
          [discriminate|].
        simpl.
        destruct (SetColValue txnRM _ value' w) as [[e|] w1] eqn:Hset;
          [discriminate|].
        intros Hrest. eapply (Hwrite value' w1); [|exact Hset|congruence].
        intros Hst. rewrite Hst in Hwo. discriminate.
      - destruct (index r (Offset c)) as [d|] eqn:Hd; [|discriminate].
        simpl.
        destruct (SetColValue txnRM _ d w) as [[e|] w1] eqn:Hset;
          [discriminate|].
        intros Hrest. eapply (Hwrite d w1); [|exact Hset|congruence].
        intros _. unfold rowAt. rewrite Hd. reflexivity. }
    destruct (DefaultValue c) as [dv|] eqn:Hdef.
    + simpl. intros Hrun. apply Hvalue. symmetry. exact Hrun.
    + destruct (index r (Offset c)) as [d|] eqn:Hd; [|discriminate].
      simpl. destruct (IsNull d) eqn:Hnull.
      * apply (Hskip d); [reflexivity|reflexivity|exact Hnull].
      * intros Hrun. apply Hvalue. symmetry. exact Hrun.
Qed.


Lemma NoDup_fmap_filter {A B} (f : A -> B) (p : A -> bool) (l : list A) :
  NoDup (f <$> l) -> NoDup (f <$> List.filter p l).
Proof.
  induction l as [|a l IH]; [intros; constructor|].
  intros Hnd. rewrite fmap_cons in Hnd.
  apply NoDup_cons in Hnd as [Hfresh Hnd].
  cbn [List.filter]. destruct (p a); [|apply IH, Hnd].
  rewrite fmap_cons. apply NoDup_cons. split; [|apply IH, Hnd].
  intros Hin. apply Hfresh.
  apply list_elem_of_fmap in Hin as (x & -> & Hx).
  apply list_elem_of_fmap_2, list_elem_of_In.
  apply list_elem_of_In, filter_In in Hx. apply Hx.
Qed.

End RoundTrip.

Lemma newRecordID_view view Hint t r (w w0 : World) res :
  MapStore view Hint ->
  newRecordID t r w = Done (res, w0) ->
  bs w0 = bs w /\ forall k, view (txn w0) k = view (txn w) k.
Proof.
  intros Hms. unfold newRecordID.
  destruct (findRecordID (meta t) (Cols t) r) as [[rid has]|]; [|discriminate].
  simpl. destruct (negb has).
  - destruct (Alloc (TableID t) (txn w)) as [res' e] eqn:Halloc.
    intros [= _ <-]. simpl. split; [reflexivity|]. intros k.
    pose proof (ms_Alloc _ _ Hms (TableID t) (txn w) k) as Hk.
    rewrite Halloc in Hk. exact Hk.
  - intros [= _ <-]. split; reflexivity.
Qed.


End Properties.

(** ** The properties at concrete inputs *)
Module Examples.
Import Mem.

(** The store of [Mem] behaves as a map, and its indices write through the
    scope they are given. *)
Lemma lookupKv_insertKv k v l k' :
  lookupKv k' (insertKv k v l)
  = if bool_decide (k' = k) then Some v else lookupKv k' l.
Proof.
  induction l as [|[k0 v0] l IH]; simpl.
  - destruct (String.eqb_spec k' k) as [->|Hne].
    + rewrite bool_decide_eq_true_2 by reflexivity. reflexivity.
    + rewrite bool_decide_eq_false_2 by exact Hne. reflexivity.
  - destruct (String.eqb_spec k k0) as [->|Hne0]; simpl.
    + destruct (String.eqb_spec k' k0) as [->|Hne].
      * rewrite bool_decide_eq_true_2 by reflexivity. reflexivity.
      * rewrite bool_decide_eq_false_2 by exact Hne. reflexivity.
    + destruct (String.eqb_spec k' k0) as [->|Hne].
      * rewrite bool_decide_eq_false_2 by congruence. reflexivity.
      * exact IH.
Qed.

Lemma lookupKv_deleteKv k l k' :
  lookupKv k' (deleteKv k l)
  = if bool_decide (k' = k) then None else lookupKv k' l.
Proof.
  induction l as [|[k0 v0] l IH]; simpl.
  - destruct (bool_decide (k' = k)); reflexivity.
  - destruct (String.eqb_spec k k0) as [->|Hne0]; simpl.
    + rewrite IH. destruct (String.eqb_spec k' k0) as [->|Hne].
      * rewrite bool_decide_eq_true_2 by reflexivity. reflexivity.
      * reflexivity.
    + destruct (String.eqb_spec k' k0) as [->|Hne].
      * rewrite bool_decide_eq_false_2 by congruence. reflexivity.
      * exact IH.
Qed.

Lemma mem_SetLaw : SetLaw memView.
Proof.
  intros k v e e' [= <-] k'. unfold memView. simpl.
  apply lookupKv_insertKv.
Qed.

Lemma mem_DeleteLaw : DeleteLaw memView.
Proof.
  intros k e e' Hdel k'. unfold memView. simpl in Hdel. unfold del in Hdel.
  destruct (lookupKv k (kvs e)); [|discriminate].
  injection Hdel as <-. simpl. apply lookupKv_deleteKv.
Qed.

Lemma memIndex_stages (Q : Key -> Prop) prefix info :
  (forall vals h key, genIndexKey prefix info vals h = (key, None) -> Q key) ->
  IndexStages memView Q (memIndex prefix info).
Proof.
  intros Hkey vals h w. split; simpl.
  - unfold create.
    destruct (genIndexKey prefix info vals h) as [key [e|]] eqn:Hgen;
      [apply Staged_refl|].
    destruct (negb _); [apply Staged_bsSet, (Hkey _ _ _ Hgen)|].
    destruct (rm_Get bsRM key w) as [val gerr].
    destruct (ErrorEqual gerr kv_ErrNotExist);
      [apply Staged_bsSet, (Hkey _ _ _ Hgen)|apply Staged_refl].
  - unfold delete.
    destruct (genIndexKey prefix info vals h) as [key [e|]] eqn:Hgen;
      [apply Staged_refl|].
    split; [reflexivity|]. exists [(key, None)].
    split; [reflexivity|]. constructor; [exact (Hkey _ _ _ Hgen)|constructor].
Qed.

Lemma mem_MapStore : MapStore memView hint.
Proof.
  split.
  - exact mem_SetLaw.
  - exact mem_DeleteLaw.
  - intros k v e e' [= <-]. reflexivity.
  - intros k e e'. simpl. unfold del.
    destruct (lookupKv k (kvs e)); [|discriminate].
    intros [= <-]. reflexivity.
  - intros [] x e k; reflexivity.
  - intros [] e k; reflexivity.
  - intros e. reflexivity.
  - intros id e k. reflexivity.
  - intros n e k. reflexivity.
  - intros n e. reflexivity.
  - intros e k _. unfold GetReads, memView. simpl. unfold get.
    destruct (lookupKv k (kvs e)); reflexivity.
Qed.




Lemma first_index_keys vals h key :
  genIndexKey "t4_i" iFirst vals h = (key, None) -> ~ secondKeys key.
Proof.
  unfold genIndexKey. destruct (encodeVals (elems vals)) as [s [e|]];
    [discriminate|].
  intros [= <-]. unfold secondKeys. simpl. discriminate.
Qed.

(** C10 at a store whose [Seek] reports an error: the row is found all the
    same. *)
Lemma Seek_drops_seek_error_witness :
  snd (txn_Seek (EncodeColumnKey 1 5 0) (txn oneRow))
  <> snd (txn_Seek (EncodeColumnKey 1 5 0) (txn (faultySeek oneRow)))
  /\ TableSeek tName 5 (faultySeek oneRow) = Done (5, true, None)
  /\ TableSeek tName 5 oneRow = TableSeek tName 5 (faultySeek oneRow).
Proof.
  split; [vm_compute; discriminate|].
  split; [vm_compute; reflexivity|].
  apply (Seek_drops_seek_error tName 5 oneRow (faultySeek oneRow));
    vm_compute; reflexivity.
Defined.

(** C6 at a store that holds nothing of row [-1]: the column being added is
    refused, the key column is the handle read as unsigned, the required
    column is an error and the optional one is null. *)
Lemma RowWithCols_column_witness :
  ErrorEqual (snd (RowWithCols tRead (-1) [Some cId; Some cNew] emptyWorld))
    table_ErrColumnStateNonPublic = true
  /\ RowWithCols tRead (-1) [Some cId] emptyWorld
     = ([DUint64 18446744073709551615], None)
  /\ RowWithCols tRead (-1) [Some cId; Some cReq] emptyWorld
     = ([], Some kv_ErrNotExist)
  /\ RowWithCols tRead (-1) [Some cOpt] emptyWorld = ([DNull], None).
Proof.
  split; [|split; [|split]].
  - exact (proj1 (RowWithCols_column tRead (-1) [Some cId; Some cNew] 1 cNew
                    emptyWorld eq_refl eq_refl eq_refl)
             ltac:(discriminate)).
  - exact (proj1 (proj1 (proj2
             (RowWithCols_column tRead (-1) [Some cId] 0 cId
                emptyWorld eq_refl eq_refl eq_refl)) eq_refl eq_refl)).
  - exact (proj1 (proj2 (proj2
             (RowWithCols_column tRead (-1) [Some cId; Some cReq] 1 cReq
                emptyWorld eq_refl eq_refl eq_refl)))
             eq_refl eq_refl eq_refl eq_refl).
  - exact (proj1 (proj2 (proj2 (proj2
             (RowWithCols_column tRead (-1) [Some cOpt] 0 cOpt
                emptyWorld eq_refl eq_refl eq_refl)))
             eq_refl eq_refl eq_refl eq_refl)).
Defined.

(** C9 on a duplicate: inserting a second "a" into [namedA] is refused with
    the handle of the first, and the hint is cleared. *)
Lemma addIndices_clears_hint_witness :
  exists w', addIndices tName 7 [DString "a"] namedA
             = Done ((5, Some (Gen kv_ErrKeyExists
                                 "Duplicate entry 'a' for key 'idx_name'")), w')
             /\ hint (txn w') = None.
Proof.
  destruct (addIndices tName 7 [DString "a"] namedA) as [[res w']|] eqn:Hrun;
    [|vm_compute in Hrun; discriminate].
  exists w'. split.
  - vm_compute in Hrun. injection Hrun as <- <-. reflexivity.
  - apply (addIndices_clears_hint (K:=collab) hint tName 7 [DString "a"] namedA w' res);
      [intros e; reflexivity | reflexivity | exact Hrun].
Defined.

(** C5 at rows with keys missing.  [oldRow] has no key for the column and
    no entry for the index being added: it is removed.  A missing key of a
    Public column, and a missing entry of a Public index, are errors. *)
Lemma RemoveRecord_key_not_found_witness :
  (exists w', RemoveRecord tDDL 9 [DInt64 4; DNull] oldRow = (None, w'))
  /\ (exists w', RemoveRecord tDDL 8 [DInt64 4; DNull] oldRow
                 = (Some kv_ErrNotExist, w'))
  /\ (exists w', RemoveRecord tName 5 [DString "a"] oneRow
                 = (Some kv_ErrNotExist, w'))
  /\ (exists w3, RemoveRecord tDDL 9 [DInt64 4; DNull] oldRow
                 = removeIdxs 9 [DInt64 4; DNull] [] w3).
Proof.
  split; [|split; [|split]].
  - eexists.
    eapply (proj1 RemoveRecord_key_not_found tDDL 9 [DInt64 4; DNull] oldRow
              _ [cOld] [] cAdded);
      [vm_compute; reflexivity | reflexivity | reflexivity
      | vm_compute; reflexivity | vm_compute; reflexivity | reflexivity
      | discriminate | vm_compute; reflexivity | vm_compute; reflexivity | ].
    vm_compute. reflexivity.
  - eexists.
    eapply (proj1 RemoveRecord_key_not_found tDDL 8 [DInt64 4; DNull] oldRow
              _ [] [cAdded] cOld);
      [vm_compute; reflexivity | reflexivity | reflexivity
      | vm_compute; reflexivity | vm_compute; reflexivity | reflexivity
      | reflexivity].
  - eexists.
    eapply (proj2 RemoveRecord_key_not_found tName 5 [DString "a"] oneRow
              _ _ _ [] [] _ [DString "a"]);
      [vm_compute; reflexivity | reflexivity | reflexivity | reflexivity
      | reflexivity | vm_compute; reflexivity | reflexivity | reflexivity].
  - eexists.
    eapply (proj2 RemoveRecord_key_not_found tDDL 9 [DInt64 4; DNull] oldRow
              _ _ _ [] [] _ [DInt64 4]);
      [vm_compute; reflexivity | reflexivity | reflexivity | reflexivity
      | reflexivity | vm_compute; reflexivity | reflexivity | discriminate].
Defined.

(** C3 at two duplicates: a second row with handle 5 in [tRead], and a
    second row named "a" in [tName], refused with the handle 5 of the
    first. *)
Lemma AddRecord_duplicate_witness :
  (exists w', AddRecord tRead [DUint64 5; DNull; DInt64 1; DNull] keyed5
              = Done ((5, Some (dupHandle 5)), w'))
  /\ (exists w', AddRecord tName [DString "a"] namedA
                 = Done ((5, Some (dupEntry "a" iName)), w')).
Proof.
  split.
  - exact (proj2 (proj1 AddRecord_duplicate tRead
                    [DUint64 5; DNull; DInt64 1; DNull] keyed5 keyed5 5
                    eq_refl eq_refl eq_refl eq_refl)).
  - eexists.
    exact (proj2 (proj2 AddRecord_duplicate tName [DString "a"] namedA
                    namedA1 namedA1 namedA1
                    (SetOption PresumeKeyNotExistsError (dupEntry "a" iName)
                       namedA1)
                    1 [] [] (memIndex (genTableIndexPrefix 1) iName)
                    (Some [DString "a"]) None "a" kv_ErrKeyExists
                    (mkIndexIterator ([DString "a"], 5, None)) true
                    [DString "a"] 5
                    eq_refl eq_refl eq_refl eq_refl eq_refl eq_refl eq_refl
                    eq_refl eq_refl eq_refl eq_refl eq_refl eq_refl)).
Defined.

(** C7, the code at a failing input.  Column 2 of [tStamp] is writable (it
    is being added) and stamped on update.  Updating column 1 of row 9 marks
    it touched and computes its new value, yet no write for its record key
    [t3_r9_2] is staged or reaches the store: [setNewData] walks the Public
    columns only. *)
Theorem UpdateRecord_write_only_not_written :
  writableCols tStamp = [cOld; cStamp]
  /\ match UpdateRecord tStamp 9 [DInt64 4; DString "then"]
             [DInt64 6; DString "then"] {[0 := true]} oldRow with
     | Done (err, touched, w') =>
       err = None
       /\ touchedAt touched (Offset cStamp) = true
       /\ contents w' = [("t3_r9_0", "txn"); ("t3_r9_1", "i6")]
     | Panic => False
     end
  /\ setNewData tStamp bsRM 9 {[0 := true; 1 := true]}
       [DInt64 6; DString "now"] (NewBufferStore oldRow)
     = Done (None, mkWorld (txn oldRow) [("t3_r9_1", Some "i6")]).
Proof. vm_compute. repeat split. Qed.

(** C2, the code at a failing input.  The old value of the indexed column
    cannot be encoded, so [Delete] of the old index entry fails; the error
    is dropped, the new entry is created, and the update is merged: it
    returns no error and the store holds the entry of "a" and that of
    "b". *)
Theorem UpdateRecord_drops_delete_error :
  fst (Delete (memIndex (genTableIndexPrefix 1) iName) bsRM
         (Some [DInterface 0]) 5 (NewBufferStore namedA))
  = Some errCodec
  /\ match UpdateRecord tName 5 [DInterface 0] [DString "b"]
             {[0 := true]} namedA with
     | Done (err, _, w') =>
       err = None
       /\ contents w' = [("t1_r5_0", "txn"); ("t1_r5_1", "sb");
                         ("t1_i1_sa", "5"); ("t1_i1_sb", "5")]
     | Panic => False
     end.
Proof. vm_compute. repeat split. Qed.

(** C1, the code at a failing input.  The second column of the new row
    cannot be encoded: [AddRecord] returns the error, the staged index entry
    is discarded, and the store keeps the row lock and the first column of
    the new row 1, which were written to the transaction directly. *)
Theorem AddRecord_leaks_column_writes :
  contents namedA
  = [("t1_r5_0", "txn"); ("t1_r5_1", "sa"); ("t1_i1_sa", "5")]
  /\ match AddRecord tTwo [DString "b"; DInterface 0] namedA with
     | Done ((h, err), w') =>
       h = 0 /\ err = Some errCodec
       /\ contents w' = [("t1_r5_0", "txn"); ("t1_r5_1", "sa");
                         ("t1_i1_sa", "5");
                         ("t1_r1_0", "txn"); ("t1_r1_1", "sb")]
     | Panic => False
     end.
Proof. vm_compute. repeat split. Qed.

(** C8 at an update of the first column of row 5 of [tPair]: the second
    index is not touched, the update is the one of the table without it and
    its entries read as before. *)
Lemma UpdateRecord_untouched_index_witness :
  exists w',
    UpdateRecord tPair 5 [DString "a"; DInt64 7] [DString "b"; DInt64 7]
      {[0 := true]} pairRow = Done (None, {[0 := true]}, w')
    /\ UpdateRecord
         (setIndices tPair [memIndex (genTableIndexPrefix 4) iFirst]) 5
         [DString "a"; DInt64 7] [DString "b"; DInt64 7]
         {[0 := true]} pairRow = Done (None, {[0 := true]}, w')
    /\ forall k, secondKeys k -> memView (txn w') k = memView (txn pairRow) k.
Proof.
  eexists. split; [reflexivity|].
  apply (UpdateRecord_untouched_index memView secondKeys tPair 5
           [DString "a"; DInt64 7] [DString "b"; DInt64 7]
           {[0 := true]} {[0 := true]} pairRow _ None
           [memIndex (genTableIndexPrefix 4) iFirst] []
           (memIndex (genTableIndexPrefix 4) iSecond)
           mem_SetLaw mem_DeleteLaw eq_refl).
  - intros col. unfold secondKeys. simpl. discriminate.
  - constructor; [|constructor].
    apply memIndex_stages. exact first_index_keys.
  - reflexivity.
  - reflexivity.
Defined.



End Examples.

(** ** More of the table code: what an operation leaves when it fails,
    which handle a row gets, what the update marks *)
Section Coverage.
Context {Env : Type} {K : Collaborators Env}.

(** [UpdateRecord] is all-or-nothing: when it returns an error, the store
    behind the transaction reads as it did before the call, for every index
    that writes through the scope it is given. *)
Theorem UpdateRecord_error_leaves_store (view : Env -> Key -> option Value)
    (t : Table) (h : Z) (oldData newData : list Datum)
    (touched touched' : gmap Z bool) (w w' : World) (e : Err) :
  Forall (IndexStages view (fun _ => True)) (indices t) ->
  UpdateRecord t h oldData newData touched w = Done (Some e, touched', w') ->
  forall k, view (txn w') k = view (txn w) k.
Proof.
  intros Hidx Hrun. unfold UpdateRecord in Hrun.
  destruct (setOnUpdateData t (txn w) touched _) as [[[e1 touched1] data]|];
    [|discriminate].
  simpl in Hrun. destruct e1 as [e1|].
  { injection Hrun as _ _ <-. reflexivity. }
  destruct (GetTxn (txn w)) as [e2|].
  { injection Hrun as _ _ <-. reflexivity. }
  destruct (updateStaged t h touched1 oldData data (NewBufferStore w))
    as [[e3 w3]|] eqn:Hstaged; [|discriminate].
  simpl in Hrun. injection Hrun as -> _ <-. simpl.
  unfold updateStaged, setNewData in Hstaged.
  destruct (setNewCols t bsRM h touched1 data (Cols t) (NewBufferStore w))
    as [[e4 wa]|] eqn:Hnew; [|discriminate].
  apply (Staged_setNewCols view (fun _ => True)) in Hnew; [|intros; exact I].
  simpl in Hstaged. destruct e4 as [e4|].
  { injection Hstaged as _ <-. apply Hnew. }
  unfold rebuildIndices in Hstaged.
  pose proof (Staged_rebuildIdxs view (fun _ => True) h touched1 oldData data
                (indices t) wa Hidx) as Hre.
  destruct (rebuildIdxs bsRM h touched1 oldData data (indices t) wa)
    as [e5 wb]. simpl in Hre.
  pose proof (Staged_trans _ _ _ _ _ Hnew Hre) as [Hview _].
  destruct e5 as [e5|].
  { injection Hstaged as _ <-. apply Hview. }
  unfold SaveTo in Hstaged.
  destruct (replay (bs wb) (txn wb)) as [[e6|] e7].
  - injection Hstaged as _ <-. apply Hview.
  - discriminate.
Qed.

(** When the index phase of [AddRecord] fails (a duplicate key or any other
    error of [addIndices]), [AddRecord] returns that handle and error, and
    neither the row lock, nor a column, nor an index entry was written: the
    store reads as before the call. *)
Theorem AddRecord_index_error_leaves_store
    (view : Env -> Key -> option Value) (Hint : Env -> option Err)
    (t : Table) (r : list Datum) (w w0 w1 : World) (recordID h : Z) (e : Err) :
  MapStore view Hint ->
  Forall (IndexStages view (fun _ => True)) (indices t) ->
  newRecordID t r w = Done ((recordID, None), w0) ->
  GetTxn (txn w0) = None ->
  addIndices t recordID r (NewBufferStore w0) = Done ((h, Some e), w1) ->
  AddRecord t r w = Done ((h, Some e), Release w1)
  /\ forall k, view (txn (Release w1)) k = view (txn w) k.
Proof.
  intros Hms Hidx Hnew Htxn Hadd. split.
  - unfold AddRecord. rewrite Hnew. simpl. rewrite Htxn.
    unfold addStaged. rewrite Hadd. reflexivity.
  - intros k. simpl.
    destruct (addIndices_staged view Hint Hms (fun _ => True) t recordID r
                (NewBufferStore w0) _ w1 Hidx Htxn Hadd) as [[Hv _] _].
    rewrite Hv. simpl.
    apply (newRecordID_view view Hint t r w w0 _ Hms Hnew).
Qed.

(** The handle of a row [AddRecord] inserted: the integer the row holds for
    the first Public PK-is-handle column when the table has one (the
    allocator is then not asked), and otherwise the id the allocator
    issued. *)
Theorem AddRecord_handle (t : Table) (r : list Datum) (w w' : World) (h : Z) :
  AddRecord t r w = Done ((h, None), w') ->
  match List.find (fun col => IsPKHandleColumn col (meta t)) (Cols t) with
  | Some col =>
    exists d, index r (Offset col) = Done d /\ h = GetInt64 d
              /\ newRecordID t r w = Done ((h, None), w)
  | None => fst (Alloc (TableID t) (txn w)) = (h, None)
  end.
Proof.
  intros Hrun.
  assert (Hfind : forall cols,
            findRecordID (meta t) cols r =
            match List.find (fun col => IsPKHandleColumn col (meta t)) cols with
            | Some col => let* d := index r (Offset col) in Done (GetInt64 d, true)
            | None => Done (0, false)
            end).
  { induction cols as [|c cols IH]; simpl; [reflexivity|].
    destruct (IsPKHandleColumn c (meta t)); [reflexivity|exact IH]. }
  assert (Hid : exists w0, newRecordID t r w = Done ((h, None), w0)).
  { unfold AddRecord in Hrun.
    destruct (newRecordID t r w) as [[[rid e0] w0]|]; [|discriminate].
    simpl in Hrun. destruct e0 as [e0|]; [discriminate|].
    destruct (GetTxn (txn w0)); [discriminate|].
    destruct (addStaged t rid r (NewBufferStore w0)) as [[res w4]|] eqn:Hst;
      [|discriminate].
    simpl in Hrun. injection Hrun as -> _.
    unfold addStaged in Hst.
    destruct (addIndices t rid r (NewBufferStore w0)) as [[[h0 e2] w1]|];
      [|discriminate].
    simpl in Hst. destruct e2; [discriminate|].
    destruct (LockRow t rid false w1) as [[e3|] w2]; [discriminate|].
    destruct (addRecordCols t rid r (writableCols t) w2) as [[[e4|] w3]|];
      try discriminate.
    simpl in Hst. destruct (SaveTo w3) as [[e5|] w5]; [discriminate|].
    injection Hst as -> _. exists w0. reflexivity. }
  destruct Hid as [w0 Hnew]. unfold newRecordID in *. rewrite Hfind in *.
  destruct (List.find _ (Cols t)) as [col|].
  - destruct (index r (Offset col)) as [d|]; [|discriminate].
    simpl in Hnew |- *. injection Hnew as <- _.
    exists d. repeat split.
  - simpl in Hnew. destruct (Alloc (TableID t) (txn w)) as [res e].
    injection Hnew as -> _. reflexivity.
Qed.

(** *** setOnUpdateData *)

Lemma touchedAt_insert (touched : gmap Z bool) off off' :
  touchedAt (<[off := true]> touched) off'
  = if bool_decide (off' = off) then true else touchedAt touched off'.
Proof.
  unfold touchedAt. destruct (decide (off' = off)) as [->|Hne].
  - rewrite lookup_insert_eq, bool_decide_eq_true_2 by reflexivity.
    reflexivity.
  - rewrite lookup_insert_ne, bool_decide_eq_false_2 by congruence.
    reflexivity.
Qed.

Lemma index_store (data data' : list Datum) off value off' :
  store data off value = Done data' ->
  length data' = length data
  /\ index data' off' = if bool_decide (off' = off) then Done value
                        else index data off'.
Proof.
  unfold store. destruct (off <? 0) eqn:Hneg; [discriminate|].
  destruct (Z.to_nat off <? length data)%nat eqn:Hlt; [|discriminate].
  intros [= <-]. apply Nat.ltb_lt in Hlt. apply Z.ltb_ge in Hneg.
  split; [apply length_insert|].
  unfold index. destruct (decide (off' = off)) as [->|Hne].
  - rewrite bool_decide_eq_true_2 by reflexivity.
    rewrite (proj2 (Z.ltb_ge _ _) Hneg).
    rewrite list_lookup_insert_eq by exact Hlt. reflexivity.
  - rewrite bool_decide_eq_false_2 by exact Hne.
    destruct (off' <? 0) eqn:Hneg'; [reflexivity|].
    apply Z.ltb_ge in Hneg'.
    rewrite list_lookup_insert_ne by lia. reflexivity.
Qed.

Lemma setOnUpdateCols_spec e ucols (touched touched' : gmap Z bool)
    (data data' : list Datum) :
  setOnUpdateCols e ucols touched data = Done (None, touched', data') ->
  length data' = length data
  /\ (forall off, touchedAt touched' off = true <->
                  touchedAt touched off = true
                  \/ exists col, col ∈ ucols /\ Offset col = off)
  /\ (forall off, touchedAt touched off = true
                  \/ (forall col, col ∈ ucols -> Offset col <> off) ->
                  index data' off = index data off).
Proof.
  revert touched data. induction ucols as [|c ucols IH]; intros touched data.
  - simpl. intros [= <- <-]. split; [reflexivity|]. split.
    + intros off. split; [intros H; left; exact H|].
      intros [H|(col & Hin & _)]; [exact H|inversion Hin].
    + reflexivity.
  - simpl. destruct (touchedAt touched (Offset c)) eqn:Hc; simpl.
    + intros Hrest. destruct (IH _ _ Hrest) as (Hlen & Htouched & Hdata).
      split; [exact Hlen|]. split.
      * intros off. rewrite Htouched. split.
        -- intros [H|(col & Hin & Hoff)]; [left; exact H|].
           right. exists col. split; [right; exact Hin|exact Hoff].
        -- intros [H|(col & Hin & Hoff)]; [left; exact H|].
           apply elem_of_cons in Hin as [->|Hin].
           ++ left. congruence.
           ++ right. exists col. split; assumption.
      * intros off [H|H]; apply Hdata; [left; exact H|].
        right. intros col Hin. apply H. right. exact Hin.
    + destruct (GetTimeValue e _ _) as [value [err|]]; [discriminate|].
      destruct (store data (Offset c) value) as [data1|] eqn:Hstore;
        [|discriminate].
      simpl. intros Hrest.
      destruct (IH _ _ Hrest) as (Hlen & Htouched & Hdata).
      destruct (index_store _ _ _ _ (Offset c) Hstore) as [Hlen1 _].
      split; [congruence|]. split.
      * intros off. rewrite Htouched, touchedAt_insert. split.
        -- intros [H|(col & Hin & Hoff)].
           ++ destruct (bool_decide (off = Offset c)) eqn:Hd.
              ** apply bool_decide_eq_true_1 in Hd. right. exists c.
                 split; [left|congruence].
              ** left. exact H.
           ++ right. exists col. split; [right; exact Hin|exact Hoff].
        -- intros [H|(col & Hin & Hoff)].
           ++ left. rewrite H. destruct (bool_decide _); reflexivity.
           ++ apply elem_of_cons in Hin as [->|Hin].
              ** left. rewrite bool_decide_eq_true_2 by congruence.
                 reflexivity.
              ** right. exists col. split; assumption.
      * intros off Hoff.
        assert (Hne : off <> Offset c).
        { destruct Hoff as [H|H]; [congruence|].
          intros ->. apply (H c); [left|reflexivity]. }
        rewrite Hdata.
        -- rewrite (proj2 (index_store _ _ _ _ off Hstore)).
           rewrite bool_decide_eq_false_2 by exact Hne. reflexivity.
        -- destruct Hoff as [H|H].
           ++ left. rewrite touchedAt_insert, H.
              destruct (bool_decide _); reflexivity.
           ++ right. intros col Hin. apply H. right. exact Hin.
Qed.

(** [setOnUpdateData], when it succeeds, leaves in the caller's map exactly
    the offsets that were touched and the offsets of the writable columns
    flagged on-update-now; the data keeps its length, and keeps its value at
    every offset the caller had touched (an explicit value is not
    overridden) and at every offset of no on-update column. *)
Theorem setOnUpdateData_marks (t : Table) (e : Env)
    (touched touched' : gmap Z bool) (data data' : list Datum) :
  setOnUpdateData t e touched data = Done (None, touched', data') ->
  length data' = length data
  /\ (forall off, touchedAt touched' off = true <->
                  touchedAt touched off = true
                  \/ exists col, col ∈ writableCols t
                                 /\ HasOnUpdateNowFlag (Flag col) = true
                                 /\ Offset col = off)
  /\ (forall off, touchedAt touched off = true
                  \/ (forall col, col ∈ writableCols t ->
                                  HasOnUpdateNowFlag (Flag col) = true ->
                                  Offset col <> off) ->
                  index data' off = index data off).
Proof.
  unfold setOnUpdateData, FindOnUpdateCols. intros Hrun.
  destruct (setOnUpdateCols_spec _ _ _ _ _ _ Hrun) as (Hlen & Htouched & Hdata).
  assert (Hin : forall col,
            col ∈ List.filter (fun col => HasOnUpdateNowFlag (Flag col))
                    (writableCols t)
            <-> col ∈ writableCols t /\ HasOnUpdateNowFlag (Flag col) = true).
  { intros col. rewrite !list_elem_of_In. apply filter_In. }
  split; [exact Hlen|]. split.
  - intros off. rewrite Htouched. split.
    + intros [H|(col & Hc & Hoff)]; [left; exact H|].
      right. exists col. apply Hin in Hc as [Hw Hf]. repeat split; assumption.
    + intros [H|(col & Hw & Hf & Hoff)]; [left; exact H|].
      right. exists col. split; [apply Hin; split; assumption|exact Hoff].
  - intros off [H|H]; apply Hdata; [left; exact H|].
    right. intros col Hc. apply Hin in Hc as [Hw Hf]. apply H; assumption.
Qed.

(** *** genIndexKeyStr *)

(** The string [genIndexKeyStr] builds for a duplicate-entry message does
    not tell the values apart: two values and the one value made of them
    joined by the separator give the same string, and so do the null value
    and the string "NULL" (for a [ToString] that prints a string as it
    is). *)
Theorem genIndexKeyStr_ambiguous (a b : string) :
  (forall s, ToString (DString s) = (s, None)) ->
  genIndexKeyStr (Some [DString a; DString b])
  = genIndexKeyStr (Some [DString (a ++ "-" ++ b)])
  /\ genIndexKeyStr (Some [DNull]) = genIndexKeyStr (Some [DString "NULL"]).
Proof.
  intros Hstr. unfold genIndexKeyStr. simpl. rewrite !Hstr. simpl.
  split; reflexivity.
Qed.

(** *** RowWithCols *)

(** [RowWithCols] returns one value per requested column, the null value
    at the position of a [nil] column, when it succeeds, and no row at all
    with an error. *)
Theorem RowWithCols_shape (t : Table) (h : Z) (cols : list (option Column))
    (w : World) (v : list Datum) (err : error) :
  RowWithCols t h cols w = (v, err) ->
  match err with
  | None => length v = length cols
            /\ forall i, cols !! i = Some None -> v !! i = Some DNull
  | Some _ => v = []
  end.
Proof.
  unfold RowWithCols. destruct (GetTxn (txn w)) as [e|].
  { intros [= <- <-]. reflexivity. }
  destruct err as [e|]; [apply rowCols_err_nil|].
  intros Hrun. split; [exact (rowCols_length _ _ _ _ _ Hrun)|].
  revert v Hrun. induction cols as [|[col|] cols IH]; intros v; simpl.
  - intros _ i Hi. discriminate.
  - destruct (negb _); [discriminate|].
    destruct (if IsPKHandleColumn col (meta t) then _ else _) as [vi [e1|]];
      [discriminate|].
    destruct (rowCols t h cols (txn w)) as [v' [e2|]]; [discriminate|].
    intros [= <-] [|i] Hi; [discriminate|]. simpl. apply (IH v' eq_refl i Hi).
  - destruct (rowCols t h cols (txn w)) as [v' [e2|]]; [discriminate|].
    intros [= <-] [|i] Hi; [reflexivity|]. simpl. apply (IH v' eq_refl i Hi).
Qed.

(** *** Indices being deleted *)

(** An index [AddRecord] writes: neither DeleteOnly nor
    DeleteReorganization. *)
Lemma addIdxs_filter recordID r idxs (w : World) :
  addIdxs recordID r idxs w
  = addIdxs recordID r
      (List.filter
         (fun v => negb (is_state (IdxState (Meta v)) StateDeleteOnly
                         || is_state (IdxState (Meta v))
                              StateDeleteReorganization)) idxs) w.
Proof.
  revert w. induction idxs as [|v idxs IH]; intros w; [reflexivity|].
  cbn [List.filter addIdxs].
  destruct (_ || _) eqn:Hdel; cbn [negb]; [apply IH|].
  cbn [addIdxs]. rewrite Hdel.
  destruct (FetchValues v r) as [colVals ferr].
  destruct (if Unique (Meta v) || Primary (Meta v) then _ else _)
    as [[[e1|] dup] w1]; [reflexivity|].
  destruct (Create v bsRM colVals recordID w1) as [[err|] w2];
    [reflexivity|apply IH].
Qed.

Lemma addRecordCols_setIndices t idxs recordID r cols (w : World) :
  addRecordCols (setIndices t idxs) recordID r cols w
  = addRecordCols t recordID r cols w.
Proof.
  revert w. induction cols as [|c cols IH]; intros w; [reflexivity|].
  cbn [addRecordCols].
  change (meta (setIndices t idxs)) with (meta t).
  change (RecordKey (setIndices t idxs) recordID (Some c))
    with (RecordKey t recordID (Some c)).
  destruct (IsPKHandleColumn c (meta t)); [apply IH|].
  destruct (match DefaultValue c with
            | Some _ => Done false
            | None => let* d := index r (Offset c) in Done (IsNull d)
            end) as [[|]|]; [apply IH| |reflexivity].
  simpl.
  destruct (if is_state (State c) StateWriteOnly
               || is_state (State c) StateWriteReorganization
            then _ else _) as [[value [e|]]|]; try reflexivity.
  simpl. destruct (SetColValue txnRM _ value w) as [[e|] w1];
    [reflexivity|apply IH].
Qed.

(** [AddRecord] neither reads nor writes an index in state DeleteOnly or
    DeleteReorganization: it does what it does on the table without those
    indices. *)
Theorem AddRecord_skips_deleted_indices (t : Table) (r : list Datum)
    (w : World) :
  AddRecord t r w
  = AddRecord
      (setIndices t
         (List.filter
            (fun v => negb (is_state (IdxState (Meta v)) StateDeleteOnly
                            || is_state (IdxState (Meta v))
                                 StateDeleteReorganization)) (indices t)))
      r w.
Proof.
  unfold AddRecord.
  change (newRecordID (setIndices t _) r w) with (newRecordID t r w).
  destruct (newRecordID t r w) as [[[rid e0] w0]|]; [|reflexivity].
  simpl. destruct e0 as [e0|]; [reflexivity|].
  destruct (GetTxn (txn w0)); [reflexivity|].
  unfold addStaged, addIndices. simpl.
  destruct (GetTxn (txn w0)); [reflexivity|].
  change (checkHandle (setIndices t _) rid) with (checkHandle t rid).
  assert (Hindex :
            match checkHandle t rid (NewBufferStore w0) with
            | (Some ret, w1) => Done (ret, w1)
            | (None, w1) =>
              let* (ret, w2) :=
                addIdxs rid r
                  (List.filter
                     (fun v =>
                        negb (is_state (IdxState (Meta v)) StateDeleteOnly
                              || is_state (IdxState (Meta v))
                                   StateDeleteReorganization)) (indices t))
                  w1 in
              Done (default (0, None) ret, w2)
            end
            = match checkHandle t rid (NewBufferStore w0) with
              | (Some ret, w1) => Done (ret, w1)
              | (None, w1) =>
                let* (ret, w2) := addIdxs rid r (indices t) w1 in
                Done (default (0, None) ret, w2)
              end).
  { destruct (checkHandle t rid (NewBufferStore w0)) as [[ret|] w1];
      [reflexivity|]. rewrite <- addIdxs_filter. reflexivity. }
  change (indices (setIndices t ?l)) with l.
  rewrite Hindex. clear Hindex.
  destruct (match checkHandle t rid (NewBufferStore w0) with
            | (Some ret, w1) => Done (ret, w1)
            | (None, w1) =>
              let* (ret, w2) := addIdxs rid r (indices t) w1 in
              Done (default (0, None) ret, w2)
            end) as [[[h0 e1] w1]|]; [|reflexivity].
  simpl. destruct e1 as [e1|]; [reflexivity|].
  change (LockRow (setIndices t _) rid false) with (LockRow t rid false).
  destruct (LockRow t rid false _) as [[e2|] w2]; [reflexivity|].
  change (writableCols (setIndices t _)) with (writableCols t).
  rewrite addRecordCols_setIndices. reflexivity.
Qed.

(** [UpdateRecord] never creates an entry in an index in state DeleteOnly
    or DeleteReorganization: with any other [Create] for such an index it
    does the same. *)
Theorem UpdateRecord_no_create_in_deleted_index (t : Table) (h : Z)
    (oldData newData : list Datum) (touched : gmap Z bool) (w : World)
    (pre post : list Index) (idx idx' : Index) :
  indices t = pre ++ idx :: post ->
  is_state (IdxState (Meta idx)) StateDeleteOnly
  || is_state (IdxState (Meta idx)) StateDeleteReorganization = true ->
  Meta idx' = Meta idx ->
  (forall row, FetchValues idx' row = FetchValues idx row) ->
  (forall rm vals h0 w0, Delete idx' rm vals h0 w0 = Delete idx rm vals h0 w0) ->
  UpdateRecord (setIndices t (pre ++ idx' :: post)) h oldData newData touched w
  = UpdateRecord t h oldData newData touched w.
Proof.
  intros Hidxs Hstate Hmeta Hfetch Hdelete.
  assert (Hloop : forall touched1 data wa,
            rebuildIdxs bsRM h touched1 oldData data (pre ++ idx' :: post) wa
            = rebuildIdxs bsRM h touched1 oldData data (pre ++ idx :: post) wa).
  { intros touched1 data wa. rewrite !rebuildIdxs_app.
    destruct (rebuildIdxs bsRM h touched1 oldData data pre wa)
      as [[e|] wb]; [reflexivity|].
    cbn [rebuildIdxs]. unfold idxTouched, removeRowIndex, buildIndexForRow.
    rewrite Hmeta, !Hfetch, Hstate.
    destruct (negb _); [reflexivity|].
    destruct (FetchValues idx oldData) as [oldVs [e|]]; [reflexivity|].
    rewrite Hdelete. reflexivity. }
  unfold UpdateRecord.
  change (writableCols (setIndices t _)) with (writableCols t).
  change (setOnUpdateData (setIndices t (pre ++ idx' :: post)))
    with (setOnUpdateData t).
  destruct (setOnUpdateData t (txn w) touched _) as [[[e1 touched1] data]|];
    [|reflexivity].
  simpl. destruct e1 as [e1|]; [reflexivity|].
  destruct (GetTxn (txn w)); [reflexivity|].
  unfold updateStaged, rebuildIndices. rewrite setNewData_setIndices.
  destruct (setNewData t bsRM h touched1 data (NewBufferStore w))
    as [[e2 wa]|]; [|reflexivity].
  simpl. destruct e2 as [e2|]; [reflexivity|].
  change (indices (setIndices t (pre ++ idx' :: post)))
    with (pre ++ idx' :: post).
  rewrite Hloop, Hidxs. reflexivity.
Qed.

(** *** What a successful update stores *)

Section Stores.
Variable view : Env -> Key -> option Value.

Lemma NoDup_fmap_eq {A B} (f : A -> B) (l : list A) x y :
  NoDup (f <$> l) -> x ∈ l -> y ∈ l -> f x = f y -> x = y.
Proof.
  induction l as [|a l IH]; [intros _ Hx; inversion Hx|].
  rewrite fmap_cons. intros Hnd Hx Hy Hxy.
  apply NoDup_cons in Hnd as [Hfresh Hnd].
  apply elem_of_cons in Hx as [->|Hx]; apply elem_of_cons in Hy as [->|Hy].
  - reflexivity.
  - exfalso. apply Hfresh. rewrite Hxy. apply list_elem_of_fmap_2, Hy.
  - exfalso. apply Hfresh. rewrite <- Hxy. apply list_elem_of_fmap_2, Hx.
  - apply IH; assumption.
Qed.

(** After a replay that succeeded, a key reads what was staged for it
    last, and what the store held when nothing was staged for it. *)
Lemma replay_view (b : MemBuffer) e e' :
  SetLaw view -> DeleteLaw view ->
  replay b e = (None, e') ->
  forall k, view e' k = match bufLookup k b with
                        | Some o => o
                        | None => view e k
                        end.
Proof.
  intros Hset Hdel. revert e'. induction b as [|[k0 v0] b IH]; intros e'.
  - simpl. intros [= <-] k. reflexivity.
  - simpl. destruct (replay b e) as [[err|] e1]; [discriminate|].
    intros Hlast k. specialize (IH e1 eq_refl k).
    destruct v0 as [val|].
    + rewrite (Hset _ _ _ _ Hlast k).
      destruct (bool_decide (k = k0)); [reflexivity|exact IH].
    + rewrite (Hdel _ _ _ Hlast k).
      destruct (bool_decide (k = k0)); [reflexivity|exact IH].
Qed.

Lemma bufLookup_app_fresh k (staged b : MemBuffer) :
  Forall (fun kv => fst kv <> k) staged ->
  bufLookup k (staged ++ b) = bufLookup k b.
Proof.
  induction 1 as [|[k0 v0] staged Hk0 _ IH]; [reflexivity|].
  simpl in *. rewrite bool_decide_eq_false_2 by congruence. exact IH.
Qed.

(** What [setNewData] stages in the scope: the encoded new value under the
    record key of each touched Public column, and nothing else. *)
Lemma setNewCols_staged t h (touched : gmap Z bool) data cols (w w' : World) :
  setNewCols t bsRM h touched data cols w = Done (None, w') ->
  NoDup ((fun c => RecordKey t h (Some c)) <$> cols) ->
  txn w' = txn w
  /\ (forall col, col ∈ cols -> touchedAt touched (Offset col) = true ->
       exists d, index data (Offset col) = Done d
                 /\ snd (EncodeValue d) = None
                 /\ bufLookup (RecordKey t h (Some col)) (bs w')
                    = Some (Some (fst (EncodeValue d))))
  /\ (forall k, (forall col, col ∈ cols ->
                  touchedAt touched (Offset col) = true ->
                  RecordKey t h (Some col) <> k) ->
       bufLookup k (bs w') = bufLookup k (bs w)).
Proof.
  revert w. induction cols as [|c cols IH]; intros w.
  - simpl. intros [= <-] _. repeat split.
    intros col Hin. inversion Hin.
  - rewrite fmap_cons. cbn [setNewCols]. intros Hrun Hnd.
    apply NoDup_cons in Hnd as [Hfresh Hnd].
    destruct (touchedAt touched (Offset c)) eqn:Hc; cbn [negb] in Hrun.
    + destruct (index data (Offset c)) as [d|] eqn:Hd; [|discriminate].
      simpl in Hrun. unfold SetColValue in Hrun.
      destruct (EncodeValue d) as [v [e|]] eqn:Henc; [discriminate|].
      simpl in Hrun.
      destruct (IH _ Hrun Hnd) as (Htxn & Hcols & Hframe).
      split; [exact Htxn|]. split.
      * intros col Hin Htouched. apply elem_of_cons in Hin as [->|Hin].
        -- exists d. rewrite Henc. repeat split; [exact Hd|].
           rewrite Hframe.
           ++ simpl. rewrite bool_decide_eq_true_2 by reflexivity.
              reflexivity.
           ++ intros col Hin _ Heq. apply Hfresh. rewrite <- Heq.
              apply (list_elem_of_fmap_2 (fun c => RecordKey t h (Some c))).
              exact Hin.
        -- apply Hcols; assumption.
      * intros k Hk. rewrite Hframe.
        -- simpl. rewrite bool_decide_eq_false_2; [reflexivity|].
           intros ->. apply (Hk c); [left|exact Hc|reflexivity].
        -- intros col Hin. apply Hk. right. exact Hin.
    + destruct (IH _ Hrun Hnd) as (Htxn & Hcols & Hframe).
      split; [exact Htxn|]. split.
      * intros col Hin Htouched. apply elem_of_cons in Hin as [->|Hin];
          [congruence|]. apply Hcols; assumption.
      * intros k Hk. apply Hframe. intros col Hin. apply Hk. right. exact Hin.
Qed.

(** What a successful [UpdateRecord] leaves under the record keys of the
    Public columns: the encoded new value for a column marked in the
    touched set as the call leaves it, and what the store held for the
    others.  (The new values are [newData] cut or padded with nulls to the
    number of writable columns, with the on-update values set.) *)
Theorem UpdateRecord_stores_touched (t : Table) (h : Z)
    (oldData newData : list Datum) (touched touched' : gmap Z bool)
    (w w' : World) :
  SetLaw view -> DeleteLaw view ->
  Forall (IndexStages view (fun k => forall col, k <> RecordKey t h col))
    (indices t) ->
  NoDup ((fun c => RecordKey t h (Some c)) <$> Cols t) ->
  UpdateRecord t h oldData newData touched w = Done (None, touched', w') ->
  forall col, col ∈ Cols t ->
    if touchedAt touched' (Offset col)
    then exists d,
           snd (EncodeValue d) = None
           /\ view (txn w') (RecordKey t h (Some col))
              = Some (fst (EncodeValue d))
           /\ (touchedAt touched (Offset col) = true ->
               index (makeCopy (length (writableCols t)) newData) (Offset col)
               = Done d)
    else view (txn w') (RecordKey t h (Some col))
         = view (txn w) (RecordKey t h (Some col)).
Proof.
  intros Hset Hdel Hidx Hnd Hrun col Hin.
  set (Q := fun k : Key => forall col, k <> RecordKey t h col) in *.
  unfold UpdateRecord in Hrun.
  destruct (setOnUpdateData t (txn w) touched _)
    as [[[e1 touched1] data]|] eqn:Hmark; [|discriminate].
  simpl in Hrun. destruct e1 as [e1|]; [discriminate|].
  destruct (GetTxn (txn w)) as [e2|]; [discriminate|].
  destruct (updateStaged t h touched1 oldData data (NewBufferStore w))
    as [[e3 w3]|] eqn:Hstaged; [|discriminate].
  simpl in Hrun. injection Hrun as -> <- <-.
  unfold updateStaged, setNewData in Hstaged.
  destruct (setNewCols t bsRM h touched1 data (Cols t) (NewBufferStore w))
    as [[e4 wa]|] eqn:Hnew; [|discriminate].
  simpl in Hstaged. destruct e4 as [e4|]; [discriminate|].
  destruct (setNewCols_staged _ _ _ _ _ _ _ Hnew Hnd)
    as (Htxna & Hcols & Hframe).
  unfold rebuildIndices in Hstaged.
  pose proof (Staged_rebuildIdxs view Q h touched1 oldData data
                (indices t) wa Hidx) as [Hviewb (staged & Hbsb & Hq)].
  destruct (rebuildIdxs bsRM h touched1 oldData data (indices t) wa)
    as [[e5|] wb]; [discriminate|].
  simpl in Hviewb, Hbsb.
  unfold SaveTo in Hstaged.
  destruct (replay (bs wb) (txn wb)) as [[e6|] e7] eqn:Hrep; [discriminate|].
  injection Hstaged as <-. simpl.
  rewrite (replay_view _ _ _ Hset Hdel Hrep), Hbsb.
  rewrite bufLookup_app_fresh.
  2:{ eapply Forall_impl; [exact Hq|].
      intros [k0 v0] Hk0 Heq. simpl in *. exact (Hk0 (Some col) Heq). }
  destruct (touchedAt touched1 (Offset col)) eqn:Htouched.
  - destruct (Hcols col Hin Htouched) as (d & Hd & Henc & Hbuf).
    exists d. rewrite Hbuf. repeat split; [exact Henc|].
    intros Hcaller. rewrite <- Hd. symmetry.
    apply (setOnUpdateData_marks _ _ _ _ _ _ Hmark). left. exact Hcaller.
  - rewrite Hframe.
    + simpl. rewrite Hviewb, Htxna. reflexivity.
    + intros col2 Hin2 Htouched2 Heq.
      rewrite (NoDup_fmap_eq _ _ _ _ Hnd Hin2 Hin Heq) in Htouched2.
      congruence.
Qed.

End Stores.

(** *** What a successful insert leaves of the lock and of the handle *)

Section Inserted.
Variable view : Env -> Key -> option Value.
Variable Hint : Env -> option Err.
Hypothesis Hms : MapStore view Hint.

(** One turn of the column loop of [AddRecord] that went through: the
    column was passed over, or its value was written. *)
Lemma addRecordCols_cons t h r c cols (w w' : World) :
  addRecordCols t h r (c :: cols) w = Done (None, w') ->
  addRecordCols t h r cols w = Done (None, w')
  \/ (IsPKHandleColumn c (meta t) = false
      /\ exists value w1,
           SetColValue txnRM (RecordKey t h (Some c)) value w = (None, w1)
           /\ addRecordCols t h r cols w1 = Done (None, w')).
Proof.
  simpl. destruct (IsPKHandleColumn c (meta t)); [left; assumption|].
  assert (Hvalue : forall m : Res (Datum * error),
            (let* (value, err) := m in
             match err with
             | Some _ => Done (Trace err, w)
             | None =>
               let '(err, w0) :=
                 SetColValue txnRM (RecordKey t h (Some c)) value w in
               match err with
               | Some _ => Done (Trace err, w0)
               | None => addRecordCols t h r cols w0
               end
             end) = Done (None, w') ->
            exists value w1,
              SetColValue txnRM (RecordKey t h (Some c)) value w = (None, w1)
              /\ addRecordCols t h r cols w1 = Done (None, w')).
  { intros [[value [e|]]|]; simpl; try discriminate.
    destruct (SetColValue txnRM _ value w) as [[e|] w1] eqn:Hset;
      [discriminate|].
    intros Hrest. exists value, w1. split; [exact Hset|exact Hrest]. }
  destruct (DefaultValue c) as [dv|].
  - simpl. intros Hrun. right. split; [reflexivity|]. exact (Hvalue _ Hrun).
  - destruct (index r (Offset c)) as [d|]; [|discriminate]. simpl.
    destruct (IsNull d); [left; assumption|].
    intros Hrun. right. split; [reflexivity|]. exact (Hvalue _ Hrun).
Qed.

(** The column loop of [AddRecord] writes nothing under the record key of
    a PK-is-handle column. *)
Lemma addRecordCols_handle_key t h r cols (w w' : World) :
  addRecordCols t h r cols w = Done (None, w') ->
  NoDup ((fun c => RecordKey t h (Some c)) <$> cols) ->
  forall col, col ∈ cols -> IsPKHandleColumn col (meta t) = true ->
    view (txn w') (RecordKey t h (Some col))
    = view (txn w) (RecordKey t h (Some col)).
Proof.
  revert w. induction cols as [|c cols IH]; intros w Hrun Hnd col Hin Hpk.
  { inversion Hin. }
  rewrite fmap_cons in Hnd. apply NoDup_cons in Hnd as [Hfresh Hnd].
  destruct (addRecordCols_cons _ _ _ _ _ _ _ Hrun)
    as [Hrest|(Hnpk & value & w1 & Hset & Hrest)].
  - apply elem_of_cons in Hin as [->|Hin]; [|exact (IH _ Hrest Hnd col Hin Hpk)].
    destruct (addRecordCols_spec view Hint Hms _ _ _ _ _ _ Hrest)
      as (_ & _ & Hframe & _).
    apply Hframe, Hfresh.
  - apply elem_of_cons in Hin as [->|Hin]; [congruence|].
    rewrite (IH _ Hrest Hnd col Hin Hpk).
    destruct (SetColValue_txn view Hint Hms _ _ _ _ Hset) as (_ & _ & _ & Hv).
    rewrite Hv, bool_decide_eq_false_2; [reflexivity|].
    intros Heq. apply Hfresh. rewrite <- Heq.
    apply (list_elem_of_fmap_2 (fun c => RecordKey t h (Some c))). exact Hin.
Qed.

(** A successful [AddRecord] leaves the lock key of the new row set (to the
    name of the transaction), and writes nothing under the record key of a
    PK-is-handle column: the handle is stored in the keys of the row only.
    For a store that behaves as a map, record keys that are distinct, and
    indices that write through the scope, to keys that are no record key of
    the row. *)
Theorem AddRecord_lock_and_handle (t : Table) (r : list Datum) (h : Z)
    (w w' : World) :
  Forall (IndexStages view (fun k => forall col, k <> RecordKey t h col))
    (indices t) ->
  NoDup (RecordKey t h <$> (None :: (Some <$> Columns t))) ->
  AddRecord t r w = Done ((h, None), w') ->
  (exists e, view (txn w') (RecordKey t h None) = Some (txn_String e))
  /\ forall col, col ∈ Columns t -> IsPKHandleColumn col (meta t) = true ->
       view (txn w') (RecordKey t h (Some col))
       = view (txn w) (RecordKey t h (Some col)).
Proof.
  intros Hidx Hnd Hrun.
  set (Q := fun k : Key => forall col, k <> RecordKey t h col) in *.
  unfold AddRecord in Hrun.
  destruct (newRecordID t r w) as [[[rid e0] w0]|] eqn:Hnew; [|discriminate].
  simpl in Hrun. destruct e0 as [e0|]; [discriminate|].
  destruct (GetTxn (txn w0)) as [e1|] eqn:Htxn0; [discriminate|].
  destruct (addStaged t rid r (NewBufferStore w0)) as [[res w4]|] eqn:Hst;
    [|discriminate].
  simpl in Hrun. injection Hrun as -> <-.
  unfold addStaged in Hst.
  destruct (addIndices t rid r (NewBufferStore w0)) as [[[h0 e2] w1]|] eqn:Hadd;
    [|discriminate].
  simpl in Hst. destruct e2 as [e2|]; [discriminate|].
  destruct (LockRow t rid false w1) as [[e3|] w2] eqn:Hlock; [discriminate|].
  destruct (addRecordCols t rid r (writableCols t) w2) as [[e4 w3]|] eqn:Hcols;
    [|discriminate].
  simpl in Hst. destruct e4 as [e4|]; [discriminate|].
  destruct (SaveTo w3) as [[e5|] w3'] eqn:Hsave; [discriminate|].
  injection Hst as -> <-.
  destruct (newRecordID_view view Hint t r w w0 _ Hms Hnew) as [_ Hv0].
  destruct (addIndices_staged view Hint Hms Q t h r (NewBufferStore w0)
              _ w1 Hidx Htxn0 Hadd) as [[Hv1 (staged & Hbs1 & Hq)] _].
  simpl in Hv1, Hbs1. rewrite app_nil_r in Hbs1.
  destruct (LockRow_write view Hint Hms t h w1 w2 Hlock) as (Hbs2 & _ & Hv2).
  destruct (addRecordCols_spec view Hint Hms t h r _ w2 w3 Hcols)
    as (Hbs3 & _ & Hframe & _).
  assert (Hkeys : NoDup ((fun c => RecordKey t h (Some c)) <$> Columns t)).
  { rewrite fmap_cons in Hnd. apply NoDup_cons in Hnd as [_ Hnd].
    rewrite <- list_fmap_compose in Hnd. exact Hnd. }
  assert (Hlockkey : forall col, col ∈ Columns t ->
            RecordKey t h (Some col) <> RecordKey t h None).
  { intros col Hin Heq. rewrite fmap_cons in Hnd.
    apply NoDup_cons in Hnd as [Hfresh _]. apply Hfresh. rewrite <- Heq.
    apply list_elem_of_fmap_2, list_elem_of_fmap_2, Hin. }
  assert (Hreplay : replay (bs w3) (txn w3) = (None, txn w3')).
  { unfold SaveTo in Hsave.
    destruct (replay (bs w3) (txn w3)) as [[e|] e6]; [discriminate|].
    injection Hsave as <-. reflexivity. }
  assert (Hstaged : Forall (fun kv => Q (fst kv)) (bs w3)).
  { rewrite Hbs3, Hbs2, Hbs1. exact Hq. }
  assert (Hfinal : forall col,
            view (txn (Release (onTxn (AddAffectedRows 1) w3')))
              (RecordKey t h col)
            = view (txn w3) (RecordKey t h col)).
  { intros col. simpl. rewrite (ms_AddAffectedRows_view _ _ Hms).
    apply (replay_frame view Q (bs w3) (txn w3) (txn w3')
             (ms_Set _ _ Hms) (ms_Delete _ _ Hms) Hstaged Hreplay).
    intros Hq'. exact (Hq' col eq_refl). }
  split.
  - exists (txn w1). rewrite Hfinal, Hframe, Hv2.
    + rewrite bool_decide_eq_true_2 by reflexivity. reflexivity.
    + intros Hin. apply list_elem_of_fmap in Hin as (col & Heq & Hcol).
      apply (Hlockkey col); [|symmetry; exact Heq].
      apply list_elem_of_In. apply list_elem_of_In, filter_In in Hcol.
      apply Hcol.
  - intros col Hin Hpk. rewrite Hfinal.
    assert (Hdec : col ∈ writableCols t \/ ~ col ∈ writableCols t).
    { destruct (negb (is_state (State col) StateDeleteOnly
                      || is_state (State col) StateDeleteReorganization))
        eqn:Hstate.
      - left. apply list_elem_of_In, filter_In.
        split; [apply list_elem_of_In, Hin|exact Hstate].
      - right. intros Hwr. apply list_elem_of_In, filter_In in Hwr.
        destruct Hwr as [_ Hwr]. congruence. }
    destruct Hdec as [Hwr|Hnwr].
    + rewrite (addRecordCols_handle_key _ _ _ _ _ _ Hcols
                 (NoDup_fmap_filter _ _ _ Hkeys) col Hwr Hpk).
      rewrite Hv2, bool_decide_eq_false_2 by (apply Hlockkey, Hin).
      rewrite Hv1. apply Hv0.
    + rewrite Hframe.
      * rewrite Hv2, bool_decide_eq_false_2 by (apply Hlockkey, Hin).
        rewrite Hv1. apply Hv0.
      * intros Hk. apply list_elem_of_fmap in Hk as (col2 & Heq & Hcol2).
        apply Hnwr.
        assert (Hin2 : col2 ∈ Columns t).
        { apply list_elem_of_In. apply list_elem_of_In, filter_In in Hcol2.
          apply Hcol2. }
        rewrite (NoDup_fmap_eq _ _ _ _ Hkeys Hin Hin2 Heq). exact Hcol2.
Qed.

End Inserted.

(** *** TableFromMeta, FindIndexByColName *)

Section Building.
Variable NewIndex : ModelTableInfo -> IndexInfo -> @Index Env.
Variables ErrTableStateCantNone ErrColumnStateCantNone
          ErrIndexStateCantNone : Err.
Variable EqualFold : string -> string -> bool.

Lemma fromMetaCols_find ErrC infos columns :
  fromMetaCols ErrC infos columns
  = match List.find (fun c => is_state (State c) StateNone) infos with
    | Some c => ([], Some (Gen ErrC ("column " ++ ColName c
                                     ++ " can't be in none state")))
    | None => (columns ++ infos, None)
    end.
Proof.
  revert columns. induction infos as [|c infos IH]; intros columns; simpl.
  - rewrite app_nil_r. reflexivity.
  - destruct (is_state (State c) StateNone); [reflexivity|].
    rewrite IH. destruct (List.find _ infos); [reflexivity|].
    rewrite <- app_assoc. reflexivity.
Qed.

Lemma fromMetaIdxs_find ErrI ti infos (t : Table) :
  fromMetaIdxs NewIndex ErrI ti infos t
  = match List.find (fun i => is_state (IdxState i) StateNone) infos with
    | Some i => (None, Some (Gen ErrI ("index " ++ IdxName i
                                       ++ " can't be in none state")))
    | None => (Some (setIndices t (indices t ++ (NewIndex ti <$> infos))), None)
    end.
Proof.
  revert t. induction infos as [|i infos IH]; intros t; simpl.
  - rewrite app_nil_r. destruct t; reflexivity.
  - destruct (is_state (IdxState i) StateNone); [reflexivity|].
    rewrite IH. destruct (List.find _ infos); [reflexivity|].
    simpl. rewrite <- app_assoc. reflexivity.
Qed.

(** [TableFromMeta] refuses a catalog entry in which the table, a column or
    an index is in state None, and reports the first of them in that order;
    otherwise it returns the table with the columns of the entry and one
    index per index of the entry, both in the order of the entry. *)
Theorem TableFromMeta_result (ti : ModelTableInfo) :
  TableFromMeta NewIndex ErrTableStateCantNone ErrColumnStateCantNone
    ErrIndexStateCantNone ti
  = if is_state (TblState ti) StateNone
    then (None, Some (Gen ErrTableStateCantNone
                        ("table " ++ TblName ti ++ " can't be in none state")))
    else
      match List.find (fun c => is_state (State c) StateNone) (TblColumns ti) with
      | Some c =>
        (None, Some (Gen ErrColumnStateCantNone
                       ("column " ++ ColName c ++ " can't be in none state")))
      | None =>
        match List.find (fun i => is_state (IdxState i) StateNone)
                (TblIndices ti) with
        | Some i =>
          (None, Some (Gen ErrIndexStateCantNone
                         ("index " ++ IdxName i ++ " can't be in none state")))
        | None =>
          (Some (newTable (TblID ti) (TblColumns ti)
                   (NewIndex ti <$> TblIndices ti)
                   (mkTableInfo (TblPKIsHandle ti))), None)
        end
      end.
Proof.
  unfold TableFromMeta.
  destruct (is_state (TblState ti) StateNone); [reflexivity|].
  rewrite fromMetaCols_find.
  destruct (List.find _ (TblColumns ti)); [reflexivity|].
  simpl. rewrite fromMetaIdxs_find.
  destruct (List.find _ (TblIndices ti)); reflexivity.
Qed.

Lemma findIndex_fmap ti infos name :
  (forall info, Meta (NewIndex ti info) = info) ->
  findIndex EqualFold (NewIndex ti <$> infos) name
  = NewIndex ti <$> List.find
      (fun info => is_state (IdxState info) StatePublic
                   && readableOn EqualFold name info) infos.
Proof.
  intros Hmeta. induction infos as [|info infos IH]; [reflexivity|].
  rewrite fmap_cons. simpl. rewrite Hmeta.
  destruct (is_state (IdxState info) StatePublic); simpl; [|exact IH].
  destruct (readableOn EqualFold name info); [reflexivity|exact IH].
Qed.

(** On a table [TableFromMeta] built, [FindIndexByColName] returns the index
    made for the first index of the catalog entry that is Public and has
    the one column [name] (up to [EqualFold]), and [nil] when the entry has
    none; an index that is not Public, or has more columns, is never
    returned.  ([NewIndex] is taken to keep the index info it is given.) *)
Theorem FindIndexByColName_from_meta (ti : ModelTableInfo) (t : Table)
    (name : string) :
  (forall info, Meta (NewIndex ti info) = info) ->
  TableFromMeta NewIndex ErrTableStateCantNone ErrColumnStateCantNone
    ErrIndexStateCantNone ti = (Some t, None) ->
  FindIndexByColName EqualFold t name
  = NewIndex ti <$> List.find
      (fun info => is_state (IdxState info) StatePublic
                   && readableOn EqualFold name info) (TblIndices ti).
Proof.
  intros Hmeta. rewrite TableFromMeta_result.
  destruct (is_state (TblState ti) StateNone); [discriminate|].
  destruct (List.find _ (TblColumns ti)); [discriminate|].
  destruct (List.find _ (TblIndices ti)); [discriminate|].
  intros [= <-]. unfold FindIndexByColName. simpl.
  apply findIndex_fmap, Hmeta.
Qed.

End Building.

(** *** RemoveRecord *)

Section Removal.
Variable view : Env -> Key -> option Value.
Hypothesis Hdel : DeleteLaw view.
Hypothesis Hmiss : DeleteMissLaw view.

Lemma removeCols_gone t h cols e e' :
  removeCols t h cols e = (None, e') ->
  (forall k, view e k = None -> view e' k = None)
  /\ forall col, col ∈ cols -> view e' (RecordKey t h (Some col)) = None.
Proof.
  revert e. induction cols as [|c cols IH]; intros e; simpl.
  - intros [= <-]. split; [auto|]. intros col Hin. inversion Hin.
  - destruct (txn_Delete (RecordKey t h (Some c)) e) as [[err|] e1] eqn:Hc.
    + destruct (negb (is_state (State c) StatePublic)
                && ErrorEqual (Some err) kv_ErrNotExist) eqn:Hskip;
        [|discriminate].
      apply andb_prop in Hskip as [_ Hne].
      destruct (Hmiss _ _ _ _ Hc Hne) as [Habsent Hsame].
      intros Hrest. destruct (IH _ Hrest) as [Hkeep Hgone]. split.
      * intros k Hk. apply Hkeep. rewrite Hsame. exact Hk.
      * intros col Hin. apply elem_of_cons in Hin as [->|Hin];
          [|apply Hgone, Hin].
        apply Hkeep. rewrite Hsame. exact Habsent.
    + intros Hrest. destruct (IH _ Hrest) as [Hkeep Hgone]. split.
      * intros k Hk. apply Hkeep. rewrite (Hdel _ _ _ Hc), Hk.
        destruct (bool_decide _); reflexivity.
      * intros col Hin. apply elem_of_cons in Hin as [->|Hin];
          [|apply Hgone, Hin].
        apply Hkeep. rewrite (Hdel _ _ _ Hc).
        rewrite bool_decide_eq_true_2 by reflexivity. reflexivity.
Qed.

Lemma removeIdxs_keeps (Q : Key -> Prop) h rec idxs (w : World) :
  Forall (IndexDeleteKeeps view Q) idxs ->
  forall k, Q k ->
    view (txn (snd (removeIdxs h rec idxs w))) k = view (txn w) k.
Proof.
  intros Hall k Hk. revert w.
  induction Hall as [|v idxs Hv _ IH]; intros w; simpl; [reflexivity|].
  destruct (FetchValues v rec) as [[vals|] ferr]; [|apply IH].
  destruct (GetTxn (txn w)); [reflexivity|].
  pose proof (Hv (Some vals) h w k Hk) as Hstep.
  destruct (Delete v txnRM (Some vals) h w) as [[err|] w1]; simpl in Hstep.
  - destruct (negb _ && _); [|exact Hstep].
    rewrite IH. exact Hstep.
  - rewrite IH. exact Hstep.
Qed.

(** After [RemoveRecord] succeeded, the store holds nothing under the lock
    key of the row nor under the record key of any column of the table,
    whatever the state of the column: for a store that behaves as a map and
    indices whose [Delete] leaves the record keys of the row alone. *)
Theorem RemoveRecord_removes_row (t : Table) (h : Z) (r : list Datum)
    (w w' : World) :
  Forall (IndexDeleteKeeps view (fun k => exists col, k = RecordKey t h col))
    (indices t) ->
  RemoveRecord t h r w = (None, w') ->
  view (txn w') (RecordKey t h None) = None
  /\ forall col, col ∈ Columns t ->
       view (txn w') (RecordKey t h (Some col)) = None.
Proof.
  intros Hidx Hrun. unfold RemoveRecord in Hrun.
  destruct (removeRowData t h w) as [[e1|] w1] eqn:Hdata; [discriminate|].
  pose proof (removeIdxs_keeps _ h r (indices t) w1 Hidx) as Hkeep.
  unfold removeRowIndices in Hrun.
  destruct (removeIdxs h r (indices t) w1) as [[e2|] w2]; [discriminate|].
  injection Hrun as <-. simpl in Hkeep.
  unfold removeRowData in Hdata.
  destruct (LockRow t h false w) as [[e3|] wl]; [discriminate|].
  destruct (GetTxn (txn wl)); [discriminate|].
  unfold onTxnE in Hdata.
  destruct (removeCols t h (Columns t) (txn wl)) as [[e4|] ec] eqn:Hcols;
    [discriminate|].
  simpl in Hdata.
  destruct (txn_Delete (RecordKey t h None) ec) as [[e5|] el] eqn:Hlock;
    [discriminate|].
  injection Hdata as <-. simpl in Hkeep.
  destruct (removeCols_gone _ _ _ _ _ Hcols) as [_ Hgone].
  split.
  - rewrite Hkeep by (eexists; reflexivity).
    rewrite (Hdel _ _ _ Hlock), bool_decide_eq_true_2 by reflexivity.
    reflexivity.
  - intros col Hin. rewrite Hkeep by (eexists; reflexivity).
    rewrite (Hdel _ _ _ Hlock), (Hgone col Hin).
    destruct (bool_decide _); reflexivity.
Qed.

End Removal.

End Coverage.

(** ** The expression rewriter: what [Leave] does to the stack *)
Module RewriterProperties.
Import Rewriter.

Section Stack.
Context {SchemaColumn BuiltinFunc : Type}.
Variable NewFunction :
  Op -> list (Expression SchemaColumn BuiltinFunc) -> option FieldType ->
  Expression SchemaColumn BuiltinFunc * option GoError.
Variable Funcs : string -> option (Func BuiltinFunc).
Variable FindColumn :
  list SchemaColumn -> Node -> option SchemaColumn * option GoError.
Variable ErrInvalidOperation : Err.

Abbreviation rewriter := (expressionRewriter SchemaColumn BuiltinFunc).

Lemma index_Panic {A} (s : list A) i :
  index s i = Panic <-> i < 0 \/ len s <= i.
Proof.
  unfold index, len. destruct (Z.ltb_spec i 0) as [Hneg|Hpos].
  - split; [left; exact Hneg|reflexivity].
  - destruct (s !! Z.to_nat i) as [a|] eqn:Hi.
    + apply lookup_lt_Some in Hi. split; [discriminate|lia].
    + apply lookup_ge_None in Hi. split; [right; lia|reflexivity].
Qed.

Lemma sliceTo_Done {A} (s stack : list A) (k : nat) :
  sliceTo s (len s - Z.of_nat k) = Done stack ->
  exists args, s = (stack ++ args)%list /\ length args = k.
Proof.
  unfold sliceTo, len.
  destruct (_ || _) eqn:Hcond; [discriminate|].
  apply orb_false_elim in Hcond as [Hlo Hhi].
  apply Z.ltb_ge in Hlo, Hhi. intros [= <-].
  exists (drop (Z.to_nat (Z.of_nat (length s) - Z.of_nat k)) s).
  split; [symmetry; apply take_drop|].
  rewrite length_drop. lia.
Qed.

Lemma sliceTo_Panic {A} (s : list A) (k : nat) :
  sliceTo s (len s - Z.of_nat k) = Panic <-> (length s < k)%nat.
Proof.
  unfold sliceTo, len.
  destruct (Z.ltb_spec (Z.of_nat (length s) - Z.of_nat k) 0) as [Hneg|Hpos];
    simpl.
  - split; [lia|reflexivity].
  - destruct (Z.ltb_spec (Z.of_nat (length s))
                (Z.of_nat (length s) - Z.of_nat k)); [lia|].
    split; [discriminate|lia].
Qed.

Lemma sliceFromTo_Panic {A} (s : list A) (k : nat) :
  sliceFromTo s (len s - Z.of_nat k) (len s) = Panic <-> (length s < k)%nat.
Proof.
  unfold sliceFromTo, len.
  destruct (Z.ltb_spec (Z.of_nat (length s) - Z.of_nat k) 0) as [Hneg|Hpos];
    simpl.
  - split; [lia|reflexivity].
  - destruct (Z.ltb_spec (Z.of_nat (length s))
                (Z.of_nat (length s) - Z.of_nat k)); [lia|].
    rewrite Z.ltb_irrefl. simpl. split; [discriminate|lia].
Qed.

Lemma readFrom_Panic {A} (s : list A) i n :
  readFrom s i n = Panic
  <-> (0 < n)%nat /\ (i < 0 \/ len s < i + Z.of_nat n).
Proof.
  revert i. induction n as [|n IH]; intros i; simpl.
  - split; [discriminate|lia].
  - destruct (index s i) as [x|] eqn:Hx; simpl.
    + assert (Hin : ~ (i < 0 \/ len s <= i)).
      { rewrite <- index_Panic, Hx. discriminate. }
      destruct (readFrom s (i + 1) n) as [xs|] eqn:Hxs; simpl.
      * split; [discriminate|]. intros [_ Hout].
        assert (Hrest : readFrom s (i + 1) n = Panic); [|congruence].
        apply IH. lia.
      * apply IH in Hxs. split; [lia|reflexivity].
    + apply index_Panic in Hx. split; [lia|reflexivity].
Qed.

Lemma Stepped_push (er : rewriter) x :
  err _ _ er = None ->
  Stepped 0 er (withStack _ _ (ctxStack _ _ er ++ [x])%list er).
Proof.
  intros Herr. split; [reflexivity|]. split; [reflexivity|].
  simpl. rewrite Herr. exists (ctxStack _ _ er), [], x.
  rewrite app_nil_r. repeat split.
Qed.

Lemma Stepped_err (er : rewriter) k e :
  Stepped k er (withErr _ _ (Some e) er).
Proof. repeat split. Qed.

Lemma Stepped_pop (er : rewriter) (k : nat) stack x :
  err _ _ er = None ->
  sliceTo (ctxStack _ _ er) (len (ctxStack _ _ er) - Z.of_nat k) = Done stack ->
  Stepped k er (withStack _ _ (stack ++ [x])%list er).
Proof.
  intros Herr Hs. split; [reflexivity|]. split; [reflexivity|].
  simpl. rewrite Herr.
  destruct (sliceTo_Done _ _ _ Hs) as (args & Hsplit & Hlen).
  exists stack, args, x. repeat split; assumption.
Qed.

Lemma toColumn_Stepped v (er : rewriter) :
  err _ _ er = None ->
  Stepped 0 er (toColumn _ _ FindColumn v er).
Proof.
  intros Herr. unfold toColumn.
  destruct (FindColumn (schema _ _ er) v) as [[c|] [e|]];
    try apply Stepped_err.
  - apply Stepped_push, Herr.
  - destruct (findOuter _ FindColumn _ v) as [[c|] [e|]];
      try apply Stepped_err.
    split; [reflexivity|]. split; [reflexivity|]. simpl. rewrite Herr.
    exists (ctxStack _ _ er), [], (ColumnExpr _ _ c).
    rewrite app_nil_r. repeat split.
Qed.

Lemma funcCallToScalarFunc_Stepped FnName Args type (er er1 : rewriter) :
  err _ _ er = None ->
  funcCallToScalarFunc _ _ Funcs ErrInvalidOperation FnName Args type er
  = Done er1 ->
  Stepped (length Args) er er1.
Proof.
  intros Herr Hrun. unfold funcCallToScalarFunc in Hrun.
  destruct (readFrom _ _ _) as [args|]; [|discriminate]. simpl in Hrun.
  destruct (Funcs (L FnName)) as [f|];
    [|injection Hrun as <-; apply Stepped_err].
  destruct (_ || _); [injection Hrun as <-; apply Stepped_err|].
  destruct (sliceTo _ _) as [stack|] eqn:Hs; [|discriminate].
  injection Hrun as <-. apply Stepped_pop; assumption.
Qed.

Lemma toOneArgScalarFunc_Stepped n (er er1 : rewriter) :
  err _ _ er = None ->
  toOneArgScalarFunc _ _ NewFunction n er = Done er1 ->
  Stepped 1 er er1.
Proof.
  intros Herr Hrun. unfold toOneArgScalarFunc in Hrun.
  destruct (oneArgOp n) as [retOp retType].
  destruct (index _ _) as [a|]; [|discriminate]. simpl in Hrun.
  destruct (NewFunction _ _ _) as [f [e|]];
    [injection Hrun as <-; apply Stepped_err|].
  destruct (sliceTo _ _) as [stack|] eqn:Hs; [|discriminate].
  injection Hrun as <-. apply (Stepped_pop er 1); assumption.
Qed.

Lemma betweenToScalarFunc_Stepped not type (er er1 : rewriter) :
  err _ _ er = None ->
  betweenToScalarFunc _ _ NewFunction not type er = Done er1 ->
  Stepped 3 er er1.
Proof.
  intros Herr Hrun. unfold betweenToScalarFunc in Hrun.
  destruct (index _ (_ - 3)) as [a|]; [|discriminate]. simpl in Hrun.
  destruct (index _ (_ - 2)) as [b|]; [|discriminate]. simpl in Hrun.
  destruct (index _ (_ - 1)) as [c|]; [|discriminate]. simpl in Hrun.
  destruct (NewFunction _ _ _) as [f [e|]];
    [injection Hrun as <-; apply Stepped_err|].
  destruct (sliceTo _ _) as [stack|] eqn:Hs; [|discriminate].
  injection Hrun as <-. apply (Stepped_pop er 3); assumption.
Qed.

Lemma likeToScalarFunc_Stepped not escape type (er er1 : rewriter) :
  err _ _ er = None ->
  likeToScalarFunc _ _ NewFunction not escape type er = Done er1 ->
  Stepped 2 er er1.
Proof.
  intros Herr Hrun. unfold likeToScalarFunc in Hrun.
  destruct (index _ (_ - 2)) as [a|]; [|discriminate]. simpl in Hrun.
  destruct (index _ (_ - 1)) as [b|]; [|discriminate]. simpl in Hrun.
  destruct (NewFunction _ _ _) as [f [e|]];
    [injection Hrun as <-; apply Stepped_err|].
  destruct (sliceTo _ _) as [stack|] eqn:Hs; [|discriminate].
  injection Hrun as <-. apply (Stepped_pop er 2); assumption.
Qed.

Lemma inToScalarFunc_Stepped not (list_ : list Node) type (er er1 : rewriter) :
  err _ _ er = None ->
  inToScalarFunc _ _ NewFunction not list_ type er = Done er1 ->
  Stepped (S (length list_)) er er1.
Proof.
  intros Herr Hrun. unfold inToScalarFunc in Hrun.
  destruct (sliceFromTo _ _ _) as [args|]; [|discriminate]. simpl in Hrun.
  destruct (NewFunction _ _ _) as [f [e|]];
    [injection Hrun as <-; apply Stepped_err|].
  destruct (sliceTo _ _) as [stack|] eqn:Hs; [|discriminate].
  injection Hrun as <-. apply (Stepped_pop er (S (length list_))); [assumption|].
  rewrite <- Hs. f_equal. unfold len. lia.
Qed.

Lemma binary_Stepped op type (er er1 : rewriter) :
  err _ _ er = None ->
  (let l := len (ctxStack _ _ er) in
   let* a := index (ctxStack _ _ er) (l - 2) in
   let* b := index (ctxStack _ _ er) (l - 1) in
   let '(function, e) := NewFunction op [a; b] type in
   match e with
   | Some _ => Done (withErr _ _ e er)
   | None =>
     let* stack := sliceTo (ctxStack _ _ er) (l - 2) in
     Done (withStack _ _ (stack ++ [function])%list er)
   end) = Done er1 ->
  Stepped 2 er er1.
Proof.
  intros Herr Hrun. simpl in Hrun.
  destruct (index _ (_ - 2)) as [a|]; [|discriminate]. simpl in Hrun.
  destruct (index _ (_ - 1)) as [b|]; [|discriminate]. simpl in Hrun.
  destruct (NewFunction _ _ _) as [f [e|]];
    [injection Hrun as <-; apply Stepped_err|].
  destruct (sliceTo _ _) as [stack|] eqn:Hs; [|discriminate].
  injection Hrun as <-. apply (Stepped_pop er 2); assumption.
Qed.

(** [Leave] keeps the stack discipline.  With an error pending it does
    nothing.  Otherwise, when it reports an error the stack is as it was;
    and when it does not, it returns its node with [ok], and the stack is
    the one before with the expressions of the operands of the node taken
    from its top and the expression of the node put there (nothing, for a
    node that was rewritten on entering): what lies below is untouched.
    The schemas are never changed. *)
Theorem Leave_stack_discipline (n : Node) (er er' : rewriter)
    (ret : option Node) (ok : bool) :
  Leave _ _ NewFunction Funcs FindColumn ErrInvalidOperation n er
  = Done (er', (ret, ok)) ->
  schema _ _ er' = schema _ _ er
  /\ outerSchemas _ _ er' = outerSchemas _ _ er
  /\ match err _ _ er, err _ _ er' with
     | Some _, _ => er' = er /\ ret = None /\ ok = false
     | None, Some _ =>
       ctxStack _ _ er' = ctxStack _ _ er /\ ret = None /\ ok = false
     | None, None =>
       ret = Some n /\ ok = true
       /\ exists rest args top,
            ctxStack _ _ er = (rest ++ args)%list
            /\ length args = operands n
            /\ ctxStack _ _ er' = (rest ++ top)%list
            /\ length top = results n
     end.
Proof.
  unfold Leave. destruct (err _ _ er) as [e0|] eqn:Herr.
  { intros [= <- <- <-]. repeat split. }
  assert (Hsame : forall er1 : rewriter,
            er1 = er ->
            (match err _ _ er1 with
             | Some _ => Done (er1, (@None Node, false))
             | None => Done (er1, (Some n, true))
             end) = Done (er', (ret, ok)) ->
            operands n = 0%nat -> results n = 0%nat ->
            schema _ _ er' = schema _ _ er
            /\ outerSchemas _ _ er' = outerSchemas _ _ er
            /\ match err _ _ er' with
               | Some _ =>
                 ctxStack _ _ er' = ctxStack _ _ er /\ ret = None /\ ok = false
               | None =>
                 ret = Some n /\ ok = true
                 /\ exists rest args top,
                      ctxStack _ _ er = (rest ++ args)%list
                      /\ length args = operands n
                      /\ ctxStack _ _ er' = (rest ++ top)%list
                      /\ length top = results n
               end).
  { intros er1 -> Hrun Hops Hres. rewrite Herr in Hrun.
    injection Hrun as <- <- <-. rewrite Herr, Hops, Hres.
    repeat split. exists (ctxStack _ _ er), [], [].
    rewrite app_nil_r. repeat split. }
  assert (Hstep : forall er1 : rewriter,
            Stepped (operands n) er er1 ->
            (match err _ _ er1 with
             | Some _ => Done (er1, (@None Node, false))
             | None => Done (er1, (Some n, true))
             end) = Done (er', (ret, ok)) ->
            results n = 1%nat ->
            schema _ _ er' = schema _ _ er
            /\ outerSchemas _ _ er' = outerSchemas _ _ er
            /\ match err _ _ er' with
               | Some _ =>
                 ctxStack _ _ er' = ctxStack _ _ er /\ ret = None /\ ok = false
               | None =>
                 ret = Some n /\ ok = true
                 /\ exists rest args top,
                      ctxStack _ _ er = (rest ++ args)%list
                      /\ length args = operands n
                      /\ ctxStack _ _ er' = (rest ++ top)%list
                      /\ length top = results n
               end).
  { intros er1 (Hschema & Houter & Hstack) Hrun Hres.
    destruct (err _ _ er1) as [e1|] eqn:Herr1; injection Hrun as <- <- <-;
      rewrite Herr1; (split; [exact Hschema|]); (split; [exact Houter|]).
    - repeat split. exact Hstack.
    - destruct Hstack as (rest & args & top & Hsplit & Hlen & Hnew).
      repeat split. exists rest, args, [top]. rewrite Hres.
      repeat split; assumption. }
  destruct n; simpl bindR;
    try (intros Hrun; apply (Hsame er eq_refl Hrun); reflexivity).
  - (* FuncCallExpr *)
    destruct (funcCallToScalarFunc _ _ _ _ _ _ _ er) as [er1|] eqn:H1;
      [|discriminate]. simpl. intros Hrun.
    apply (Hstep er1); [|exact Hrun|reflexivity].
    eapply funcCallToScalarFunc_Stepped; eassumption.
  - (* ColumnName *)
    intros Hrun. apply (Hstep _ (toColumn_Stepped _ er Herr) Hrun).
    reflexivity.
  - (* ValueExpr *)
    intros Hrun. apply (Hstep _ (Stepped_push er _ Herr) Hrun). reflexivity.
  - (* IsNullExpr *)
    destruct (toOneArgScalarFunc _ _ _ _ er) as [er1|] eqn:H1; [|discriminate].
    simpl. intros Hrun. apply (Hstep er1); [|exact Hrun|reflexivity].
    eapply toOneArgScalarFunc_Stepped; eassumption.
  - (* IsTruthExpr *)
    destruct (toOneArgScalarFunc _ _ _ _ er) as [er1|] eqn:H1; [|discriminate].
    simpl. intros Hrun. apply (Hstep er1); [|exact Hrun|reflexivity].
    eapply toOneArgScalarFunc_Stepped; eassumption.
  - (* UnaryOperationExpr *)
    destruct (toOneArgScalarFunc _ _ _ _ er) as [er1|] eqn:H1; [|discriminate].
    simpl. intros Hrun. apply (Hstep er1); [|exact Hrun|reflexivity].
    eapply toOneArgScalarFunc_Stepped; eassumption.
  - (* BetweenExpr *)
    destruct (betweenToScalarFunc _ _ _ _ _ er) as [er1|] eqn:H1;
      [|discriminate].
    simpl. intros Hrun. apply (Hstep er1); [|exact Hrun|reflexivity].
    eapply betweenToScalarFunc_Stepped; eassumption.
  - (* PatternLikeExpr *)
    destruct (likeToScalarFunc _ _ _ _ _ _ er) as [er1|] eqn:H1;
      [|discriminate].
    simpl. intros Hrun. apply (Hstep er1); [|exact Hrun|reflexivity].
    eapply likeToScalarFunc_Stepped; eassumption.
  - (* PatternInExpr *)
    destruct (inToScalarFunc _ _ _ _ _ _ er) as [er1|] eqn:H1;
      [|discriminate].
    simpl. intros Hrun. apply (Hstep er1); [|exact Hrun|reflexivity].
    eapply inToScalarFunc_Stepped; eassumption.
  - (* PositionExpr *)
    destruct (_ && _).
    + destruct (index _ _) as [col|]; [|discriminate]. simpl.
      intros Hrun. apply (Hstep _ (Stepped_push er _ Herr) Hrun). reflexivity.
    + simpl. intros Hrun. apply (Hstep _ (Stepped_err er _ _) Hrun).
      reflexivity.
  - (* BinaryOperationExpr *)
    match goal with
    | |- bindR ?m _ = _ -> _ => destruct m as [er1|] eqn:H1; [|discriminate]
    end.
    simpl. intros Hrun. apply (Hstep er1); [|exact Hrun|reflexivity].
    eapply binary_Stepped; eassumption.
  - (* OtherNode *)
    intros Hrun. apply (Hstep _ (Stepped_err er _ _) Hrun). reflexivity.
Qed.

Lemma index_Done {A} (s : list A) i x :
  index s i = Done x -> 0 <= i < len s.
Proof.
  intros Hx. destruct (Z.lt_ge_cases i 0) as [Hneg|Hpos].
  - assert (Hp : index s i = Panic) by (apply index_Panic; lia). congruence.
  - destruct (Z.lt_ge_cases i (len s)) as [Hlt|Hge]; [lia|].
    assert (Hp : index s i = Panic) by (apply index_Panic; lia). congruence.
Qed.

Lemma sliceTo_ok {A} (s : list A) (k : nat) :
  (k <= length s)%nat ->
  exists stack, sliceTo s (len s - Z.of_nat k) = Done stack.
Proof.
  intros Hk. destruct (sliceTo s (len s - Z.of_nat k)) as [stack|] eqn:Hs;
    [eexists; reflexivity|].
  apply sliceTo_Panic in Hs. lia.
Qed.

Lemma toOneArgScalarFunc_Panic n (er : rewriter) :
  toOneArgScalarFunc _ _ NewFunction n er = Panic
  <-> (length (ctxStack _ _ er) < 1)%nat.
Proof.
  unfold toOneArgScalarFunc. destruct (oneArgOp n) as [retOp retType].
  destruct (index _ _) as [a|] eqn:Ha; simpl.
  - apply index_Done in Ha. unfold len in Ha.
    destruct (NewFunction _ _ _) as [f [e|]]; [split; [discriminate|lia]|].
    destruct (sliceTo_ok (ctxStack _ _ er) 1) as [stack Hs]; [lia|].
    change (Z.of_nat 1) with 1 in Hs. rewrite Hs. simpl.
    split; [discriminate|lia].
  - apply index_Panic in Ha. unfold len in Ha. split; [lia|reflexivity].
Qed.

Lemma betweenToScalarFunc_Panic not type (er : rewriter) :
  betweenToScalarFunc _ _ NewFunction not type er = Panic
  <-> (length (ctxStack _ _ er) < 3)%nat.
Proof.
  unfold betweenToScalarFunc.
  destruct (index _ (_ - 3)) as [a|] eqn:Ha; simpl;
    [|apply index_Panic in Ha; unfold len in Ha; split; [lia|reflexivity]].
  apply index_Done in Ha. unfold len in Ha.
  destruct (index _ (_ - 2)) as [b|] eqn:Hb; simpl;
    [|apply index_Panic in Hb; unfold len in Hb; lia].
  destruct (index _ (_ - 1)) as [c|] eqn:Hc; simpl;
    [|apply index_Panic in Hc; unfold len in Hc; lia].
  destruct (NewFunction _ _ _) as [f [e|]]; [split; [discriminate|lia]|].
  destruct (sliceTo_ok (ctxStack _ _ er) 3) as [stack Hs]; [lia|].
  change (Z.of_nat 3) with 3 in Hs. rewrite Hs. simpl.
  split; [discriminate|lia].
Qed.

Lemma likeToScalarFunc_Panic not escape type (er : rewriter) :
  likeToScalarFunc _ _ NewFunction not escape type er = Panic
  <-> (length (ctxStack _ _ er) < 2)%nat.
Proof.
  unfold likeToScalarFunc.
  destruct (index _ (_ - 2)) as [a|] eqn:Ha; simpl;
    [|apply index_Panic in Ha; unfold len in Ha; split; [lia|reflexivity]].
  apply index_Done in Ha. unfold len in Ha.
  destruct (index _ (_ - 1)) as [b|] eqn:Hb; simpl;
    [|apply index_Panic in Hb; unfold len in Hb; lia].
  destruct (NewFunction _ _ _) as [f [e|]]; [split; [discriminate|lia]|].
  destruct (sliceTo_ok (ctxStack _ _ er) 2) as [stack Hs]; [lia|].
  change (Z.of_nat 2) with 2 in Hs. rewrite Hs. simpl.
  split; [discriminate|lia].
Qed.

Lemma binary_Panic op type (er : rewriter) :
  (let l := len (ctxStack _ _ er) in
   let* a := index (ctxStack _ _ er) (l - 2) in
   let* b := index (ctxStack _ _ er) (l - 1) in
   let '(function, e) := NewFunction op [a; b] type in
   match e with
   | Some _ => Done (withErr _ _ e er)
   | None =>
     let* stack := sliceTo (ctxStack _ _ er) (l - 2) in
     Done (withStack _ _ (stack ++ [function])%list er)
   end) = Panic
  <-> (length (ctxStack _ _ er) < 2)%nat.
Proof.
  simpl.
  destruct (index _ (_ - 2)) as [a|] eqn:Ha; simpl;
    [|apply index_Panic in Ha; unfold len in Ha; split; [lia|reflexivity]].
  apply index_Done in Ha. unfold len in Ha.
  destruct (index _ (_ - 1)) as [b|] eqn:Hb; simpl;
    [|apply index_Panic in Hb; unfold len in Hb; lia].
  destruct (NewFunction _ _ _) as [f [e|]]; [split; [discriminate|lia]|].
  destruct (sliceTo_ok (ctxStack _ _ er) 2) as [stack Hs]; [lia|].
  change (Z.of_nat 2) with 2 in Hs. rewrite Hs. simpl.
  split; [discriminate|lia].
Qed.

Lemma inToScalarFunc_Panic not (list_ : list Node) type (er : rewriter) :
  inToScalarFunc _ _ NewFunction not list_ type er = Panic
  <-> (length (ctxStack _ _ er) < S (length list_))%nat.
Proof.
  unfold inToScalarFunc.
  assert (Hlo : len (ctxStack _ _ er) - len list_ - 1
                = len (ctxStack _ _ er) - Z.of_nat (S (length list_)))
    by (unfold len; lia).
  rewrite !Hlo.
  destruct (sliceFromTo _ _ _) as [args|] eqn:Ha; simpl.
  - assert (Hok : ~ (length (ctxStack _ _ er) < S (length list_))%nat).
    { rewrite <- sliceFromTo_Panic, Ha. discriminate. }
    destruct (NewFunction _ _ _) as [f [e|]]; [split; [discriminate|lia]|].
    destruct (sliceTo_ok (ctxStack _ _ er) (S (length list_))) as [stack Hs];
      [lia|].
    rewrite Hs. simpl. split; [discriminate|lia].
  - apply sliceFromTo_Panic in Ha. split; [lia|reflexivity].
Qed.

Lemma funcCallToScalarFunc_Panic FnName (Args : list Node) type (er : rewriter) :
  funcCallToScalarFunc _ _ Funcs ErrInvalidOperation FnName Args type er = Panic
  <-> (length (ctxStack _ _ er) < length Args)%nat.
Proof.
  unfold funcCallToScalarFunc.
  destruct (readFrom _ _ _) as [args|] eqn:Ha; simpl.
  - assert (Hok : ~ (length (ctxStack _ _ er) < length Args)%nat).
    { intros Hlt.
      assert (Hp : readFrom (ctxStack _ _ er)
                     (len (ctxStack _ _ er) - len Args) (length Args) = Panic);
        [|congruence].
      apply readFrom_Panic. unfold len. lia. }
    destruct (Funcs (L FnName)) as [f|]; [|split; [discriminate|lia]].
    destruct (_ || _); [split; [discriminate|lia]|].
    destruct (sliceTo_ok (ctxStack _ _ er) (length Args)) as [stack Hs]; [lia|].
    unfold len at 2. rewrite Hs. simpl. split; [discriminate|lia].
  - apply readFrom_Panic in Ha. unfold len in Ha. split; [lia|reflexivity].
Qed.

(** [Leave] panics exactly when no error is pending and the stack holds
    fewer expressions than the node has operands.  In particular a position
    out of range, an unknown function, a wrong number of arguments and an
    unknown column are errors, never panics. *)
Theorem Leave_panics (n : Node) (er : rewriter) :
  Leave _ _ NewFunction Funcs FindColumn ErrInvalidOperation n er = Panic
  <-> err _ _ er = None
      /\ (length (ctxStack _ _ er) < operands n)%nat.
Proof.
  unfold Leave. destruct (err _ _ er) as [e0|] eqn:Herr.
  { split; [discriminate|intros [? _]; discriminate]. }
  assert (Htail : forall m : Res rewriter,
            bindR m (fun er1 =>
                       match err _ _ er1 with
                       | Some _ => Done (er1, (@None Node, false))
                       | None => Done (er1, (Some n, true))
                       end) = Panic <-> m = Panic).
  { intros [er1|]; simpl; [|split; reflexivity].
    destruct (err _ _ er1); split; discriminate. }
  rewrite Htail.
  destruct n; simpl operands;
    try (split; [discriminate|intros [_ Hlt]; lia]).
  - rewrite funcCallToScalarFunc_Panic. split; [auto|intros [_ ?]; auto].
  - rewrite toOneArgScalarFunc_Panic. split; [auto|intros [_ ?]; auto].
  - rewrite toOneArgScalarFunc_Panic. split; [auto|intros [_ ?]; auto].
  - rewrite toOneArgScalarFunc_Panic. split; [auto|intros [_ ?]; auto].
  - rewrite betweenToScalarFunc_Panic. split; [auto|intros [_ ?]; auto].
  - rewrite likeToScalarFunc_Panic. split; [auto|intros [_ ?]; auto].
  - rewrite inToScalarFunc_Panic. split; [auto|intros [_ ?]; auto].
  - (* PositionExpr: the bounds are checked *)
    destruct (Z.ltb_spec 0 N) as [Hpos|Hneg]; simpl;
      [|split; [discriminate|intros [_ Hlt]; lia]].
    destruct (Z.leb_spec N (len (schema _ _ er))) as [Hle|Hgt];
      [|split; [discriminate|intros [_ Hlt]; lia]].
    destruct (index (schema _ _ er) (N - 1)) as [col|] eqn:Hcol; simpl;
      [split; [discriminate|intros [_ Hlt]; lia]|].
    apply index_Panic in Hcol. lia.
  - rewrite binary_Panic. split; [auto|intros [_ ?]; auto].
Qed.

Lemma findOuter_found outers v c :
  findOuter _ FindColumn outers v = (Some c, None) ->
  exists pre o post,
    outers = (pre ++ o :: post)%list
    /\ Forall (fun o' => FindColumn o' v = (None, None)) pre
    /\ FindColumn o v = (Some c, None).
Proof.
  induction outers as [|o outers IH]; simpl; [discriminate|].
  destruct (FindColumn o v) as [[c'|] [e|]] eqn:Ho; try discriminate.
  - intros [= ->]. exists [], o, outers. repeat split; [constructor|exact Ho].
  - intros Hrest. destruct (IH Hrest) as (pre & o' & post & -> & Hpre & Ho').
    exists (o :: pre), o', post. repeat split; [|exact Ho'].
    constructor; assumption.
Qed.

(** How [toColumn] resolves a name, when it reports no error.  The column
    of the rewriter's own schema wins, and the expression is not marked
    correlated by it; a name the own schema does not have resolves to the
    column of the last (innermost) outer schema that has it, and marks the
    expression correlated.  Either way the column is put on the stack. *)
Theorem toColumn_resolves (v : Node) (er : rewriter) :
  err _ _ (toColumn _ _ FindColumn v er) = None ->
  exists c,
    ctxStack _ _ (toColumn _ _ FindColumn v er)
    = (ctxStack _ _ er ++ [ColumnExpr _ _ c])%list
    /\ ((FindColumn (schema _ _ er) v = (Some c, None)
         /\ correlated _ _ (toColumn _ _ FindColumn v er)
            = correlated _ _ er)
        \/ (FindColumn (schema _ _ er) v = (None, None)
            /\ correlated _ _ (toColumn _ _ FindColumn v er) = true
            /\ exists pre o post,
                 outerSchemas _ _ er = (pre ++ o :: post)%list
                 /\ FindColumn o v = (Some c, None)
                 /\ Forall (fun o' => FindColumn o' v = (None, None)) post)).
Proof.
  unfold toColumn.
  destruct (FindColumn (schema _ _ er) v) as [[c|] [e|]]; try discriminate.
  - intros _. exists c. split; [reflexivity|]. left. split; reflexivity.
  - destruct (findOuter _ FindColumn (rev (outerSchemas _ _ er)) v)
      as [[c|] [e|]] eqn:Hout; try discriminate.
    intros _. exists c. split; [reflexivity|]. right.
    split; [reflexivity|]. split; [reflexivity|].
    destruct (findOuter_found _ _ _ Hout) as (pre & o & post & Hrev & Hpre & Ho).
    exists (rev post), o, (rev pre). split; [|split; [exact Ho|]].
    + rewrite <- (rev_involutive (outerSchemas _ _ er)), Hrev.
      rewrite rev_app_distr. simpl. rewrite <- app_assoc. reflexivity.
    + apply Forall_rev, Hpre.
Qed.

End Stack.
End RewriterProperties.

(** ** The properties above at concrete inputs *)
Module CoverageExamples.
Import Mem Inputs.
Local Open Scope string_scope.
Local Open Scope Z_scope.

Lemma memIndex_stages_any prefix info :
  IndexStages memView (fun _ => True) (memIndex prefix info).
Proof. apply Examples.memIndex_stages. intros; exact I. Qed.

Lemma pair_index_keys info vals h key :
  genIndexKey "t4_i" info vals h = (key, None) ->
  forall col, key <> RecordKey tPair 5 col.
Proof.
  unfold genIndexKey. destruct (encodeVals (elems vals)) as [s [e|]];
    [discriminate|].
  destruct (distinct info); intros [= <-] col Heq; simpl in Heq; discriminate.
Qed.

Lemma pair_keys_distinct :
  NoDup ((fun c => RecordKey tPair 5 (Some c)) <$> Cols tPair).
Proof.
  apply (bool_decide_unpack _). vm_compute. exact I.
Qed.

(** Renaming row 6 of [namedAB] to "a" stages the column and the removal of
    the old entry, then fails on the duplicate: the store reads as
    before. *)
Lemma UpdateRecord_error_leaves_store_witness :
  exists w',
    UpdateRecord tName 6 [DString "b"] [DString "a"] {[0 := true]} namedAB
    = Done (Some kv_ErrKeyExists, {[0 := true]}, w')
    /\ forall k, memView (txn w') k = memView (txn namedAB) k.
Proof.
  eexists. split; [reflexivity|].
  exact (UpdateRecord_error_leaves_store memView tName 6 [DString "b"]
           [DString "a"] {[0 := true]} {[0 := true]} namedAB _ kv_ErrKeyExists
           (Forall_cons_2 _ _ _ (memIndex_stages_any _ _) (Forall_nil_2 _))
           eq_refl).
Defined.

(** A second row named "a" is refused, and [namedA] reads as before. *)
Lemma AddRecord_index_error_leaves_store_witness :
  exists w',
    AddRecord tName [DString "a"] namedA
    = Done ((5, Some (dupEntry "a" iName)), w')
    /\ forall k, memView (txn w') k = memView (txn namedA) k.
Proof.
  eexists.
  exact (AddRecord_index_error_leaves_store memView hint tName [DString "a"]
           namedA namedA1 _ 1 5 (dupEntry "a" iName) Examples.mem_MapStore
           (Forall_cons_2 _ _ _ (memIndex_stages_any _ _) (Forall_nil_2 _))
           eq_refl eq_refl eq_refl).
Defined.

(** The handle of a row of the PK-is-handle table [tRead] is its key column;
    the handle of a row of [tName] is allocated. *)
Lemma AddRecord_handle_witness :
  (exists d, index [DUint64 5; DNull; DInt64 1; DNull] (Offset cId) = Done d
             /\ 5 = GetInt64 d
             /\ newRecordID tRead [DUint64 5; DNull; DInt64 1; DNull] emptyWorld
                = Done ((5, None), emptyWorld))
  /\ fst (Alloc (TableID tName) (txn namedA)) = (1, None).
Proof.
  split.
  - exact (AddRecord_handle tRead [DUint64 5; DNull; DInt64 1; DNull]
             emptyWorld _ 5 eq_refl).
  - exact (AddRecord_handle tName [DString "b"] namedA _ 1 eq_refl).
Defined.

(** Updating column 1 of a row of [tStamp] marks the stamped column 2 and
    sets its value; the value of column 1 is kept. *)
Lemma setOnUpdateData_marks_witness :
  exists touched' data',
    setOnUpdateData tStamp (txn oldRow) {[0 := true]}
      [DInt64 6; DString "then"] = Done (None, touched', data')
    /\ data' = [DInt64 6; DString "now"]
    /\ length data' = length [DInt64 6; DString "then"]
    /\ (forall off, touchedAt touched' off = true <->
                    touchedAt {[0 := true]} off = true
                    \/ exists col, col ∈ writableCols tStamp
                                   /\ HasOnUpdateNowFlag (Flag col) = true
                                   /\ Offset col = off)
    /\ (forall off, touchedAt {[0 := true]} off = true
                    \/ (forall col, col ∈ writableCols tStamp ->
                                    HasOnUpdateNowFlag (Flag col) = true ->
                                    Offset col <> off) ->
                    index data' off = index [DInt64 6; DString "then"] off).
Proof.
  eexists. eexists. split; [reflexivity|]. split; [reflexivity|].
  exact (setOnUpdateData_marks tStamp (txn oldRow) {[0 := true]} _
           [DInt64 6; DString "then"] _ eq_refl).
Defined.

(** With the [ToString] of [Mem], the values "a", "b" and the value "a-b"
    give the same string. *)
Lemma genIndexKeyStr_ambiguous_witness :
  genIndexKeyStr (K:=collab) (Some [DString "a"; DString "b"])
  = genIndexKeyStr (K:=collab) (Some [DString "a-b"])
  /\ genIndexKeyStr (K:=collab) (Some [DNull])
     = genIndexKeyStr (K:=collab) (Some [DString "NULL"]).
Proof.
  exact (genIndexKeyStr_ambiguous (K:=collab) "a" "b" (fun s => eq_refl)).
Defined.

(** A read of row [-1] of [tRead] with a [nil] column in the middle, and a
    read that fails on the required column. *)
Lemma RowWithCols_shape_witness :
  (length [DUint64 18446744073709551615; DNull; DNull]
   = length [Some cId; None; Some cOpt]
   /\ forall i, [Some cId; None; Some cOpt] !! i = Some None ->
        [DUint64 18446744073709551615; DNull; DNull] !! i = Some DNull)
  /\ fst (RowWithCols tRead (-1) [Some cId; Some cReq] emptyWorld) = [].
Proof.
  split.
  - exact (RowWithCols_shape tRead (-1) [Some cId; None; Some cOpt] emptyWorld
             [DUint64 18446744073709551615; DNull; DNull] None eq_refl).
  - exact (RowWithCols_shape tRead (-1) [Some cId; Some cReq] emptyWorld
             _ (Some kv_ErrNotExist) eq_refl).
Defined.

(** Renaming row 5 of [tGone] does the same with an index whose [Create]
    always fails: the index is being dropped and gets no new entry. *)
Lemma UpdateRecord_no_create_in_deleted_index_witness :
  UpdateRecord (setIndices tGone [idxGoneFailing]) 5 [DString "a"]
    [DString "b"] {[0 := true]} namedA
  = UpdateRecord tGone 5 [DString "a"] [DString "b"] {[0 := true]} namedA.
Proof.
  exact (UpdateRecord_no_create_in_deleted_index tGone 5 [DString "a"]
           [DString "b"] {[0 := true]} namedA [] []
           (memIndex (genTableIndexPrefix 1) iGone) idxGoneFailing
           eq_refl eq_refl eq_refl (fun _ => eq_refl)
           (fun _ _ _ _ => eq_refl)).
Defined.

(** Renaming row 5 of [tPair]: the first column holds the new name, the
    second what it held. *)
Lemma UpdateRecord_stores_touched_witness :
  exists w',
    UpdateRecord tPair 5 [DString "a"; DInt64 7] [DString "b"; DInt64 7]
      {[0 := true]} pairRow = Done (None, {[0 := true]}, w')
    /\ forall col, col ∈ Cols tPair ->
         if touchedAt {[0 := true]} (Offset col)
         then exists d,
                snd (EncodeValue d) = None
                /\ memView (txn w') (RecordKey tPair 5 (Some col))
                   = Some (fst (EncodeValue d))
                /\ (touchedAt {[0 := true]} (Offset col) = true ->
                    index (makeCopy (length (writableCols tPair))
                             [DString "b"; DInt64 7]) (Offset col) = Done d)
         else memView (txn w') (RecordKey tPair 5 (Some col))
              = memView (txn pairRow) (RecordKey tPair 5 (Some col)).
Proof.
  eexists. split; [reflexivity|].
  exact (UpdateRecord_stores_touched memView tPair 5 [DString "a"; DInt64 7]
           [DString "b"; DInt64 7] {[0 := true]} {[0 := true]} pairRow _
           Examples.mem_SetLaw Examples.mem_DeleteLaw
           (Forall_cons_2 _ _ _
              (Examples.memIndex_stages _ _ _ (pair_index_keys iFirst))
              (Forall_cons_2 _ _ _
                 (Examples.memIndex_stages _ _ _ (pair_index_keys iSecond))
                 (Forall_nil_2 _)))
           pair_keys_distinct eq_refl).
Defined.

Lemma read_keys_distinct :
  NoDup (RecordKey tRead 5 <$> (None :: (Some <$> Columns tRead))).
Proof.
  apply (bool_decide_unpack _). vm_compute. exact I.
Qed.

(** A row with key 5 in the PK-is-handle table [tRead]: the lock key is
    set, and nothing is stored under the record key of the key column. *)
Lemma AddRecord_lock_and_handle_witness :
  exists w',
    AddRecord tRead [DUint64 5; DNull; DInt64 1; DNull] emptyWorld
    = Done ((5, None), w')
    /\ (exists e, memView (txn w') (RecordKey tRead 5 None)
                  = Some (txn_String e))
    /\ forall col, col ∈ Columns tRead ->
         IsPKHandleColumn col (meta tRead) = true ->
         memView (txn w') (RecordKey tRead 5 (Some col))
         = memView (txn emptyWorld) (RecordKey tRead 5 (Some col)).
Proof.
  eexists. split; [reflexivity|].
  exact (AddRecord_lock_and_handle memView hint Examples.mem_MapStore tRead
           [DUint64 5; DNull; DInt64 1; DNull] 5 emptyWorld _
           (Forall_nil_2 _) read_keys_distinct eq_refl).
Defined.

Lemma mem_DeleteMissLaw : DeleteMissLaw memView.
Proof.
  intros k e err e' Hdel _. unfold memView. simpl in Hdel. unfold del in Hdel.
  destruct (lookupKv k (kvs e)); [discriminate|].
  injection Hdel as _ <-. split; reflexivity.
Qed.

Lemma memIndex_delete_keeps (Q : Key -> Prop) prefix info :
  (forall vals h key, genIndexKey prefix info vals h = (key, None) -> ~ Q key) ->
  IndexDeleteKeeps memView Q (memIndex prefix info).
Proof.
  intros Hkey vals h w k Hk. simpl. unfold delete.
  destruct (genIndexKey prefix info vals h) as [key [e|]] eqn:Hgen;
    [reflexivity|].
  simpl. unfold onTxnE. simpl. unfold del.
  destruct (lookupKv key (kvs (txn w))); [|reflexivity].
  simpl. unfold memView. simpl. rewrite Examples.lookupKv_deleteKv.
  rewrite bool_decide_eq_false_2; [reflexivity|].
  intros ->. exact (Hkey _ _ _ Hgen Hk).
Qed.

Lemma ddl_index_keys vals h key :
  genIndexKey "t3_i" iAdded vals h = (key, None) ->
  ~ exists col, key = RecordKey tDDL 9 col.
Proof.
  unfold genIndexKey. destruct (encodeVals (elems vals)) as [s [e|]];
    [discriminate|].
  intros [= <-] [col Heq]. simpl in Heq. discriminate.
Qed.

(** Removing row 9 of [tDDL], which holds no key for the column being
    added and no entry of the index being added. *)
Lemma RemoveRecord_removes_row_witness :
  exists w',
    RemoveRecord tDDL 9 [DInt64 4; DNull] oldRow = (None, w')
    /\ memView (txn w') (RecordKey tDDL 9 None) = None
    /\ forall col, col ∈ Columns tDDL ->
         memView (txn w') (RecordKey tDDL 9 (Some col)) = None.
Proof.
  eexists. split; [reflexivity|].
  exact (RemoveRecord_removes_row memView Examples.mem_DeleteLaw
           mem_DeleteMissLaw tDDL 9 [DInt64 4; DNull] oldRow _
           (Forall_cons_2 _ _ _
              (memIndex_delete_keeps _ _ _ ddl_index_keys) (Forall_nil_2 _))
           eq_refl).
Defined.

(** The index on the second column of the table built from [pairInfo],
    asked for in upper case. *)
Lemma FindIndexByColName_from_meta_witness :
  exists t,
    TableFromMeta newMemIndex errTableNone errColumnNone errIndexNone pairInfo
    = (Some t, None)
    /\ FindIndexByColName eqFold t "C2" = Some (memIndex "t4_i" iSecond).
Proof.
  eexists. split; [reflexivity|].
  exact (FindIndexByColName_from_meta newMemIndex errTableNone errColumnNone
           errIndexNone eqFold pairInfo _ "C2" (fun _ => eq_refl) eq_refl).
Defined.

(** Leaving a binary operation with three constants on the stack: the
    first stays, the other two make place for one expression. *)
Lemma Leave_stack_discipline_witness :
  exists er',
    Rewriter.Leave _ _ rwNewFunction rwFuncs rwFindColumn rwErrInvalidOperation
      (Rewriter.BinaryOperationExpr (Rewriter.opcode_Other 7) None)
      threeConstants
    = Done (er', (Some (Rewriter.BinaryOperationExpr (Rewriter.opcode_Other 7)
                          None), true))
    /\ exists rest args top,
         Rewriter.ctxStack _ _ threeConstants = (rest ++ args)%list
         /\ length args = 2%nat
         /\ Rewriter.ctxStack _ _ er' = (rest ++ top)%list
         /\ length top = 1%nat.
Proof.
  eexists. split; [reflexivity|].
  exact (proj2 (proj2 (proj2 (proj2
           (RewriterProperties.Leave_stack_discipline rwNewFunction rwFuncs
              rwFindColumn rwErrInvalidOperation
              (Rewriter.BinaryOperationExpr (Rewriter.opcode_Other 7) None)
              threeConstants _ _ true eq_refl))))).
Defined.

(** The name "b" inside two subqueries, where both outer schemas have it
    and the own schema does not: it resolves to the inner one, correlated. *)
Lemma toColumn_resolves_witness :
  exists c,
    Rewriter.ctxStack _ _
      (Rewriter.toColumn _ _ rwFindColumn
         (Rewriter.ColumnName (Rewriter.mkCIStr "" "") (Rewriter.mkCIStr "" "")
            (Rewriter.mkCIStr "B" "b")) nested)
    = (Rewriter.ctxStack _ _ nested ++ [Rewriter.ColumnExpr _ _ c])%list
    /\ ((rwFindColumn (Rewriter.schema _ _ nested)
           (Rewriter.ColumnName (Rewriter.mkCIStr "" "")
              (Rewriter.mkCIStr "" "") (Rewriter.mkCIStr "B" "b"))
         = (Some c, None)
         /\ Rewriter.correlated _ _
              (Rewriter.toColumn _ _ rwFindColumn
                 (Rewriter.ColumnName (Rewriter.mkCIStr "" "")
                    (Rewriter.mkCIStr "" "") (Rewriter.mkCIStr "B" "b"))
                 nested)
            = Rewriter.correlated _ _ nested)
        \/ (rwFindColumn (Rewriter.schema _ _ nested)
              (Rewriter.ColumnName (Rewriter.mkCIStr "" "")
                 (Rewriter.mkCIStr "" "") (Rewriter.mkCIStr "B" "b"))
            = (None, None)
            /\ Rewriter.correlated _ _
                 (Rewriter.toColumn _ _ rwFindColumn
                    (Rewriter.ColumnName (Rewriter.mkCIStr "" "")
                       (Rewriter.mkCIStr "" "") (Rewriter.mkCIStr "B" "b"))
                    nested)
               = true
            /\ exists pre o post,
                 Rewriter.outerSchemas _ _ nested = (pre ++ o :: post)%list
                 /\ rwFindColumn o
                      (Rewriter.ColumnName (Rewriter.mkCIStr "" "")
                         (Rewriter.mkCIStr "" "") (Rewriter.mkCIStr "B" "b"))
                    = (Some c, None)
                 /\ Forall
                      (fun o' =>
                         rwFindColumn o'
                           (Rewriter.ColumnName (Rewriter.mkCIStr "" "")
                              (Rewriter.mkCIStr "" "")
                              (Rewriter.mkCIStr "B" "b"))
                         = (None, None)) post)).
Proof.
  exact (RewriterProperties.toColumn_resolves rwFindColumn
           (Rewriter.ColumnName (Rewriter.mkCIStr "" "")
              (Rewriter.mkCIStr "" "") (Rewriter.mkCIStr "B" "b"))
           nested eq_refl).
Defined.

End CoverageExamples.
